(** * SMART-on-FHIR launch client: launch controller and observation feed

    A shallow embedding of the two script blocks that carry the behaviour
    of the application:

    - [Launch]: the top-level component ([clearAuthData], [constructAuthUrl],
      [makeTokenRequest] and the [onMount] handler that resolves a session);
    - [Feed]: the observation viewer ([getVitals], [fetchMoreFromServer],
      [updateDisplayedObservations], [loadMore], [hasMore], [bpDisplay],
      [createTemperatureObservation] and the mount handler);
    - [Banner]: the patient banner with its cache, and [Legacy]: the
      viewer without pagination.

    The browser platform the scripts run on is modelled in [JS]: truthiness,
    numbers (binary64 values, written as decimals), [parseFloat], the
    conversions between numbers and strings, and [Array.prototype.sort];
    [Numeric] states the grammar of numeric texts apart from the scanner.
    Asynchronous functions are cut at their [await] points: each
    synchronous segment is a function on the component state, and the event
    loop is a transition relation that runs one segment at a time. *)

From stdpp Require Import base option list strings pretty gmap relations sorting.
From Stdlib Require Import ZArith Zpow_facts Lia Ascii.

Local Open Scope Z_scope.

(** ** The JavaScript platform *)

Module JS.

(** *** Truthiness *)

(** A string is truthy unless it is empty; [null]/[undefined] are falsy. *)
Definition truthy_string (s : string) : bool := negb (String.eqb s "").

Definition truthy (o : option string) : bool :=
  match o with
  | Some s => truthy_string s
  | None => false
  end.

(** [x || d] on a possibly absent string. *)
Definition or_else (o : option string) (d : string) : string :=
  match o with
  | Some s => if truthy_string s then s else d
  | None => d
  end.

(** *** Numbers

    A number is NaN, an infinity, or a finite value written as the decimal
    [±m × 10^e].  The numbers of the platform are the binary64 values:
    what reads a number from a text ([parseFloat], [StringToNumber])
    rounds the decimal it has read with [round64], and [Number_toString]
    writes the shortest decimal that rounds to its argument. *)

Inductive number :=
| NaN
| Infinity (neg : bool)
| Fin (neg : bool) (m : N) (e : Z).

Definition isNaN (x : number) : bool :=
  match x with NaN => true | _ => false end.

(** NaN and the two zeros are falsy. *)
Definition truthy_number (x : number) : bool :=
  match x with
  | NaN => false
  | Infinity _ => true
  | Fin _ m _ => negb (m =? 0)%N
  end.

(** *** Rounding to binary64

    A finite binary64 value other than zero is [M × 2^E] with
    [0 < M < 2^53] and [-1074 <= E <= 971]. *)

Inductive binary64 :=
| BZero
| BInfinity
| BFinite (M E : Z).

Definition binary64_eqb (a b : binary64) : bool :=
  match a, b with
  | BZero, BZero | BInfinity, BInfinity => true
  | BFinite M1 E1, BFinite M2 E2 => ((M1 =? M2) && (E1 =? E2))%bool
  | _, _ => false
  end.

(** [b] to the power [n], and 1 when [n] is negative. *)
Definition power (b n : Z) : Z := b ^ Z.max n 0.

(** The integer nearest to [p / q], the even one of two at equal
    distance. *)
Definition div_nearest_even (p q : Z) : Z :=
  let d := p / q in
  let r := p mod q in
  if 2 * r <? q then d
  else if q <? 2 * r then d + 1
  else if Z.even d then d else d + 1.

(** The integer part of the binary logarithm of [p / q], for positive [p]
    and [q]: the difference of the two logarithms, or one less. *)
Definition floor_log2 (p q : Z) : Z :=
  let lg := Z.log2 p - Z.log2 q in
  if q * power 2 lg <=? p * power 2 (- lg) then lg else lg - 1.

(** The binary64 value nearest to [p / q], for positive [p] and [q]. *)
Definition binary64_of_ratio (p q : Z) : binary64 :=
  let E := Z.max (floor_log2 p q - 52) (-1074) in
  let M := div_nearest_even (p * power 2 (- E)) (q * power 2 E) in
  let '(M, E) := if M =? 2 ^ 53 then (2 ^ 52, E + 1) else (M, E) in
  if M =? 0 then BZero
  else if 971 <? E then BInfinity
  else BFinite M E.

(** The decimal without trailing zeros that has the value [m × 10^e]. *)
Fixpoint strip_tens (fuel : nat) (m : N) (e : Z) : N * Z :=
  match fuel with
  | O => (m, e)
  | S fuel' =>
      if ((m mod 10 =? 0) && negb (m =? 0))%N
      then strip_tens fuel' (m / 10)%N (e + 1)
      else (m, e)
  end.

Definition normal (m : N) (e : Z) : N * Z :=
  if (m =? 0)%N then (0%N, 0) else strip_tens (N.size_nat m) m e.

(** The binary64 value nearest to [m × 10^e].  The two tests in front
    settle the exponents that are far out of range without computing a
    power of ten: [10^309] is beyond the largest value, and a decimal
    below [10^-324] is nearer to zero than to the smallest value. *)
Definition binary64_of_decimal (m : N) (e : Z) : binary64 :=
  let '(m, e) := normal m e in
  if (m =? 0)%N then BZero
  else if 309 <=? e then BInfinity
  else if Z.log2 (Z.of_N m) + 1 <=? 3 * (- e - 324) then BZero
  else binary64_of_ratio (Z.of_N m * power 10 e) (power 10 (- e)).

(** The decimal that is exactly [M × 2^E]. *)
Definition decimal_of_binary (M E : Z) : N * Z :=
  if 0 <=? E then normal (Z.to_N (M * 2 ^ E)) 0
  else normal (Z.to_N (M * 5 ^ (- E))) E.

Definition round64 (x : number) : number :=
  match x with
  | Fin neg m e =>
      match binary64_of_decimal m e with
      | BZero => Fin neg 0 0
      | BInfinity => Infinity neg
      | BFinite M E => let '(m', e') := decimal_of_binary M E in Fin neg m' e'
      end
  | _ => x
  end.

(** *** Strings as character sequences

    A string is the sequence of the bytes of its UTF-8 encoding. *)

Definition is_digit (c : ascii) : bool :=
  match Ascii.is_nat c with Some _ => true | None => false end.

Fixpoint span_digits (s : string) : string * string :=
  match s with
  | String c r =>
      if is_digit c
      then let '(d, t) := span_digits r in (String c d, t)
      else ("", s)
  | EmptyString => ("", "")
  end.

(** White space and line terminators: TAB, LF, VT, FF, CR and SP in one
    byte; U+00A0 in two bytes; U+1680, U+2000 to U+200A, U+2028, U+2029,
    U+202F, U+205F, U+3000 and U+FEFF in three. *)
Definition two_byte_space (a b : ascii) : bool :=
  match N_of_ascii a, N_of_ascii b with
  | 194, 160 => true
  | _, _ => false
  end%N.

Definition three_byte_space (a b c : ascii) : bool :=
  match N_of_ascii a, N_of_ascii b, N_of_ascii c with
  | 225, 154, 128 => true
  | 226, 128, x =>
      (((128 <=? x) && (x <=? 138)) || (x =? 168) || (x =? 169) || (x =? 175))%N
  | 226, 129, 159 => true
  | 227, 128, 128 => true
  | 239, 187, 191 => true
  | _, _, _ => false
  end%N.

Fixpoint skip_ws (s : string) : string :=
  match s with
  | String a r1 =>
      if Ascii.is_space a then skip_ws r1
      else
        match r1 with
        | String b r2 =>
            if two_byte_space a b then skip_ws r2
            else
              match r2 with
              | String c r3 =>
                  if three_byte_space a b c then skip_ws r3 else s
              | EmptyString => s
              end
        | EmptyString => s
        end
  | EmptyString => ""
  end.

Definition digit_val (c : ascii) : N :=
  match Ascii.is_nat c with Some n => N.of_nat n | None => 0%N end.

Fixpoint digits_to_N_go (acc : N) (s : string) : N :=
  match s with
  | String c r => digits_to_N_go (10 * acc + digit_val c)%N r
  | EmptyString => acc
  end.

Definition digits_to_N (s : string) : N := digits_to_N_go 0 s.

Fixpoint strip_prefix (p s : string) : option string :=
  match p, s with
  | EmptyString, _ => Some s
  | String a p', String b s' =>
      if Ascii.eqb a b then strip_prefix p' s' else None
  | String _ _, EmptyString => None
  end.

Fixpoint str_take (n : nat) (s : string) : string :=
  match n, s with
  | S n', String c r => String c (str_take n' r)
  | _, _ => ""
  end.

Fixpoint str_drop (n : nat) (s : string) : string :=
  match n, s with
  | S n', String _ r => str_drop n' r
  | _, _ => s
  end.

Fixpoint zeros (n : nat) : string :=
  match n with
  | O => ""
  | S n' => String "0" (zeros n')
  end.

(** *** [parseFloat]

    Leading white space is skipped, then the longest prefix that is a
    decimal literal is read: an optional sign followed by [Infinity], or by
    digits with an optional fraction and an optional complete exponent.  The
    scanner returns the decimal the literal spells and the unread rest of
    the input; [parseFloat] is the number nearest to that decimal. *)

Definition scan_sign (s : string) : bool * string :=
  match s with
  | String c r =>
      if Ascii.eqb c "-" then (true, r)
      else if Ascii.eqb c "+" then (false, r)
      else (false, s)
  | EmptyString => (false, s)
  end.

Definition is_exp_mark (c : ascii) : bool :=
  (Ascii.eqb c "e" || Ascii.eqb c "E")%bool.

Definition scan_exponent (s : string) : Z * string :=
  match s with
  | String c r =>
      if is_exp_mark c then
        let '(neg, r1) := scan_sign r in
        let '(ds, r2) := span_digits r1 in
        if String.eqb ds "" then (0, s)
        else ((if neg then - Z.of_N (digits_to_N ds)
               else Z.of_N (digits_to_N ds)), r2)
      else (0, s)
  | EmptyString => (0, s)
  end.

Definition scan_mantissa (neg : bool) (ip fp rest : string)
  : option (number * string) :=
  if (String.eqb ip "" && String.eqb fp "")%bool then None
  else
    let '(ex, r) := scan_exponent rest in
    Some (Fin neg (digits_to_N (ip +:+ fp))
              (ex - Z.of_nat (String.length fp)), r).

Definition scan_unsigned (neg : bool) (s : string) : option (number * string) :=
  match strip_prefix "Infinity" s with
  | Some r => Some (Infinity neg, r)
  | None =>
      let '(ip, r1) := span_digits s in
      match r1 with
      | String c r2 =>
          if Ascii.eqb c "." then
            let '(fp, r3) := span_digits r2 in
            scan_mantissa neg ip fp r3
          else scan_mantissa neg ip "" r1
      | EmptyString => scan_mantissa neg ip "" r1
      end
  end.

Definition scanFloat (s : string) : option (number * string) :=
  let '(neg, r) := scan_sign (skip_ws s) in
  scan_unsigned neg r.

Definition parseFloat (s : string) : number :=
  match scanFloat s with
  | Some (v, _) => round64 v
  | None => NaN
  end.



(** *** A string to a number ([Number(s)], [+s])

    White space around the text is dropped.  What is left must be empty
    (the number is zero), a decimal literal, or a binary, octal or
    hexadecimal integer literal; any other text is NaN. *)

Definition radix_digit (radix : N) (c : ascii) : option N :=
  let n := N_of_ascii c in
  let v :=
    if ((48 <=? n) && (n <=? 57))%N then Some (n - 48)%N
    else if ((97 <=? n) && (n <=? 102))%N then Some (n - 87)%N
    else if ((65 <=? n) && (n <=? 70))%N then Some (n - 55)%N
    else None in
  match v with
  | Some d => if (d <? radix)%N then Some d else None
  | None => None
  end.

Fixpoint scan_radix (radix acc : N) (s : string) : N * string :=
  match s with
  | String c r =>
      match radix_digit radix c with
      | Some d => scan_radix radix (radix * acc + d)%N r
      | None => (acc, s)
      end
  | EmptyString => (acc, s)
  end.

Definition radix_of_mark (c : ascii) : option N :=
  if (Ascii.eqb c "x" || Ascii.eqb c "X")%bool then Some 16%N
  else if (Ascii.eqb c "o" || Ascii.eqb c "O")%bool then Some 8%N
  else if (Ascii.eqb c "b" || Ascii.eqb c "B")%bool then Some 2%N
  else None.

(** [0x], [0o] or [0b] followed by at least one digit of that radix. *)
Definition scan_nondecimal (s : string) : option (number * string) :=
  match s with
  | String z (String mark (String c r)) =>
      if Ascii.eqb z "0" then
        match radix_of_mark mark with
        | Some radix =>
            match radix_digit radix c with
            | Some _ =>
                let '(n, rest) := scan_radix radix 0 (String c r) in
                Some (Fin false n 0, rest)
            | None => None
            end
        | None => None
        end
      else None
  | _ => None
  end.

Definition StringToNumber (s : string) : number :=
  let t := skip_ws s in
  if String.eqb t "" then Fin false 0 0
  else
    match scan_nondecimal t with
    | Some (v, rest) =>
        if String.eqb (skip_ws rest) "" then round64 v else NaN
    | None =>
        match scanFloat t with
        | Some (v, rest) =>
            if String.eqb (skip_ws rest) "" then round64 v else NaN
        | None => NaN
        end
    end.

(** *** Number to string (radix 10)

    The digits written are those of the shortest decimal that rounds to
    the number.  [m × 10^e] is a positive decimal of [len] digits with the
    binary64 value [b]; [shorter] is, of the two decimals of [k] digits
    next to it, the one that rounds to [b] -- the nearer one when both do,
    and the even one at equal distance. *)

Definition digits_count (m : N) : Z := Z.of_nat (String.length (pretty m)).

Definition shorter (b : binary64) (len : Z) (m : N) (e : Z) (k : Z)
  : option (N * Z) :=
  let unit := (10 ^ Z.to_N (len - k))%N in
  let lo := (m / unit)%N in
  let hi := (lo + 1)%N in
  let r := (m mod unit)%N in
  let t := e + (len - k) in
  let lo_ok := binary64_eqb (binary64_of_decimal lo t) b in
  let hi_ok := binary64_eqb (binary64_of_decimal hi t) b in
  if (lo_ok && hi_ok)%bool then
    if (2 * r <? unit)%N then Some (lo, t)
    else if (unit <? 2 * r)%N then Some (hi, t)
    else if N.even lo then Some (lo, t) else Some (hi, t)
  else if lo_ok then Some (lo, t)
  else if hi_ok then Some (hi, t)
  else None.

(** The search, from [k] digits upwards, ending with the decimal itself
    when it has no more than [k] digits. *)
Fixpoint shortest_from (fuel : nat) (b : binary64) (len : Z) (m : N) (e : Z)
    (k : Z) : option (N * Z) :=
  match fuel with
  | O => None
  | S fuel' =>
      if len <=? k then
        if binary64_eqb (binary64_of_decimal m e) b then Some (m, e) else None
      else
        match shorter b len m e k with
        | Some c => Some c
        | None => shortest_from fuel' b len m e (k + 1)
        end
  end.

(** The shortest decimal that rounds to [M × 2^E], sought next to the
    decimal that is exactly [M × 2^E].  Seventeen digits tell any two
    binary64 values apart, so the search comes to an end within them. *)
Definition shortest (M E : Z) : option (N * Z) :=
  let '(m, e) := decimal_of_binary M E in
  shortest_from 17 (BFinite M E) (digits_count m) m e 1.

(** [digits] are the significant digits without trailing zeros, [n] is the
    position of the decimal point counted from the first digit. *)

Fixpoint strip_trailing_zeros (s : string) : string :=
  match s with
  | String c r =>
      let r' := strip_trailing_zeros r in
      if (Ascii.eqb c "0" && String.eqb r' "")%bool then "" else String c r'
  | EmptyString => ""
  end.

Definition exponent_suffix (n : Z) : string :=
  "e" +:+ (if 0 <=? n - 1 then "+" else "-") +:+ pretty (Z.abs_N (n - 1)).

Definition positive_toString (m : N) (e : Z) : string :=
  let all := pretty m in
  let digits := strip_trailing_zeros all in
  let k := Z.of_nat (String.length digits) in
  let n := Z.of_nat (String.length all) + e in
  if ((k <=? n) && (n <=? 21))%bool then
    digits +:+ zeros (Z.to_nat (n - k))
  else if ((0 <? n) && (n <=? 21))%bool then
    str_take (Z.to_nat n) digits +:+ "." +:+ str_drop (Z.to_nat n) digits
  else if ((-6 <? n) && (n <=? 0))%bool then
    "0." +:+ zeros (Z.to_nat (- n)) +:+ digits
  else if k =? 1 then
    digits +:+ exponent_suffix n
  else
    str_take 1 digits +:+ "." +:+ str_drop 1 digits +:+ exponent_suffix n.

(** The digits of the argument itself stand in where the search of
    [shortest] would give none. *)
Definition Number_toString (x : number) : string :=
  match x with
  | NaN => "NaN"
  | Infinity neg => if neg then "-Infinity" else "Infinity"
  | Fin neg m e =>
      match binary64_of_decimal m e with
      | BZero => "0"
      | BInfinity => if neg then "-Infinity" else "Infinity"
      | BFinite M E =>
          let '(s, t) := default (m, e) (shortest M E) in
          (if neg then "-" else "") +:+ positive_toString s t
      end
  end.

(** A template literal prints an absent number as [undefined]. *)
Definition template_number (o : option number) : string :=
  match o with
  | Some x => Number_toString x
  | None => "undefined"
  end.

(** *** Values that are a string, a number or [null]

    [truthy_scalar] is the test of [!x] and [if (x)]; [ToString] is the
    conversion applied to the argument of [parseFloat]. *)

Inductive scalar :=
| Str (s : string)
| Num (x : number)
| Null.

Definition truthy_scalar (v : scalar) : bool :=
  match v with
  | Str s => truthy_string s
  | Num x => truthy_number x
  | Null => false
  end.

Definition ToString (v : scalar) : string :=
  match v with
  | Str s => s
  | Num x => Number_toString x
  | Null => "null"
  end.

(** *** [Array.prototype.sort]

    The comparator returns a number; a NaN result counts as [+0].  For a
    comparator that is a consistent ordering the standard fixes the result:
    the stable sorted permutation.  For any other comparator the order is
    implementation-defined; the model takes stable insertion. *)

Section Sort.
Context {A : Type} (comparefn : A -> A -> option Z).

Definition SortCompare (x y : A) : Z :=
  match comparefn x y with
  | Some v => v
  | None => 0
  end.

Fixpoint sort_insert (x : A) (l : list A) : list A :=
  match l with
  | [] => [x]
  | y :: l' =>
      if SortCompare x y <=? 0 then x :: l else y :: sort_insert x l'
  end.

Fixpoint Array_sort (l : list A) : list A :=
  match l with
  | [] => []
  | x :: l' => sort_insert x (Array_sort l')
  end.
End Sort.

End JS.

(** *** JSON values, as [JSON.parse] returns them *)

Module JSON.

#[local] Unset Elimination Schemes.
Inductive value :=
| Null
| Bool (b : bool)
| Number (x : JS.number)
| Str (s : string)
| Array (items : list value)
| Object (fields : list (string * value)).
#[local] Set Elimination Schemes.

Definition truthy (v : value) : bool :=
  match v with
  | Null => false
  | Bool b => b
  | Number JS.NaN => false
  | Number (JS.Infinity _) => true
  | Number (JS.Fin _ m _) => negb (m =? 0)%N
  | Str s => JS.truthy_string s
  | Array _ | Object _ => true
  end.

End JSON.

(** ** Numeric texts

    What a numeric prefix is, stated apart from the scanner of
    [parseFloat]: the decimal literals of the language's grammar for
    numeric strings ([StrDecimalLiteral]), each with the decimal it
    spells, and the white space that may stand in front. *)

Module Numeric.




(** A sequence of white-space characters. *)
Inductive blank : string -> Prop :=
| blank_nil : blank ""
| blank_one a r :
    Ascii.is_space a = true -> blank r -> blank (String a r)
| blank_two a b r :
    JS.two_byte_space a b = true -> blank r -> blank (String a (String b r))
| blank_three a b c r :
    JS.three_byte_space a b c = true -> blank r ->
    blank (String a (String b (String c r))).






(** The mantissa and the exponent of a binary64 value other than zero. *)
Definition valid64 (M E : Z) : Prop :=
  0 < M < 2 ^ 53 ∧ -1074 <= E <= 971 ∧ (2 ^ 52 <= M ∨ E = -1074).


End Numeric.

(** ** The launch controller (top-level component) *)

Module Launch.

(** The component's variables and the browser's key/value store.  [token]
    is [None] while the variable is [undefined]. *)
Record session := {
  localStorage : gmap string string;
  token : option JSON.value;
  baseUrl : option string;
}.

Definition getItem (k : string) (st : session) : option string :=
  localStorage st !! k.

Definition setItem (k v : string) (st : session) : session :=
  {| localStorage := <[k := v]> (localStorage st);
     token := token st; baseUrl := baseUrl st |}.

Definition removeItem (k : string) (st : session) : session :=
  {| localStorage := delete k (localStorage st);
     token := token st; baseUrl := baseUrl st |}.

Definition set_token (t : option JSON.value) (st : session) : session :=
  {| localStorage := localStorage st; token := t; baseUrl := baseUrl st |}.

Definition set_baseUrl (b : option string) (st : session) : session :=
  {| localStorage := localStorage st; token := token st; baseUrl := b |}.

Definition redirectUrl : string := "http://localhost:5173".
Definition client_id : string := "b8ee6437-99b8-471b-8b98-c89ca1451150".
Definition scope : string :=
  "openid fhirUser launch user/Observation.read user/Observation.write user/Patient.read".

(** A parsed URL: everything but the query, and the query parameters. *)
Record URL := {
  location : string;
  searchParams : list (string * string);
}.

Definition remove_param (name : string) (l : list (string * string))
  : list (string * string) :=
  List.filter (fun p => negb (String.eqb (fst p) name)) l.

(** [URLSearchParams.set]: the first parameter of that name takes the
    value and the others are dropped; a new name is appended. *)
Fixpoint searchParams_set (name v : string) (l : list (string * string))
  : list (string * string) :=
  match l with
  | [] => [(name, v)]
  | (n, x) :: l' =>
      if String.eqb n name then (name, v) :: remove_param name l'
      else (n, x) :: searchParams_set name v l'
  end.

Definition set_param (name v : string) (u : URL) : URL :=
  {| location := location u;
     searchParams := searchParams_set name v (searchParams u) |}.

(** The discovery document; a field that is missing reads as [undefined]. *)
Record smartConfiguration := {
  authorization_endpoint : option string;
  token_endpoint : option string;
}.

(** What a page load sees of the address bar. *)
Record launchUrl := {
  issParam : option string;
  launchParam : option string;
  code : option string;
}.

(** How a page load ends. *)
Inductive outcome :=
| Restored
| Exchanged
| Redirected (target : URL)
| Threw (message : string).

(** [String(x)] of a possibly undefined string. *)
Definition to_text (o : option string) : string :=
  match o with Some s => s | None => "undefined" end.

Section Controller.
(** The platform: the JSON codec, the URL parser and the two servers the
    controller talks to (a failed request is [inl] of its message). *)
Variable JSON_parse : string -> option JSON.value.
Variable JSON_stringify : JSON.value -> string.
Variable URL_parse : string -> option URL.
Variable post_token : string -> list (string * string) -> string + JSON.value.
Variable get_configuration : string -> string + smartConfiguration.

Definition constructAuthUrl (authorizationEndpoint : option string)
    (launch iss : string) : option URL :=
  url ← URL_parse (to_text authorizationEndpoint);
  Some (set_param "launch" launch
       (set_param "aud" iss
       (set_param "response_type" "code"
       (set_param "scope" scope
       (set_param "redirect_uri" redirectUrl
       (set_param "client_id" client_id url)))))).

Definition clearAuthData (st : session) : session :=
  set_token None
    (removeItem "currentLaunch"
    (removeItem "tokenEndpoint"
    (removeItem "iss"
    (removeItem "token" st)))).

Definition currentLaunchKey (iss launch : string) : string :=
  iss +:+ ":" +:+ launch.

(** The first block of [onMount]: detection of a new launch. *)
Definition detectNewLaunch (u : launchUrl) (st : session) : session :=
  match issParam u, launchParam u with
  | Some iss, Some launch =>
      if (JS.truthy_string iss && JS.truthy_string launch)%bool then
        let storedLaunch := getItem "currentLaunch" st in
        let key := currentLaunchKey iss launch in
        let st1 :=
          match storedLaunch with
          | Some stored =>
              if (JS.truthy_string stored && negb (String.eqb stored key))%bool
              then clearAuthData st
              else st
          | None => st
          end in
        setItem "currentLaunch" key st1
      else st
  | _, _ => st
  end.

Definition makeTokenRequest (c : string) (st : session)
  : string + JSON.value :=
  match getItem "tokenEndpoint" st with
  | Some tokenEndpoint =>
      if JS.truthy_string tokenEndpoint then
        post_token tokenEndpoint
          [("grant_type", "authorization_code"); ("code", c);
           ("redirect_uri", redirectUrl); ("client_id", client_id)]
      else inl "Token endpoint is not in local storage."
  | None => inl "Token endpoint is not in local storage."
  end.

Definition token_truthy (st : session) : bool :=
  match token st with
  | Some v => JSON.truthy v
  | None => false
  end.

(** The fourth scenario: discovery and the redirect to the authorization
    server. *)
Definition authorize (iss launch : string) (st : session)
  : session * outcome :=
  let st := setItem "iss" iss st in
  match get_configuration (iss +:+ "/.well-known/smart-configuration") with
  | inl e => (st, Threw e)
  | inr cfg =>
      let st := setItem "tokenEndpoint" (to_text (token_endpoint cfg)) st in
      match constructAuthUrl (authorization_endpoint cfg) launch iss with
      | Some target => (st, Redirected target)
      | None => (st, Threw "Invalid URL")
      end
  end.

(** The rest of [onMount], from the read of the persisted token on. *)

(** [if (issLocalStorage) baseUrl = issLocalStorage] *)
Definition loadBaseUrl (st : session) : session :=
  if JS.truthy (getItem "iss" st) then set_baseUrl (getItem "iss" st) st
  else st.

(** [if (tokenJSON) token = JSON.parse(tokenJSON)]; [None] when the
    parse throws. *)
Definition loadToken (st : session) : option session :=
  match getItem "token" st with
  | Some tokenJSON =>
      if JS.truthy_string tokenJSON
      then v ← JSON_parse tokenJSON; Some (set_token (Some v) st)
      else Some st
  | None => Some st
  end.

(** With no usable token: exchange the code, or start the authorization. *)
Definition establish (u : launchUrl) (st : session) : session * outcome :=
  if JS.truthy (code u) then
    match makeTokenRequest (default "" (code u)) st with
    | inl e => (st, Threw e)
    | inr tokenFromCerner =>
        (setItem "token" (JSON_stringify tokenFromCerner)
           (set_token (Some tokenFromCerner) st), Exchanged)
    end
  else
    match issParam u, launchParam u with
    | Some iss, Some launch =>
        if (JS.truthy_string iss && JS.truthy_string launch)%bool
        then authorize iss launch st
        else (st, Threw "ISS or Launch parameter is missing.")
    | _, _ => (st, Threw "ISS or Launch parameter is missing.")
    end.

Definition resolveSession (u : launchUrl) (st : session)
  : session * outcome :=
  let st := loadBaseUrl st in
  match loadToken st with
  | None => (st, Threw "SyntaxError")
  | Some st =>
      if token_truthy st then (st, Restored)
      else establish u st
  end.

Definition onMount (u : launchUrl) (st : session) : session * outcome :=
  resolveSession u (detectNewLaunch u st).

End Controller.

(** A freshly loaded page over a given store. *)
Definition pageLoad (store : gmap string string) : session :=
  {| localStorage := store; token := None; baseUrl := None |}.

End Launch.

(** ** The observation feed (observation viewer component) *)

Module Feed.

(** *** FHIR resources, with the fields the component reads or writes *)

Record Quantity := {
  q_value : option JS.number;
  q_unit : option string;
  q_system : option string;
  q_code : option string;
}.

Record Coding := {
  c_system : option string;
  c_code : option string;
  c_display : option string;
}.

Record CodeableConcept := {
  coding : option (list Coding);
  text : option string;
}.

Record ObservationComponent := {
  comp_code : option CodeableConcept;
  comp_valueQuantity : option Quantity;
}.

Record Observation := {
  resourceType : string;
  id : option string;
  status : option string;
  category : option (list CodeableConcept);
  code : option CodeableConcept;
  subject : option string;
  effectiveDateTime : option string;
  valueQuantity : option Quantity;
  valueString : option string;
  component : option (list ObservationComponent);
}.

Record BundleEntry := { resource : option Observation }.

Record BundleLink := {
  relation : string;
  url : option string;
}.

Record Bundle := {
  entry : option (list BundleEntry);
  link : option (list BundleLink);
}.

(** *** Requests and replies *)

Inductive request :=
| GET (target authorization : string)
| POST (target authorization contentType : string) (body : Observation).

(** The body of the reply to the create request, when there is one. *)
Record created := { created_id : option string }.

(** What the create request can throw. *)
Inductive thrown :=
| AxiosError (status : option N) (diagnostics : option string) (message : string)
| JsError (message : string)
| OtherThrown.

(** *** Component state *)

Record state := {
  vitalObservations : option Bundle;
  loading : bool;
  error : option string;
  showCreateForm : bool;
  creating : bool;
  createError : option string;
  createSuccess : bool;
  currentPage : nat;
  displayedObservations : list BundleEntry;
  allObservations : list BundleEntry;
  isLoadingMore : bool;
  hasMoreOnServer : bool;
  nextUrl : option string;
  temperatureValue : JS.scalar;
  lastFetchTime : Z;
}.

Definition itemsPerPage : nat := 20.
Definition CACHE_DURATION : Z := 30000.

Definition initial : state := {|
  vitalObservations := None;
  loading := true;
  error := None;
  showCreateForm := false;
  creating := false;
  createError := None;
  createSuccess := false;
  currentPage := 0;
  displayedObservations := [];
  allObservations := [];
  isLoadingMore := false;
  hasMoreOnServer := true;
  nextUrl := None;
  temperatureValue := JS.Str "";
  lastFetchTime := 0;
|}.

(** Assignments to groups of variables that change together. *)

Definition set_bundle (b : option Bundle) (st : state) : state :=
  {| vitalObservations := b; loading := loading st; error := error st;
     showCreateForm := showCreateForm st; creating := creating st;
     createError := createError st; createSuccess := createSuccess st;
     currentPage := currentPage st;
     displayedObservations := displayedObservations st;
     allObservations := allObservations st;
     isLoadingMore := isLoadingMore st;
     hasMoreOnServer := hasMoreOnServer st; nextUrl := nextUrl st;
     temperatureValue := temperatureValue st;
     lastFetchTime := lastFetchTime st |}.

Definition set_loaded (err : option string) (st : state) : state :=
  {| vitalObservations := vitalObservations st; loading := false; error := err;
     showCreateForm := showCreateForm st; creating := creating st;
     createError := createError st; createSuccess := createSuccess st;
     currentPage := currentPage st;
     displayedObservations := displayedObservations st;
     allObservations := allObservations st;
     isLoadingMore := isLoadingMore st;
     hasMoreOnServer := hasMoreOnServer st; nextUrl := nextUrl st;
     temperatureValue := temperatureValue st;
     lastFetchTime := lastFetchTime st |}.

Definition set_form (shown busy : bool) (err : option string) (ok : bool)
    (input : JS.scalar) (st : state) : state :=
  {| vitalObservations := vitalObservations st; loading := loading st;
     error := error st;
     showCreateForm := shown; creating := busy;
     createError := err; createSuccess := ok;
     currentPage := currentPage st;
     displayedObservations := displayedObservations st;
     allObservations := allObservations st;
     isLoadingMore := isLoadingMore st;
     hasMoreOnServer := hasMoreOnServer st; nextUrl := nextUrl st;
     temperatureValue := input;
     lastFetchTime := lastFetchTime st |}.

Definition set_currentPage (n : nat) (st : state) : state :=
  {| vitalObservations := vitalObservations st; loading := loading st;
     error := error st;
     showCreateForm := showCreateForm st; creating := creating st;
     createError := createError st; createSuccess := createSuccess st;
     currentPage := n;
     displayedObservations := displayedObservations st;
     allObservations := allObservations st;
     isLoadingMore := isLoadingMore st;
     hasMoreOnServer := hasMoreOnServer st; nextUrl := nextUrl st;
     temperatureValue := temperatureValue st;
     lastFetchTime := lastFetchTime st |}.

Definition set_displayed (l : list BundleEntry) (st : state) : state :=
  {| vitalObservations := vitalObservations st; loading := loading st;
     error := error st;
     showCreateForm := showCreateForm st; creating := creating st;
     createError := createError st; createSuccess := createSuccess st;
     currentPage := currentPage st;
     displayedObservations := l;
     allObservations := allObservations st;
     isLoadingMore := isLoadingMore st;
     hasMoreOnServer := hasMoreOnServer st; nextUrl := nextUrl st;
     temperatureValue := temperatureValue st;
     lastFetchTime := lastFetchTime st |}.

Definition set_all (l : list BundleEntry) (st : state) : state :=
  {| vitalObservations := vitalObservations st; loading := loading st;
     error := error st;
     showCreateForm := showCreateForm st; creating := creating st;
     createError := createError st; createSuccess := createSuccess st;
     currentPage := currentPage st;
     displayedObservations := displayedObservations st;
     allObservations := l;
     isLoadingMore := isLoadingMore st;
     hasMoreOnServer := hasMoreOnServer st; nextUrl := nextUrl st;
     temperatureValue := temperatureValue st;
     lastFetchTime := lastFetchTime st |}.

Definition set_isLoadingMore (b : bool) (st : state) : state :=
  {| vitalObservations := vitalObservations st; loading := loading st;
     error := error st;
     showCreateForm := showCreateForm st; creating := creating st;
     createError := createError st; createSuccess := createSuccess st;
     currentPage := currentPage st;
     displayedObservations := displayedObservations st;
     allObservations := allObservations st;
     isLoadingMore := b;
     hasMoreOnServer := hasMoreOnServer st; nextUrl := nextUrl st;
     temperatureValue := temperatureValue st;
     lastFetchTime := lastFetchTime st |}.

Definition set_cursor (next : option string) (st : state) : state :=
  {| vitalObservations := vitalObservations st; loading := loading st;
     error := error st;
     showCreateForm := showCreateForm st; creating := creating st;
     createError := createError st; createSuccess := createSuccess st;
     currentPage := currentPage st;
     displayedObservations := displayedObservations st;
     allObservations := allObservations st;
     isLoadingMore := isLoadingMore st;
     hasMoreOnServer := bool_decide (is_Some next); nextUrl := next;
     temperatureValue := temperatureValue st;
     lastFetchTime := lastFetchTime st |}.

Definition set_lastFetchTime (t : Z) (st : state) : state :=
  {| vitalObservations := vitalObservations st; loading := loading st;
     error := error st;
     showCreateForm := showCreateForm st; creating := creating st;
     createError := createError st; createSuccess := createSuccess st;
     currentPage := currentPage st;
     displayedObservations := displayedObservations st;
     allObservations := allObservations st;
     isLoadingMore := isLoadingMore st;
     hasMoreOnServer := hasMoreOnServer st; nextUrl := nextUrl st;
     temperatureValue := temperatureValue st;
     lastFetchTime := t |}.

(** *** Pure helpers of the component *)

Definition getVitalsEntries (bundle : Bundle) : list BundleEntry :=
  default [] (entry bundle).

(** [bundle.link?.find(link => link.relation === 'next')?.url || null] *)
Definition next_link (bundle : Bundle) : option string :=
  match entry_links ← link bundle;
        List.find (fun l => String.eqb (relation l) "next") entry_links with
  | Some l => if JS.truthy (url l) then url l else None
  | None => None
  end.

(** [c.code?.coding?.some(coding => coding.code === wanted)] *)
Definition coded (wanted : string) (c : ObservationComponent) : bool :=
  match comp_code c ≫= coding with
  | Some cs =>
      existsb (fun cd => bool_decide (c_code cd = Some wanted)) cs
  | None => false
  end.

Definition bloodPressure (o : Observation) : option string :=
  match component o with
  | Some ((_ :: _) as components) =>
      let systolic := List.find (coded "8480-6") components in
      let diastolic := List.find (coded "8462-4") components in
      match systolic ≫= comp_valueQuantity,
            diastolic ≫= comp_valueQuantity with
      | Some s, Some d =>
          Some (JS.template_number (q_value s) +:+ "/" +:+
                JS.template_number (q_value d) +:+ " " +:+
                JS.or_else (q_unit s) "mmHg")
      | _, _ => None
      end
  | _ => None
  end.

Definition bpDisplay (observation : Observation) : string :=
  match bloodPressure observation with
  | Some s => s
  | None =>
      match valueQuantity observation with
      | Some q =>
          JS.template_number (q_value q) +:+ " " +:+ JS.or_else (q_unit q) ""
      | None =>
          match valueString observation with
          | Some s => if JS.truthy_string s then s else "Not available"
          | None => "Not available"
          end
      end
  end.

(** What a card shows for an entry: name and value. *)
Definition cardName (e : BundleEntry) : string :=
  default "Unknown vital sign" ((resource e ≫= code) ≫= text).

Definition cardValue (e : BundleEntry) : string :=
  match resource e with
  | Some o => bpDisplay o
  | None => "Not available"
  end.

Definition hasMore (st : state) : bool :=
  let currentlyDisplayed := ((currentPage st + 1) * itemsPerPage)%nat in
  (bool_decide (currentlyDisplayed < length (allObservations st))%nat
   || hasMoreOnServer st)%bool.

Definition toggleCreateForm (st : state) : state :=
  set_form (negb (showCreateForm st)) (creating st) None false
    (temperatureValue st) st.

(** *** The temperature field

    The field is an [input] of type [number] bound to [temperatureValue].
    The [value] of such an input is empty or a valid floating-point number
    of the HTML standard: an optional [-], then digits with an optional
    fraction or a fraction alone, then an optional exponent. *)

Definition valid_exponent (s : string) : bool :=
  match s with
  | String c r =>
      (JS.is_exp_mark c &&
       let '(_, r1) := JS.scan_sign r in
       let '(ds, rest) := JS.span_digits r1 in
       negb (String.eqb ds "") && String.eqb rest "")%bool
  | EmptyString => true
  end.

Definition valid_floating_point_number (s : string) : bool :=
  let unsigned :=
    match s with
    | String c r => if Ascii.eqb c "-" then r else s
    | EmptyString => s
    end in
  let '(ip, r1) := JS.span_digits unsigned in
  match r1 with
  | String c r2 =>
      if Ascii.eqb c "." then
        let '(fp, r3) := JS.span_digits r2 in
        (negb (String.eqb fp "") && valid_exponent r3)%bool
      else (negb (String.eqb ip "") && valid_exponent r1)%bool
  | EmptyString => negb (String.eqb ip "")
  end.

Definition fieldValue (value : string) : bool :=
  (String.eqb value "" || valid_floating_point_number value)%bool.

(** What the binding of a number input stores for the [value] of the
    field: [value === '' ? null : +value]. *)
Definition to_number (value : string) : JS.scalar :=
  if String.eqb value "" then JS.Null else JS.Num (JS.StringToNumber value).

(** The handler of the field's input event. *)
Definition typeTemperature (value : string) (st : state) : state :=
  set_form (showCreateForm st) (creating st) (createError st)
    (createSuccess st) (to_number value) st.


Section Component.
(** The component's props, and the platform's date parser:
    [Date_parse s] is [new Date(s).getTime()], with [None] for NaN. *)
Variables accessToken patientId baseUrl : string.
Variable Date_parse : string -> option Z.

Definition bearer : string := "Bearer " +:+ accessToken.

(** [new Date(obs?.effectiveDateTime || "").getTime()] *)
Definition effectiveTime (e : BundleEntry) : option Z :=
  Date_parse (JS.or_else (resource e ≫= effectiveDateTime) "").

(** The comparator handed to every sort: [dateB - dateA]. *)
Definition byDate (a b : BundleEntry) : option Z :=
  match effectiveTime a, effectiveTime b with
  | Some dateA, Some dateB => Some (dateB - dateA)
  | _, _ => None
  end.

(** The sort is in place: when the collection is initialised from the
    bundle, the bundle's entry array and [allObservations] are one array. *)
Definition updateDisplayedObservations (st : state) : state :=
  let st :=
    match allObservations st, vitalObservations st with
    | [], Some bundle =>
        let sorted := JS.Array_sort byDate (getVitalsEntries bundle) in
        set_all sorted
          (set_bundle
             (Some {| entry := match entry bundle with
                               | Some _ => Some sorted
                               | None => None
                               end;
                      link := link bundle |}) st)
    | _, _ => st
    end in
  let endIndex := ((currentPage st + 1) * itemsPerPage)%nat in
  set_displayed (take endIndex (allObservations st)) st.

(** The reactive statement [$: if (vitalObservations) ...], run when the
    tick that touched [vitalObservations] ends. *)
Definition reactive (st : state) : state :=
  match vitalObservations st with
  | Some _ => updateDisplayedObservations st
  | None => st
  end.

(** **** [getVitals] *)

Definition vitalsUrl : string :=
  baseUrl +:+ "/Observation?patient=" +:+ patientId +:+
  "&category=vital-signs&_sort=-date&_count=30".

Definition getVitals_request : request := GET vitalsUrl bearer.

(** Up to the [await]: the cached bundle, or nothing when a request is
    to be sent. *)
Definition getVitals_cached (forceRefresh : bool) (now : Z) (st : state)
  : option Bundle :=
  if forceRefresh then None
  else
    match vitalObservations st with
    | Some b => if now - lastFetchTime st <? CACHE_DURATION then Some b else None
    | None => None
    end.

(** After the [await]: [inl] is the message of the error it throws. *)
Definition getVitals_resume (now : Z) (reply : string + Bundle) (st : state)
  : state * (string + Bundle) :=
  match reply with
  | inr bundle =>
      (set_cursor (next_link bundle) (set_lastFetchTime now st), inr bundle)
  | inl err => (st, inl ("Failed to fetch vital signs: " +:+ err))
  end.

(** **** [fetchMoreFromServer] *)

Definition fetchMoreFromServer_begin (st : state) : state * option request :=
  match nextUrl st with
  | Some next =>
      if (negb (JS.truthy_string next) || isLoadingMore st)%bool
      then (st, None)
      else (set_isLoadingMore true st, Some (GET next bearer))
  | None => (st, None)
  end.

Definition fetchMoreFromServer_resume (reply : string + Bundle) (st : state)
  : state * option Bundle :=
  match reply with
  | inr bundle =>
      (set_isLoadingMore false (set_cursor (next_link bundle) st), Some bundle)
  | inl _ => (set_isLoadingMore false st, None)
  end.

(** **** [loadMore] *)

Definition mergeMore (moreData : option Bundle) (st : state) : state :=
  match moreData with
  | Some bundle =>
      let newEntries := getVitalsEntries bundle in
      let sortedNewEntries := JS.Array_sort byDate newEntries in
      set_all
        (JS.Array_sort byDate (allObservations st ++ sortedNewEntries)) st
  | None => st
  end.

(** From the end of the [if] block on. *)
Definition loadMore_finish (moreData : option Bundle) (st : state) : state :=
  let st := mergeMore moreData st in
  updateDisplayedObservations (set_currentPage (S (currentPage st)) st).

(** Up to the [await] inside [fetchMoreFromServer], or to the end when no
    request is sent. *)
Definition loadMore_begin (st : state) : state * option request :=
  let currentlyNeeded := ((currentPage st + 2) * itemsPerPage)%nat in
  if (bool_decide (length (allObservations st) < currentlyNeeded)%nat
      && hasMoreOnServer st && negb (isLoadingMore st))%bool
  then
    match fetchMoreFromServer_begin st with
    | (st', Some req) => (st', Some req)
    | (st', None) => (loadMore_finish None st', None)
    end
  else (loadMore_finish None st, None).

Definition loadMore_resume (reply : string + Bundle) (st : state) : state :=
  let '(st', moreData) := fetchMoreFromServer_resume reply st in
  loadMore_finish moreData st'.

(** **** [createTemperatureObservation] *)

Definition temperatureObservation (input : JS.scalar) (nowISO : string)
  : Observation :=
  {| resourceType := "Observation";
     id := None;
     status := Some "final";
     category :=
       Some [ {| coding :=
                   Some [ {| c_system := Some "http://terminology.hl7.org/CodeSystem/observation-category";
                             c_code := Some "vital-signs";
                             c_display := Some "Vital Signs" |} ];
                 text := Some "Vital Signs" |} ];
     code :=
       Some {| coding := Some [ {| c_system := Some "http://loinc.org";
                                   c_code := Some "8331-1";
                                   c_display := None |} ];
               text := Some "Temperature Oral" |};
     subject := Some ("Patient/" +:+ patientId);
     effectiveDateTime := Some nowISO;
     valueQuantity :=
       Some {| q_value := Some (JS.parseFloat (JS.ToString input));
               q_unit := Some "degC";
               q_system := Some "http://unitsofmeasure.org";
               q_code := Some "Cel" |};
     valueString := None;
     component := None |}.

Definition with_id (i : string) (o : Observation) : Observation :=
  {| resourceType := resourceType o; id := Some i; status := status o;
     category := category o; code := code o; subject := subject o;
     effectiveDateTime := effectiveDateTime o;
     valueQuantity := valueQuantity o; valueString := valueString o;
     component := component o |}.

(** [!(!temperatureValue || isNaN(parseFloat(temperatureValue)))] *)
Definition validTemperature (input : JS.scalar) : bool :=
  (JS.truthy_scalar input
   && negb (JS.isNaN (JS.parseFloat (JS.ToString input))))%bool.

(** Up to the [await] of the POST; [nowISO] is [new Date().toISOString()]. *)
Definition createTemperatureObservation_begin (nowISO : string) (st : state)
  : state * option request :=
  if validTemperature (temperatureValue st) then
    (set_form (showCreateForm st) true None false (temperatureValue st) st,
     Some (POST (baseUrl +:+ "/Observation") bearer "application/fhir+json"
             (temperatureObservation (temperatureValue st) nowISO)))
  else
    (set_form (showCreateForm st) (creating st)
       (Some "Please enter a valid temperature value")
       (createSuccess st) (temperatureValue st) st,
     None).

Definition createErrorText (err : thrown) : string :=
  match err with
  | AxiosError status diagnostics message =>
      "HTTP " +:+ match status with
                  | Some n => pretty n
                  | None => "undefined"
                  end +:+ ": " +:+ JS.or_else diagnostics message
  | JsError message => message
  | OtherThrown => "Failed to create temperature observation"
  end.

(** The entry shown at once; [now] is [Date.now()]. *)
Definition newEntry (posted : Observation) (data : option created) (now : Z)
  : BundleEntry :=
  {| resource :=
       Some (with_id (JS.or_else (data ≫= created_id) ("temp-" +:+ pretty now))
                     posted) |}.

(** After the [await] of the POST.  The flag tells whether the
    reconciliation timer was armed. *)
Definition createTemperatureObservation_resume (posted : Observation)
    (now : Z) (reply : thrown + option created) (st : state) : state * bool :=
  match reply with
  | inr data =>
      let e := newEntry posted data now in
      let st := set_all (e :: allObservations st) st in
      let st :=
        match vitalObservations st with
        | Some b =>
            set_bundle (Some {| entry := Some (e :: getVitalsEntries b);
                                link := link b |}) st
        | None => st
        end in
      let st := updateDisplayedObservations st in
      let st := set_form false false (createError st) true (JS.Str "") st in
      (reactive st, true)
  | inl err =>
      (set_form (showCreateForm st) false (Some (createErrorText err))
         (createSuccess st) (temperatureValue st) st,
       false)
  end.

(** **** The reconciliation armed by a create *)

Definition RECONCILE_DELAY : Z := 1000.

(** The timer callback calls [getVitals(true)]. *)
Definition reconcile_begin (now : Z) (st : state) : option request :=
  match getVitals_cached true now st with
  | Some _ => None
  | None => Some getVitals_request
  end.

(** The [then] callback; a failed fetch rejects and nothing runs. *)
Definition reconcile_resume (now : Z) (reply : string + Bundle) (st : state)
  : state :=
  match getVitals_resume now reply st with
  | (st, inr bundle) =>
      reactive
        (updateDisplayedObservations
           (set_currentPage 0 (set_all [] (set_bundle (Some bundle) st))))
  | (st, inl _) => st
  end.

(** **** The mount handler *)

Definition onMount_settle (r : string + Bundle) (st : state) : state :=
  match r with
  | inr bundle => reactive (set_loaded (error st) (set_bundle (Some bundle) st))
  | inl message => set_loaded (Some message) st
  end.

Definition onMount_begin (now : Z) (st : state) : state * option request :=
  match getVitals_cached false now st with
  | Some b => (onMount_settle (inr b) st, None)
  | None => (st, Some getVitals_request)
  end.

Definition onMount_resume (now : Z) (reply : string + Bundle) (st : state)
  : state :=
  let '(st, r) := getVitals_resume now reply st in
  onMount_settle r st.

(** *** The event loop

    A world is the component state together with the requests that are
    in flight, the timers that are armed and the requests sent so far.
    Each step runs one synchronous segment to its end.  A handler may run
    in any state: the markup narrows this (the submit button is disabled
    while [submitDisabled] holds), so the worlds the page goes through are
    among the reachable ones. *)

Inductive pending :=
| PendingMount (now : Z)
| PendingMore
| PendingCreate (posted : Observation)
| PendingRefresh (now : Z).

Record world := {
  view : state;
  inflight : list pending;
  timers : list Z;
  sent : list request;
}.

Definition send (p : pending) (r : state * option request) (w : world)
  : world :=
  match r with
  | (st, Some req) =>
      {| view := st; inflight := inflight w ++ [p];
         timers := timers w; sent := sent w ++ [req] |}
  | (st, None) =>
      {| view := st; inflight := inflight w;
         timers := timers w; sent := sent w |}
  end.

Definition settle (st : state) (rest : list pending) (armed : bool)
    (w : world) : world :=
  {| view := st; inflight := rest;
     timers := if armed then timers w ++ [RECONCILE_DELAY] else timers w;
     sent := sent w |}.

(** The component right after it is mounted at time [now]. *)
Definition boot (now : Z) : world :=
  send (PendingMount now) (onMount_begin now initial)
    {| view := initial; inflight := []; timers := []; sent := [] |}.

Inductive step : world -> world -> Prop :=
| step_mount_reply w now reply l1 l2 :
    inflight w = l1 ++ PendingMount now :: l2 ->
    step w (settle (onMount_resume now reply (view w)) (l1 ++ l2) false w)
| step_loadMore w :
    step w (send PendingMore (loadMore_begin (view w)) w)
| step_more_reply w reply l1 l2 :
    inflight w = l1 ++ PendingMore :: l2 ->
    step w (settle (loadMore_resume reply (view w)) (l1 ++ l2) false w)
| step_type w value :
    fieldValue value = true ->
    step w (settle (typeTemperature value (view w)) (inflight w) false w)
| step_toggle w :
    step w (settle (toggleCreateForm (view w)) (inflight w) false w)
| step_create w nowISO :
    step w
      (send (PendingCreate
               (temperatureObservation (temperatureValue (view w)) nowISO))
         (createTemperatureObservation_begin nowISO (view w)) w)
| step_create_reply w posted now reply l1 l2 :
    inflight w = l1 ++ PendingCreate posted :: l2 ->
    step w
      (let '(st, armed) :=
         createTemperatureObservation_resume posted now reply (view w) in
       settle st (l1 ++ l2) armed w)
| step_timer w now t1 d t2 :
    timers w = t1 ++ d :: t2 ->
    step w
      (send (PendingRefresh now) (view w, reconcile_begin now (view w))
         {| view := view w; inflight := inflight w;
            timers := t1 ++ t2; sent := sent w |})
| step_refresh_reply w now reply l1 l2 :
    inflight w = l1 ++ PendingRefresh now :: l2 ->
    step w (settle (reconcile_resume now reply (view w)) (l1 ++ l2) false w).

Definition reachable (w : world) : Prop :=
  exists now, rtc step (boot now) w.

(** The size of the window the component exposes. *)
Definition windowSize (st : state) : nat :=
  ((currentPage st + 1) * itemsPerPage)%nat.

(** [n] calls of [loadMore] in a row (each up to its [await], when it
    has one). *)
Fixpoint loadMore_times (n : nat) (st : state) : state :=
  match n with
  | O => st
  | S n' => loadMore_times n' (fst (loadMore_begin st))
  end.

End Component.

End Feed.

(** ** Concrete platform instances for the examples *)

Module Sample.

(** A date parser for the format [toISOString] writes,
    [YYYY-MM-DDTHH:mm:ss.sssZ]; any other text is an invalid date. *)

Definition field (start len : nat) (s : string) : option N :=
  let t := JS.str_take len (JS.str_drop start s) in
  if (bool_decide (String.length t = len)
      && bool_decide (snd (JS.span_digits t) = ""))%bool
  then Some (JS.digits_to_N t) else None.

Definition mark (at_ : nat) (c : string) (s : string) : option unit :=
  if String.eqb (JS.str_take 1 (JS.str_drop at_ s)) c then Some () else None.

Definition leap (y : Z) : bool :=
  ((y mod 4 =? 0) && (negb (y mod 100 =? 0) || (y mod 400 =? 0)))%bool.

Definition days_in_month (y m : Z) : Z :=
  if m =? 2 then (if leap y then 29 else 28)
  else if ((m =? 4) || (m =? 6) || (m =? 9) || (m =? 11))%bool then 30
  else 31.

Definition days_from_civil (y m d : Z) : Z :=
  let y' := if m <=? 2 then y - 1 else y in
  let era := y' / 400 in
  let yoe := y' - era * 400 in
  let doy := (153 * (if 2 <? m then m - 3 else m + 9) + 2) / 5 + d - 1 in
  let doe := yoe * 365 + yoe / 4 - yoe / 100 + doy in
  era * 146097 + doe - 719468.

Definition iso_parse (s : string) : option Z :=
  y ← Z.of_N <$> field 0 4 s; _ ← mark 4 "-" s;
  m ← Z.of_N <$> field 5 2 s; _ ← mark 7 "-" s;
  d ← Z.of_N <$> field 8 2 s; _ ← mark 10 "T" s;
  h ← Z.of_N <$> field 11 2 s; _ ← mark 13 ":" s;
  mi ← Z.of_N <$> field 14 2 s; _ ← mark 16 ":" s;
  sec ← Z.of_N <$> field 17 2 s; _ ← mark 19 "." s;
  ms ← Z.of_N <$> field 20 3 s; _ ← mark 23 "Z" s;
  if (bool_decide (String.length s = 24%nat)
      && (1 <=? m) && (m <=? 12) && (1 <=? d) && (d <=? days_in_month y m)
      && (h <=? 23) && (mi <=? 59) && (sec <=? 59))%bool
  then Some ((((days_from_civil y m d * 24 + h) * 60 + mi) * 60 + sec) * 1000 + ms)
  else None.

(** A JSON codec for the examples.  [stringify] writes strings without
    escapes; [parse] decodes [null] and the token payload written by
    [stringify], and rejects every other text. *)

Definition quote : string := String "034"%char "".

Definition stringify_fields (go : JSON.value -> string)
  : list (string * JSON.value) -> string :=
  fix fields l :=
    match l with
    | [] => ""
    | [(k, v)] => quote +:+ k +:+ quote +:+ ":" +:+ go v
    | (k, v) :: l' => quote +:+ k +:+ quote +:+ ":" +:+ go v +:+ "," +:+ fields l'
    end.

Definition stringify_items (go : JSON.value -> string)
  : list JSON.value -> string :=
  fix items l :=
    match l with
    | [] => ""
    | [v] => go v
    | v :: l' => go v +:+ "," +:+ items l'
    end.

Fixpoint stringify (v : JSON.value) : string :=
  match v with
  | JSON.Null => "null"
  | JSON.Bool b => if b then "true" else "false"
  | JSON.Number x =>
      match x with
      | JS.Fin _ _ _ => JS.Number_toString x
      | _ => "null"
      end
  | JSON.Str s => quote +:+ s +:+ quote
  | JSON.Array l => "[" +:+ stringify_items stringify l +:+ "]"
  | JSON.Object l => "{" +:+ stringify_fields stringify l +:+ "}"
  end.

Definition tokenPayload : JSON.value :=
  JSON.Object [("access_token", JSON.Str "tok-1");
               ("patient", JSON.Str "pat-1");
               ("need_patient_banner", JSON.Bool true)].

Definition parse (s : string) : option JSON.value :=
  if String.eqb s "null" then Some JSON.Null
  else if String.eqb s (stringify tokenPayload) then Some tokenPayload
  else None.

(** A URL parser for addresses without a query, and the two servers. *)
Definition url_parse (s : string) : option Launch.URL :=
  if JS.truthy_string s
  then Some {| Launch.location := s; Launch.searchParams := [] |}
  else None.

Definition token_server (endpoint : string) (form : list (string * string))
  : string + JSON.value := inr tokenPayload.

Definition issuer : string := "https://fhir.example/r4".

Definition discovery (address : string) : string + Launch.smartConfiguration :=
  inr {| Launch.authorization_endpoint := Some "https://auth.example/authorize";
         Launch.token_endpoint := Some "https://auth.example/token" |}.

Definition launchA : Launch.launchUrl :=
  {| Launch.issParam := Some issuer; Launch.launchParam := Some "launch-A";
     Launch.code := None |}.

Definition launchB : Launch.launchUrl :=
  {| Launch.issParam := Some issuer; Launch.launchParam := Some "launch-B";
     Launch.code := None |}.

(** The page the authorization server redirects back to. *)
Definition callback : Launch.launchUrl :=
  {| Launch.issParam := None; Launch.launchParam := None;
     Launch.code := Some "auth-code-1" |}.

(** The store left by a finished launch A. *)
Definition storeA : gmap string string :=
  <["token" := stringify tokenPayload]>
  (<["tokenEndpoint" := "https://auth.example/token"]>
  (<["iss" := issuer]>
  (<["currentLaunch" := Launch.currentLaunchKey issuer "launch-A"]> ∅))).

(** Observations for the examples. *)

Definition quantity (x : JS.number) (u : string) : Feed.Quantity :=
  {| Feed.q_value := Some x; Feed.q_unit := Some u;
     Feed.q_system := None; Feed.q_code := None |}.

Definition vital (name : string) (when : option string)
    (q : option Feed.Quantity) : Feed.Observation :=
  {| Feed.resourceType := "Observation"; Feed.id := None;
     Feed.status := Some "final"; Feed.category := None;
     Feed.code := Some {| Feed.coding := None; Feed.text := Some name |};
     Feed.subject := None; Feed.effectiveDateTime := when;
     Feed.valueQuantity := q; Feed.valueString := None;
     Feed.component := None |}.

Definition pressureComponent (loinc : string) (x : JS.number)
  : Feed.ObservationComponent :=
  {| Feed.comp_code :=
       Some {| Feed.coding := Some [ {| Feed.c_system := Some "http://loinc.org";
                                        Feed.c_code := Some loinc;
                                        Feed.c_display := None |} ];
               Feed.text := None |};
     Feed.comp_valueQuantity := Some (quantity x "mmHg") |}.

Definition bloodPressureObs : Feed.Observation :=
  {| Feed.resourceType := "Observation"; Feed.id := None;
     Feed.status := Some "final"; Feed.category := None;
     Feed.code := Some {| Feed.coding := None;
                          Feed.text := Some "Blood pressure" |};
     Feed.subject := None;
     Feed.effectiveDateTime := Some "2024-01-01T00:00:00.000Z";
     Feed.valueQuantity := None; Feed.valueString := None;
     Feed.component :=
       Some [pressureComponent "8480-6" (JS.Fin false 120 0);
             pressureComponent "8462-4" (JS.Fin false 80 0)] |}.

Definition temperatureObs : Feed.Observation :=
  vital "Temperature" (Some "2024-01-02T00:00:00.000Z")
    (Some (quantity (JS.Fin false 366 (-1)) "degC")).

Definition emptyObs : Feed.Observation := vital "Unknown" None None.

Definition entryOf (o : Feed.Observation) : Feed.BundleEntry :=
  {| Feed.resource := Some o |}.

Definition undatedEntry : Feed.BundleEntry := entryOf emptyObs.
Definition newYearEntry : Feed.BundleEntry := entryOf bloodPressureObs.
Definition secondDayEntry : Feed.BundleEntry := entryOf temperatureObs.

Definition bundleOf (l : list Feed.BundleEntry) (next : option string)
  : Feed.Bundle :=
  {| Feed.entry := Some l;
     Feed.link :=
       match next with
       | Some u => Some [ {| Feed.relation := "next"; Feed.url := Some u |} ]
       | None => None
       end |}.

(** A mounted component whose first page came back without a next link. *)

Definition accessToken : string := "access-1".
Definition patientId : string := "pat-1".

Definition firstPage : Feed.Bundle :=
  bundleOf [newYearEntry; secondDayEntry] None.

Definition booted : Feed.world :=
  Feed.boot accessToken patientId issuer iso_parse 0.

Definition loaded : Feed.world :=
  Feed.settle
    (Feed.onMount_resume iso_parse 0 (inr firstPage) (Feed.view booted))
    ([] ++ []) false booted.

End Sample.

(** ** Predicates used to state the properties *)

Module FeedProps.
Import Feed.

(** The first component tagged with the systolic code and the first one
    tagged with the diastolic code both carry a quantity. *)
Definition carriesPressures (o : Observation) (s d : Quantity) : Prop :=
  ∃ comps cs cd,
    component o = Some comps ∧ comps ≠ [] ∧
    List.find (coded "8480-6") comps = Some cs ∧
    List.find (coded "8462-4") comps = Some cd ∧
    comp_valueQuantity cs = Some s ∧ comp_valueQuantity cd = Some d.

(** The window shows the head of the collection. *)
Definition windowed (st : state) : Prop :=
  displayedObservations st = take (windowSize st) (allObservations st).

(** An empty collection means that the bundle has no entries either. *)
Definition initialised (st : state) : Prop :=
  allObservations st = [] ->
  ∀ b, vitalObservations st = Some b -> getVitalsEntries b = [].

(** The two facts every segment of the component keeps. *)
Definition consistent (st : state) : Prop := windowed st ∧ initialised st.

Section Dates.
Variable Date_parse : string -> option Z.

Definition dated (e : BundleEntry) : Prop :=
  is_Some (effectiveTime Date_parse e).

(** [a] may stand before [b] in a list that is descending by time. *)
Definition notOlder (a b : BundleEntry) : Prop :=
  ∃ ta tb, effectiveTime Date_parse a = Some ta ∧
           effectiveTime Date_parse b = Some tb ∧ tb <= ta.

(** The same, with an entry without a time counted as the earliest. *)
Definition notOlder_undatedLast (a b : BundleEntry) : Prop :=
  match effectiveTime Date_parse a, effectiveTime Date_parse b with
  | _, None => True
  | None, Some _ => False
  | Some ta, Some tb => tb <= ta
  end.

(** Every entry of the collection and of the bundle has a time. *)
Definition allDated (st : state) : Prop :=
  Forall dated (allObservations st) ∧
  ∀ b, vitalObservations st = Some b -> Forall dated (getVitalsEntries b).
End Dates.

End FeedProps.

(** ** The patient banner component *)

Module Banner.

(** The fields of a FHIR Patient the banner shows. *)
Record HumanName := {
  given : option (list string);
  family : option string;
}.

Record Patient := {
  name : option (list HumanName);
  gender : option string;
  birthDate : option string;
}.

(** The cache is an object used as a map from key to data and time stamp.
    Every key holds a hyphen, so no key meets a property the object
    inherits. *)
Record state := {
  patientResource : option Patient;
  loading : bool;
  patientCache : gmap string (Patient * Z);
}.

Definition CACHE_DURATION : Z := 300000.

Definition initial : state :=
  {| patientResource := None; loading := true; patientCache := ∅ |}.

Section Component.
Variables accessToken baseUrl patient : string.

Definition cacheKey : string := baseUrl +:+ "-" +:+ patient.

Definition getPatientData_request : Feed.request :=
  Feed.GET (baseUrl +:+ "/Patient/" +:+ patient) ("Bearer " +:+ accessToken).

(** [getPatientData] up to its [await]: the cached data, or nothing when
    the request is to be sent; [now] is [Date.now()]. *)
Definition getPatientData_cached (now : Z) (st : state) : option Patient :=
  match patientCache st !! cacheKey with
  | Some (data, timestamp) =>
      if now - timestamp <? CACHE_DURATION then Some data else None
  | None => None
  end.

(** [getPatientData] after the [await] of a successful request. *)
Definition getPatientData_resume (now : Z) (data : Patient) (st : state)
  : state :=
  {| patientResource := patientResource st; loading := loading st;
     patientCache := <[cacheKey := (data, now)]> (patientCache st) |}.

Definition shown (data : option Patient) (st : state) : state :=
  {| patientResource := data; loading := false;
     patientCache := patientCache st |}.

(** The mount handler, up to the [await] and after it. *)
Definition onMount_begin (now : Z) (st : state) : state * option Feed.request :=
  match getPatientData_cached now st with
  | Some data => (shown (Some data) st, None)
  | None => (st, Some getPatientData_request)
  end.

Definition onMount_resume (now : Z) (reply : string + Patient) (st : state)
  : state :=
  match reply with
  | inr data => shown (Some data) (getPatientData_resume now data st)
  | inl _ => shown (patientResource st) st
  end.

End Component.

End Banner.

(** ** The observation viewer without pagination

    The viewer under [src/lib]: the list is fetched in one page, and a
    create is followed by a fetch of the whole list. *)

Module Legacy.
Import Feed.

Record state := {
  vitalObservations : option Bundle;
  loading : bool;
  error : option string;
  showCreateForm : bool;
  creating : bool;
  createError : option string;
  createSuccess : bool;
  temperatureValue : JS.scalar;
}.

Definition initial : state := {|
  vitalObservations := None;
  loading := true;
  error := None;
  showCreateForm := false;
  creating := false;
  createError := None;
  createSuccess := false;
  temperatureValue := JS.Str "";
|}.

Definition set_form (shown busy : bool) (err : option string) (ok : bool)
    (input : JS.scalar) (st : state) : state :=
  {| vitalObservations := vitalObservations st; loading := loading st;
     error := error st;
     showCreateForm := shown; creating := busy;
     createError := err; createSuccess := ok;
     temperatureValue := input |}.

Definition set_bundle (b : option Bundle) (st : state) : state :=
  {| vitalObservations := b; loading := loading st; error := error st;
     showCreateForm := showCreateForm st; creating := creating st;
     createError := createError st; createSuccess := createSuccess st;
     temperatureValue := temperatureValue st |}.

Definition set_loaded (err : option string) (st : state) : state :=
  {| vitalObservations := vitalObservations st; loading := false;
     error := err;
     showCreateForm := showCreateForm st; creating := creating st;
     createError := createError st; createSuccess := createSuccess st;
     temperatureValue := temperatureValue st |}.

Section Component.
Variables accessToken patientId baseUrl : string.
Variable Date_parse : string -> option Z.

Definition getVitals_request : request :=
  GET (baseUrl +:+ "/Observation?patient=" +:+ patientId +:+
       "&category=vital-signs&_sort=-date&_count=200")
      (bearer accessToken).

(** [getVitals] after its [await]: the bundle, or the message of the
    error it throws. *)
Definition getVitals_resume (reply : string + Bundle) : string + Bundle :=
  match reply with
  | inr bundle => inr bundle
  | inl err => inl ("Failed to fetch vital signs: " +:+ err)
  end.

Definition onMount_resume (reply : string + Bundle) (st : state) : state :=
  match getVitals_resume reply with
  | inr bundle => set_loaded (error st) (set_bundle (Some bundle) st)
  | inl message => set_loaded (Some message) st
  end.

(** The cards of the list: the entries of the bundle, sorted where they
    are rendered. *)
Definition cards (st : state) : list BundleEntry :=
  match vitalObservations st with
  | Some bundle => JS.Array_sort (byDate Date_parse) (getVitalsEntries bundle)
  | None => []
  end.

(** [createTemperatureObservation] up to the [await] of the POST. *)
Definition createTemperatureObservation_begin (nowISO : string) (st : state)
  : state * option request :=
  if validTemperature (temperatureValue st) then
    (set_form (showCreateForm st) true None false (temperatureValue st) st,
     Some (POST (baseUrl +:+ "/Observation") (bearer accessToken)
             "application/fhir+json"
             (temperatureObservation patientId (temperatureValue st) nowISO)))
  else
    (set_form (showCreateForm st) (creating st)
       (Some "Please enter a valid temperature value")
       (createSuccess st) (temperatureValue st) st,
     None).

(** From the reply to the POST to the [await] of the fetch that follows a
    success. *)
Definition createTemperatureObservation_posted
    (reply : thrown + option created) (st : state) : state * option request :=
  match reply with
  | inr _ =>
      (set_form false (creating st) (createError st) true (JS.Str "") st,
       Some getVitals_request)
  | inl err =>
      (set_form (showCreateForm st) false (Some (createErrorText err))
         (createSuccess st) (temperatureValue st) st,
       None)
  end.

(** From the reply to that fetch to the end. *)
Definition createTemperatureObservation_refreshed
    (reply : string + Bundle) (st : state) : state :=
  match getVitals_resume reply with
  | inr bundle =>
      set_form (showCreateForm st) false (createError st) (createSuccess st)
        (temperatureValue st) (set_bundle (Some bundle) st)
  | inl message =>
      set_form (showCreateForm st) false (Some message) (createSuccess st)
        (temperatureValue st) st
  end.

End Component.

End Legacy.

(** ** Further predicates *)

Module MoreProps.

(** [URLSearchParams.get]: the value of the first parameter of that name. *)
Fixpoint searchParams_get (name : string) (l : list (string * string))
  : option string :=
  match l with
  | [] => None
  | (n, x) :: l' =>
      if String.eqb n name then Some x else searchParams_get name l'
  end.

Definition occurrences (name : string) (l : list (string * string)) : nat :=
  length (List.filter (fun p => String.eqb (fst p) name) l).

(** The keys of the store the controller uses. *)
Definition ownKeys : list string :=
  ["token"; "iss"; "tokenEndpoint"; "currentLaunch"].

(** The parameters [constructAuthUrl] sets. *)
Definition authParams (launch iss : string) : list (string * string) :=
  [("client_id", Launch.client_id); ("redirect_uri", Launch.redirectUrl);
   ("scope", Launch.scope); ("response_type", "code"); ("aud", iss);
   ("launch", launch)].

(** A launch that supersedes the stored one: both parameters are present
    and the store holds another, non-empty launch key. *)
Definition supersedes (u : Launch.launchUrl) (store : gmap string string)
  : Prop :=
  ∃ iss launch stored,
    Launch.issParam u = Some iss ∧ Launch.launchParam u = Some launch ∧
    iss ≠ "" ∧ launch ≠ "" ∧
    store !! "currentLaunch" = Some stored ∧ stored ≠ "" ∧
    stored ≠ Launch.currentLaunchKey iss launch.

(** The form the token request posts. *)
Definition tokenForm (c : string) : list (string * string) :=
  [("grant_type", "authorization_code"); ("code", c);
   ("redirect_uri", Launch.redirectUrl); ("client_id", Launch.client_id)].

(** The page-fetches that are in flight. *)
Definition moreInFlight (l : list Feed.pending) : nat :=
  length (List.filter
            (fun p => match p with Feed.PendingMore => true | _ => false end) l).

(** A request the viewer may send: it carries the bearer token, and a
    create carries a value that is a number. *)
Definition wellFormed (accessToken baseUrl : string) (r : Feed.request) : Prop :=
  match r with
  | Feed.GET _ authorization => authorization = Feed.bearer accessToken
  | Feed.POST target authorization contentType body =>
      target = baseUrl +:+ "/Observation" ∧
      authorization = Feed.bearer accessToken ∧
      contentType = "application/fhir+json" ∧
      ∃ x, Feed.valueQuantity body ≫= Feed.q_value = Some x ∧
           JS.isNaN x = false
  end.

(** The cursor is absent or a non-empty address, and it is absent when the
    server is known to have no more pages. *)
Definition cursorSound (st : Feed.state) : Prop :=
  (∀ next, Feed.nextUrl st = Some next -> next ≠ "") ∧
  (Feed.hasMoreOnServer st = false -> Feed.nextUrl st = None).

End MoreProps.

(** ** Further instances for the examples *)

Module MoreSample.

(** A discovery that fails, and one whose document has no token endpoint. *)
Definition discovery_failing (address : string)
  : string + Launch.smartConfiguration := inl "Network Error".

Definition discovery_partial (address : string)
  : string + Launch.smartConfiguration :=
  inr {| Launch.authorization_endpoint := Some "https://auth.example/authorize";
         Launch.token_endpoint := None |}.

Definition configuration : Launch.smartConfiguration :=
  {| Launch.authorization_endpoint := Some "https://auth.example/authorize";
     Launch.token_endpoint := Some "https://auth.example/token" |}.

(** A page without parameters, and a store whose token is not JSON. *)
Definition plainPage : Launch.launchUrl :=
  {| Launch.issParam := None; Launch.launchParam := None;
     Launch.code := None |}.

Definition corruptStore : gmap string string :=
  <["token" := "not-json"]> (<["theme" := "dark"]> ∅).

(** The same store after a launch A. *)
Definition corruptLaunchStore : gmap string string :=
  <["currentLaunch" := Launch.currentLaunchKey Sample.issuer "launch-A"]>
    corruptStore.

Definition emptyPage : Feed.Bundle := Sample.bundleOf [] None.

Definition patient : Banner.Patient :=
  {| Banner.name := Some [ {| Banner.given := Some ["Ada"];
                              Banner.family := Some "Lovelace" |} ];
     Banner.gender := Some "female";
     Banner.birthDate := Some "1815-12-10" |}.

End MoreSample.

(** ** Facts about the platform model *)

Module JSFacts.
Import Numeric.

Lemma truthy_string_true (s : string) : JS.truthy_string s = true <-> s ≠ "".
Proof.
  unfold JS.truthy_string. rewrite negb_true_iff. apply String.eqb_neq.
Qed.

Lemma truthy_string_false (s : string) : JS.truthy_string s = false <-> s = "".
Proof.
  unfold JS.truthy_string. rewrite negb_false_iff. apply String.eqb_eq.
Qed.

(** *** The scanner of [parseFloat] and what follows a literal *)


















(** *** The scanner and the grammar of decimal literals *)










Lemma two_byte_lead (a b : ascii) :
  JS.two_byte_space a b = true -> Ascii.is_space a = false.
Proof.
  unfold JS.two_byte_space. intros H.
  destruct a as [[] [] [] [] [] [] [] []]; try done; by vm_compute in H.
Qed.

Lemma three_byte_lead (a b c : ascii) :
  JS.three_byte_space a b c = true ->
  Ascii.is_space a = false ∧ JS.two_byte_space a b = false.
Proof.
  unfold JS.three_byte_space, JS.two_byte_space. intros H.
  destruct a as [[] [] [] [] [] [] [] []]; try done; by vm_compute in H.
Qed.


Lemma skip_ws_blank_all (ws : string) : blank ws -> JS.skip_ws ws = "".
Proof.
  induction 1 as [|a w Ha Hb IH|a b w Hab Hb IH|a b d w Habd Hb IH];
    [done|..]; cbn [JS.skip_ws].
  - by rewrite Ha.
  - by rewrite (two_byte_lead a b Hab), Hab.
  - destruct (three_byte_lead a b d Habd) as [-> ->]. by rewrite Habd.
Qed.

(** **** From the scanner to the grammar *)







(** **** From the grammar to the scanner *)















(** **** The values of a number field *)









(** *** Digits *)













(** *** Decimals without trailing zeros *)









(** *** The shortest decimal rounds to the value it is sought for *)





(** *** What [Number_toString] writes, read back *)









(** *** The sort *)

Section Sort.
Context {A : Type} (comparefn : A -> A -> option Z).

Lemma sort_insert_perm (x : A) (l : list A) :
  JS.sort_insert comparefn x l ≡ₚ x :: l.
Proof.
  induction l as [|y l IH]; simpl; [done|].
  case_match; [done|]. rewrite IH. apply Permutation_swap.
Qed.

Lemma Array_sort_perm (l : list A) : JS.Array_sort comparefn l ≡ₚ l.
Proof.
  induction l as [|x l IH]; simpl; [done|].
  by rewrite sort_insert_perm, IH.
Qed.

Lemma Array_sort_length (l : list A) :
  length (JS.Array_sort comparefn l) = length l.
Proof. by rewrite Array_sort_perm. Qed.

(** On a domain [P] where the comparator agrees with a transitive
    relation [R], the sort returns an [R]-sorted list. *)
Section Consistent.
Variables (P : A -> Prop) (R : A -> A -> Prop).
Hypothesis before : ∀ x y, P x -> P y ->
  JS.SortCompare comparefn x y <= 0 -> R x y.
Hypothesis after : ∀ x y, P x -> P y ->
  0 < JS.SortCompare comparefn x y -> R y x.
Hypothesis trans : ∀ x y z, P x -> P y -> P z -> R x y -> R y z -> R x z.

Lemma sort_insert_sorted (x : A) (l : list A) :
  P x -> Forall P l -> StronglySorted R l ->
  StronglySorted R (JS.sort_insert comparefn x l).
Proof.
  intros Hx. induction l as [|y l IH]; intros HP Hs; simpl.
  - repeat constructor.
  - apply Forall_cons in HP as [Hy HP].
    apply StronglySorted_cons in Hs as [Hyl Hs].
    destruct (Z.leb_spec (JS.SortCompare comparefn x y) 0) as [Hc|Hc].
    + apply StronglySorted_cons. split; [|by apply StronglySorted_cons].
      apply Forall_cons. split; [by apply before|].
      rewrite Forall_forall in *. intros z Hz.
      apply (trans x y z); auto.
    + apply StronglySorted_cons. split; [|by apply IH].
      rewrite sort_insert_perm. apply Forall_cons. split; [|done].
      by apply after.
Qed.

Lemma Array_sort_sorted (l : list A) :
  Forall P l -> StronglySorted R (JS.Array_sort comparefn l).
Proof.
  induction l as [|x l IH]; intros HP; simpl; [constructor|].
  apply Forall_cons in HP as [Hx HP].
  apply sort_insert_sorted; [done| |by apply IH].
  by rewrite Array_sort_perm.
Qed.
End Consistent.
End Sort.

End JSFacts.

(** ** The launch controller: session takeover and restoration *)

Module LaunchSpec.
Import Launch.

Lemma currentLaunchKey_nonempty (iss launch : string) :
  currentLaunchKey iss launch ≠ "".
Proof.
  unfold currentLaunchKey. destruct iss as [|c iss]; discriminate.
Qed.

Lemma session_eq (a b : session) :
  localStorage a = localStorage b -> token a = token b ->
  baseUrl a = baseUrl b -> a = b.
Proof. destruct a, b; simpl; intros; subst; reflexivity. Qed.

Lemma detectNewLaunch_present (u : launchUrl) (st : session) (iss launch : string) :
  issParam u = Some iss -> launchParam u = Some launch ->
  iss ≠ "" -> launch ≠ "" ->
  detectNewLaunch u st =
    setItem "currentLaunch" (currentLaunchKey iss launch)
      match getItem "currentLaunch" st with
      | Some stored =>
          if (JS.truthy_string stored
              && negb (String.eqb stored (currentLaunchKey iss launch)))%bool
          then clearAuthData st else st
      | None => st
      end.
Proof.
  intros Hi Hl Hin Hln. unfold detectNewLaunch. rewrite Hi, Hl.
  apply JSFacts.truthy_string_true in Hin, Hln. rewrite Hin, Hln. reflexivity.
Qed.

(** A load whose stored key is already the current one changes nothing. *)
Lemma detectNewLaunch_same (u : launchUrl) (st : session) (iss launch : string) :
  issParam u = Some iss -> launchParam u = Some launch ->
  getItem "currentLaunch" st = Some (currentLaunchKey iss launch) ->
  detectNewLaunch u st = st.
Proof.
  intros Hi Hl Hk. unfold detectNewLaunch. rewrite Hi, Hl.
  destruct (JS.truthy_string iss && JS.truthy_string launch)%bool; [|done].
  rewrite Hk, String.eqb_refl, andb_false_r.
  apply session_eq; simpl; [|done..].
  apply insert_id, Hk.
Qed.

Section Controller.
Variable JSON_parse : string -> option JSON.value.
Variable JSON_stringify : JSON.value -> string.
Variable URL_parse : string -> option URL.
Variable post_token : string -> list (string * string) -> string + JSON.value.
Variable get_configuration : string -> string + smartConfiguration.

Local Abbreviation resolveSession :=
  (resolveSession JSON_parse JSON_stringify URL_parse post_token
     get_configuration).
Local Abbreviation onMount :=
  (onMount JSON_parse JSON_stringify URL_parse post_token get_configuration).

Lemma establish_not_restored (u : launchUrl) (st : session) :
  snd (establish JSON_stringify URL_parse post_token get_configuration u st)
  ≠ Restored.
Proof.
  unfold establish, authorize, makeTokenRequest.
  repeat (case_match; simplify_eq/=; try done).
Qed.

Lemma establish_keeps_launch (u : launchUrl) (st : session) :
  getItem "currentLaunch"
    (fst (establish JSON_stringify URL_parse post_token get_configuration u st))
  = getItem "currentLaunch" st.
Proof.
  unfold establish, authorize, makeTokenRequest, getItem.
  repeat (case_match; simplify_eq/=; try done);
    by rewrite ?lookup_insert_ne.
Qed.

Lemma loadBaseUrl_store (st : session) :
  localStorage (loadBaseUrl st) = localStorage st ∧
  token (loadBaseUrl st) = token st.
Proof. unfold loadBaseUrl. by case_match. Qed.

Lemma loadToken_store (st st' : session) :
  loadToken JSON_parse st = Some st' -> localStorage st' = localStorage st.
Proof.
  unfold loadToken. intros H.
  repeat (case_match; simplify_option_eq; try done).
Qed.

(** Nothing after the first block touches the stored launch key. *)
Lemma resolveSession_keeps_launch (u : launchUrl) (st : session) :
  getItem "currentLaunch" (fst (resolveSession u st))
  = getItem "currentLaunch" st.
Proof.
  unfold Launch.resolveSession.
  destruct (loadBaseUrl_store st) as [Hb _].
  destruct (loadToken JSON_parse (loadBaseUrl st)) as [st'|] eqn:Hl; simpl.
  - apply loadToken_store in Hl.
    destruct (token_truthy st'); simpl.
    + unfold getItem. by rewrite Hl, Hb.
    + rewrite establish_keeps_launch. unfold getItem. by rewrite Hl, Hb.
  - unfold getItem. by rewrite Hb.
Qed.

(** When the page loads with no token in memory, the session is restored
    exactly when the stored token text is non-empty and decodes to a
    truthy value. *)
Lemma resolveSession_restored (u : launchUrl) (st : session) :
  token st = None ->
  let r := resolveSession u st in
  (snd r = Restored <->
     ∃ text v, getItem "token" st = Some text ∧ text ≠ "" ∧
               JSON_parse text = Some v ∧ JSON.truthy v = true) ∧
  (snd r = Restored ->
     localStorage (fst r) = localStorage st ∧
     ∃ text, getItem "token" st = Some text ∧
             token (fst r) = JSON_parse text).
Proof.
  intros Htok r. subst r. unfold Launch.resolveSession.
  destruct (loadBaseUrl_store st) as [Hb Ht].
  assert (Hg : getItem "token" (loadBaseUrl st) = getItem "token" st)
    by (unfold getItem; by rewrite Hb).
  unfold loadToken. rewrite Hg.
  destruct (getItem "token" st) as [text|] eqn:Hs.
  - destruct (JS.truthy_string text) eqn:Htr.
    + destruct (JSON_parse text) as [v|] eqn:Hp; simpl.
      * assert (token_truthy (set_token (Some v) (loadBaseUrl st))
                = JSON.truthy v) as -> by done.
        destruct (JSON.truthy v) eqn:Hv; simpl.
        -- split; [split; [intros _|done]|intros _].
           ++ exists text, v. split_and!; try done.
              by apply JSFacts.truthy_string_true.
           ++ split; [done|]. exists text. by rewrite Hp.
        -- split; [split|].
           ++ intros H. destruct (establish_not_restored _ _ H).
           ++ intros (t & v' & ? & _ & ? & ?); simplify_eq; congruence.
           ++ intros H. destruct (establish_not_restored _ _ H).
      * split; [split|]; try done.
        intros (t & v' & ? & _ & ? & ?); simplify_eq; congruence.
    + assert (token_truthy (loadBaseUrl st) = false) as ->
        by (unfold token_truthy; by rewrite Ht, Htok).
      split; [split|].
      * intros H. destruct (establish_not_restored _ _ H).
      * intros (t & v' & ? & Hne & _); simplify_eq.
        apply JSFacts.truthy_string_true in Hne. congruence.
      * intros H. destruct (establish_not_restored _ _ H).
  - assert (token_truthy (loadBaseUrl st) = false) as ->
      by (unfold token_truthy; by rewrite Ht, Htok).
    split; [split|].
    + intros H. destruct (establish_not_restored _ _ H).
    + intros (t & v' & ? & _); simplify_eq.
    + intros H. destruct (establish_not_restored _ _ H).
Qed.

(** C1.  On a load whose URL carries an issuer and a launch parameter
    (both non-empty), the new-launch block runs before anything else.
    When the stored launch key exists (non-empty) and differs from the
    current key [iss:launch], the persisted token, issuer, token endpoint
    and launch key and the in-memory token are all cleared; the current
    key (never empty) is then stored in every case.  When the stored key
    equals the current key nothing is cleared: the block leaves the session
    as it is, and so does the same block on the next load with the same
    pair. *)
Theorem new_launch_takeover (u : launchUrl) (st : session)
    (iss launch : string) :
  issParam u = Some iss -> launchParam u = Some launch ->
  iss ≠ "" -> launch ≠ "" ->
  let key := currentLaunchKey iss launch in
  let st' := detectNewLaunch u st in
  onMount u st = resolveSession u st' ∧
  getItem "currentLaunch" st' = Some key ∧
  (∀ stored, getItem "currentLaunch" st = Some stored ->
     stored ≠ "" -> stored ≠ key ->
     st' = setItem "currentLaunch" key (clearAuthData st) ∧
     getItem "token" st' = None ∧ getItem "iss" st' = None ∧
     getItem "tokenEndpoint" st' = None ∧ token st' = None) ∧
  (getItem "currentLaunch" st = Some key -> st' = st) ∧
  (getItem "currentLaunch" st = None ->
     st' = setItem "currentLaunch" key st) ∧
  (∀ u2, issParam u2 = Some iss -> launchParam u2 = Some launch ->
     let next := pageLoad (localStorage (fst (onMount u st))) in
     detectNewLaunch u2 next = next).
Proof.
  intros Hi Hl Hin Hln key st'.
  assert (Hst' : st' = setItem "currentLaunch" key
    match getItem "currentLaunch" st with
    | Some stored =>
        if (JS.truthy_string stored && negb (String.eqb stored key))%bool
        then clearAuthData st else st
    | None => st
    end) by (by apply detectNewLaunch_present).
  assert (Hkey : getItem "currentLaunch" st' = Some key).
  { rewrite Hst'. unfold getItem, setItem; simpl. apply lookup_insert_eq. }
  split_and!.
  - reflexivity.
  - exact Hkey.
  - intros stored Hs Hne Hdiff. rewrite Hst', Hs.
    apply JSFacts.truthy_string_true in Hne. rewrite Hne.
    apply String.eqb_neq in Hdiff. rewrite Hdiff. simpl.
    split_and!; [done|..]; unfold getItem; simpl; by simplify_map_eq.
  - intros Hs. by apply (detectNewLaunch_same u st iss launch).
  - intros Hs. by rewrite Hst', Hs.
  - intros u2 Hi2 Hl2 next. apply (detectNewLaunch_same u2 next iss launch); [done..|].
    unfold next, Launch.onMount. fold st'.
    pose proof (resolveSession_keeps_launch u st') as Hk.
    unfold getItem in *. simpl. rewrite Hk. exact Hkey.
Qed.

(** C2 (amended).  On a page load the persisted session is reused exactly
    when, after the new-launch block, the store holds a non-empty token
    text that decodes to a truthy value; the [code] parameter plays no
    part in that decision.  A reused session leaves the store as the
    new-launch block left it. *)
Theorem session_restored_iff (u : launchUrl) (store : gmap string string) :
  let st1 := detectNewLaunch u (pageLoad store) in
  let r := onMount u (pageLoad store) in
  (snd r = Restored <->
     ∃ text v, getItem "token" st1 = Some text ∧ text ≠ "" ∧
               JSON_parse text = Some v ∧ JSON.truthy v = true) ∧
  (snd r = Restored ->
     localStorage (fst r) = localStorage st1 ∧
     ∃ text, getItem "token" st1 = Some text ∧
             token (fst r) = JSON_parse text) ∧
  (∀ c, snd (onMount {| issParam := issParam u;
                        launchParam := launchParam u; code := c |}
               (pageLoad store)) = Restored <-> snd r = Restored).
Proof.
  intros st1 r.
  assert (Htok : token st1 = None).
  { unfold st1, detectNewLaunch. repeat case_match; done. }
  assert (Hmain : ∀ c,
    let rc := resolveSession {| issParam := issParam u;
                 launchParam := launchParam u; code := c |} st1 in
    (snd rc = Restored <->
       ∃ text v, getItem "token" st1 = Some text ∧ text ≠ "" ∧
                 JSON_parse text = Some v ∧ JSON.truthy v = true) ∧
    (snd rc = Restored ->
       localStorage (fst rc) = localStorage st1 ∧
       ∃ text, getItem "token" st1 = Some text ∧
               token (fst rc) = JSON_parse text)).
  { intros c. by apply resolveSession_restored. }
  destruct u as [i l c0]; simpl in *.
  split_and!.
  - exact (proj1 (Hmain c0)).
  - exact (proj2 (Hmain c0)).
  - intros c. etrans; [exact (proj1 (Hmain c))|].
    symmetry. exact (proj1 (Hmain c0)).
Qed.

End Controller.

(** *** The properties at concrete inputs *)

(** C2, as stated, fails: the page the authorization server redirects back
    to carries a [code], the store still holds the token of the finished
    launch, and the load ends in the restored session: no exchange of
    the code takes place. *)
Lemma restored_despite_code :
  let r := onMount Sample.parse Sample.stringify Sample.url_parse
             Sample.token_server Sample.discovery
             Sample.callback (pageLoad Sample.storeA) in
  code Sample.callback = Some "auth-code-1" ∧
  getItem "token" (pageLoad Sample.storeA)
    = Some (Sample.stringify Sample.tokenPayload) ∧
  snd r = Restored ∧
  token (fst r) = Some Sample.tokenPayload.
Proof. cbv zeta. split_and!; vm_compute; reflexivity. Qed.

Lemma new_launch_takeover_witness :
  let st' := detectNewLaunch Sample.launchB (pageLoad Sample.storeA) in
  getItem "currentLaunch" st'
    = Some (currentLaunchKey Sample.issuer "launch-B") ∧
  getItem "token" st' = None ∧ getItem "iss" st' = None ∧
  getItem "tokenEndpoint" st' = None ∧
  detectNewLaunch Sample.launchA (pageLoad Sample.storeA)
    = pageLoad Sample.storeA.
Proof.
  pose proof (new_launch_takeover Sample.parse Sample.stringify Sample.url_parse
                Sample.token_server Sample.discovery
                Sample.launchB (pageLoad Sample.storeA) Sample.issuer "launch-B"
                eq_refl eq_refl ltac:(discriminate) ltac:(discriminate)) as HB.
  pose proof (new_launch_takeover Sample.parse Sample.stringify Sample.url_parse
                Sample.token_server Sample.discovery
                Sample.launchA (pageLoad Sample.storeA) Sample.issuer "launch-A"
                eq_refl eq_refl ltac:(discriminate) ltac:(discriminate)) as HA.
  cbv zeta in HA, HB.
  destruct HB as (_ & Hk & Hclear & _).
  destruct HA as (_ & _ & _ & Hsame & _).
  destruct (Hclear (currentLaunchKey Sample.issuer "launch-A"))
    as (_ & Ht & Hi & He & _);
    [vm_compute; reflexivity|discriminate|discriminate|].
  cbv zeta. split_and!; [exact Hk|exact Ht|exact Hi|exact He|].
  apply Hsame. vm_compute. reflexivity.
Defined.

Lemma session_restored_iff_witness :
  snd (onMount Sample.parse Sample.stringify Sample.url_parse
         Sample.token_server Sample.discovery
         Sample.callback (pageLoad Sample.storeA)) = Restored.
Proof.
  apply (proj1 (session_restored_iff Sample.parse Sample.stringify
                  Sample.url_parse Sample.token_server Sample.discovery
                  Sample.callback Sample.storeA)).
  exists (Sample.stringify Sample.tokenPayload), Sample.tokenPayload.
  split_and!; [vm_compute; reflexivity|discriminate|reflexivity|reflexivity].
Defined.

End LaunchSpec.

(** ** The observation feed *)

Module FeedSpec.
Import Feed FeedProps Numeric.

#[local] Arguments Feed.updateDisplayedObservations : simpl never.

(** *** Value formatting *)

Lemma bloodPressure_some (o : Observation) (s d : Quantity) :
  carriesPressures o s d ->
  bloodPressure o =
    Some (JS.template_number (q_value s) +:+ "/" +:+
          JS.template_number (q_value d) +:+ " " +:+
          JS.or_else (q_unit s) "mmHg").
Proof.
  intros (comps & cs & cd & Hc & Hne & Hs & Hd & Hqs & Hqd).
  unfold bloodPressure. rewrite Hc. destruct comps as [|c comps]; [done|].
  cbv beta iota zeta. rewrite Hs, Hd. simpl. by rewrite Hqs, Hqd.
Qed.

Lemma bloodPressure_none (o : Observation) :
  (∀ s d, ¬ carriesPressures o s d) -> bloodPressure o = None.
Proof.
  intros Hno. unfold bloodPressure.
  destruct (component o) as [[|c comps]|] eqn:Hc; [done| |done].
  cbv beta iota zeta.
  destruct (List.find (coded "8480-6") (c :: comps)) as [cs|] eqn:Hs;
    [|done].
  destruct (List.find (coded "8462-4") (c :: comps)) as [cd|] eqn:Hd;
    [|by destruct (Some cs ≫= comp_valueQuantity)].
  destruct (comp_valueQuantity cs) as [qs|] eqn:Hqs; simpl; rewrite Hqs;
    [|done].
  destruct (comp_valueQuantity cd) as [qd|] eqn:Hqd; [|done].
  destruct (Hno qs qd). by exists (c :: comps), cs, cd.
Qed.

(** C3.  The displayed value of an observation: when it has components
    and the first one coded 8480-6 and the first one coded 8462-4 both
    carry a quantity, [systolic/diastolic unit], the unit being that of the
    systolic quantity or mmHg; otherwise [value unit] for a quantity, the
    unit defaulting to the empty string; otherwise the value string when it
    is present (non-empty); otherwise [Not available].  The three examples
    format as stated. *)
Theorem bpDisplay_policy (o : Observation) :
  (∀ s d, carriesPressures o s d ->
     bpDisplay o = JS.template_number (q_value s) +:+ "/" +:+
                   JS.template_number (q_value d) +:+ " " +:+
                   JS.or_else (q_unit s) "mmHg") ∧
  ((∀ s d, ¬ carriesPressures o s d) ->
     (∀ q, valueQuantity o = Some q ->
        bpDisplay o = JS.template_number (q_value q) +:+ " " +:+
                      JS.or_else (q_unit q) "") ∧
     (valueQuantity o = None ->
        (∀ t, valueString o = Some t -> t ≠ "" -> bpDisplay o = t) ∧
        (valueString o = None ∨ valueString o = Some "" ->
           bpDisplay o = "Not available"))) ∧
  (∀ s, q_unit s = None -> JS.or_else (q_unit s) "mmHg" = "mmHg"
                           ∧ JS.or_else (q_unit s) "" = "") ∧
  bpDisplay Sample.bloodPressureObs = "120/80 mmHg" ∧
  bpDisplay Sample.temperatureObs = "36.6 degC" ∧
  bpDisplay Sample.emptyObs = "Not available".
Proof.
  split_and!.
  - intros s d H. unfold bpDisplay. by rewrite (bloodPressure_some o s d H).
  - intros Hno. apply bloodPressure_none in Hno.
    unfold bpDisplay. rewrite Hno. split.
    + by intros q ->.
    + intros ->. split.
      * intros t -> Ht. apply JSFacts.truthy_string_true in Ht.
        by rewrite Ht.
      * by intros [->| ->].
  - intros s ->. done.
  - reflexivity.
  - reflexivity.
  - reflexivity.
Qed.

(** *** Sort order *)

Section Viewer.
Variables accessToken patientId baseUrl : string.
Variable Date_parse : string -> option Z.

Local Abbreviation effectiveTime := (effectiveTime Date_parse).
Local Abbreviation byDate := (byDate Date_parse).
Local Abbreviation dated := (dated Date_parse).
Local Abbreviation notOlder := (notOlder Date_parse).
Local Abbreviation allDated := (allDated Date_parse).
Local Abbreviation updateDisplayedObservations :=
  (updateDisplayedObservations Date_parse).
Local Abbreviation reactive := (reactive Date_parse).
Local Abbreviation mergeMore := (mergeMore Date_parse).
Local Abbreviation loadMore_finish := (loadMore_finish Date_parse).
Local Abbreviation loadMore_begin := (loadMore_begin accessToken Date_parse).
Local Abbreviation loadMore_resume := (loadMore_resume Date_parse).
Local Abbreviation loadMore_times := (loadMore_times accessToken Date_parse).
Local Abbreviation createTemperatureObservation_begin :=
  (createTemperatureObservation_begin accessToken patientId baseUrl).
Local Abbreviation createTemperatureObservation_resume :=
  (createTemperatureObservation_resume Date_parse).
Local Abbreviation temperatureObservation :=
  (temperatureObservation patientId).
Local Abbreviation reconcile_begin :=
  (reconcile_begin accessToken patientId baseUrl).
Local Abbreviation reconcile_resume := (reconcile_resume Date_parse).
Local Abbreviation onMount_resume := (onMount_resume Date_parse).
Local Abbreviation getVitals_request :=
  (getVitals_request accessToken patientId baseUrl).
Local Abbreviation boot := (boot accessToken patientId baseUrl Date_parse).
Local Abbreviation step := (step accessToken patientId baseUrl Date_parse).
Local Abbreviation reachable :=
  (reachable accessToken patientId baseUrl Date_parse).

Lemma byDate_before (x y : BundleEntry) :
  dated x -> dated y -> JS.SortCompare byDate x y <= 0 -> notOlder x y.
Proof.
  intros [tx Hx] [ty Hy]. unfold JS.SortCompare, Feed.byDate.
  rewrite Hx, Hy. intros Hc. exists tx, ty. split_and!; [done..|lia].
Qed.

Lemma byDate_after (x y : BundleEntry) :
  dated x -> dated y -> 0 < JS.SortCompare byDate x y -> notOlder y x.
Proof.
  intros [tx Hx] [ty Hy]. unfold JS.SortCompare, Feed.byDate.
  rewrite Hx, Hy. intros Hc. exists ty, tx. split_and!; [done..|lia].
Qed.

Lemma notOlder_trans (x y z : BundleEntry) :
  notOlder x y -> notOlder y z -> notOlder x z.
Proof.
  intros (tx & ty & Hx & Hy & H1) (ty' & tz & Hy' & Hz & H2).
  exists tx, tz. split_and!; [done..|]. simplify_eq. lia.
Qed.

(** A sort of entries that all have a time is descending by time. *)
Lemma sort_dated (l : list BundleEntry) :
  Forall dated l -> StronglySorted notOlder (JS.Array_sort byDate l).
Proof.
  apply JSFacts.Array_sort_sorted.
  - apply byDate_before.
  - apply byDate_after.
  - intros x y z _ _ _. apply notOlder_trans.
Qed.

(** **** What [updateDisplayedObservations] does to each variable *)

Lemma update_all (st : state) :
  allObservations (updateDisplayedObservations st) =
    match allObservations st, vitalObservations st with
    | [], Some bundle => JS.Array_sort byDate (getVitalsEntries bundle)
    | l, _ => l
    end.
Proof.
  unfold Feed.updateDisplayedObservations.
  by destruct (allObservations st) eqn:?, (vitalObservations st) eqn:?.
Qed.

Lemma update_others (st : state) :
  let st' := updateDisplayedObservations st in
  currentPage st' = currentPage st ∧
  hasMoreOnServer st' = hasMoreOnServer st ∧
  nextUrl st' = nextUrl st ∧
  isLoadingMore st' = isLoadingMore st ∧
  showCreateForm st' = showCreateForm st ∧
  createError st' = createError st ∧
  creating st' = creating st.
Proof.
  unfold Feed.updateDisplayedObservations.
  by destruct (allObservations st), (vitalObservations st).
Qed.

Lemma update_bundle (st : state) :
  vitalObservations (updateDisplayedObservations st) =
    match allObservations st, vitalObservations st with
    | [], Some bundle =>
        Some {| entry := match entry bundle with
                         | Some _ =>
                             Some (JS.Array_sort byDate (getVitalsEntries bundle))
                         | None => None
                         end;
                link := link bundle |}
    | _, b => b
    end.
Proof.
  unfold Feed.updateDisplayedObservations.
  by destruct (allObservations st) eqn:?, (vitalObservations st) eqn:?.
Qed.

Lemma update_displayed (st : state) :
  displayedObservations (updateDisplayedObservations st) =
    take (windowSize st) (allObservations (updateDisplayedObservations st)).
Proof.
  unfold Feed.updateDisplayedObservations, windowSize.
  by destruct (allObservations st) eqn:?, (vitalObservations st) eqn:?.
Qed.

Lemma update_nonempty (st : state) :
  allObservations st ≠ [] ->
  allObservations (updateDisplayedObservations st) = allObservations st.
Proof. rewrite update_all. by destruct (allObservations st). Qed.

Lemma update_windowed (st : state) : windowed (updateDisplayedObservations st).
Proof.
  unfold windowed. rewrite update_displayed. unfold windowSize.
  by rewrite (proj1 (update_others st)).
Qed.

Lemma update_initialised (st : state) :
  initialised (updateDisplayedObservations st).
Proof.
  unfold initialised. rewrite update_all, update_bundle.
  destruct (allObservations st) as [|e l] eqn:Ha; [|done].
  destruct (vitalObservations st) as [b|] eqn:Hb; [|done].
  intros Hnil b' [= <-]. unfold getVitalsEntries in *; simpl in *.
  by destruct (entry b).
Qed.

Lemma reactive_self (st : state) :
  reactive st = st ∨ reactive st = updateDisplayedObservations st.
Proof. unfold Feed.reactive. destruct (vitalObservations st); auto. Qed.

(** **** The segments that follow a successful reply *)

Lemma onMount_resume_ok (now : Z) (bundle : Bundle) (st : state) :
  onMount_resume now (inr bundle) st =
    updateDisplayedObservations
      (set_loaded (error st)
         (set_bundle (Some bundle)
            (set_cursor (next_link bundle) (set_lastFetchTime now st)))).
Proof. reflexivity. Qed.

Lemma loadMore_resume_ok (more : Bundle) (st : state) :
  loadMore_resume (inr more) st =
    loadMore_finish (Some more)
      (set_isLoadingMore false (set_cursor (next_link more) st)).
Proof. reflexivity. Qed.

Lemma loadMore_resume_failed (e : string) (st : state) :
  loadMore_resume (inl e) st =
    loadMore_finish None (set_isLoadingMore false st).
Proof. reflexivity. Qed.

Lemma loadMore_finish_eq (moreData : option Bundle) (st : state) :
  loadMore_finish moreData st =
    updateDisplayedObservations
      (set_currentPage (S (currentPage st)) (mergeMore moreData st)).
Proof. unfold Feed.loadMore_finish. by destruct moreData. Qed.

Lemma reconcile_resume_ok (now : Z) (bundle : Bundle) (st : state) :
  reconcile_resume now (inr bundle) st =
    updateDisplayedObservations
      (updateDisplayedObservations
         (set_currentPage 0
            (set_all []
               (set_bundle (Some bundle)
                  (set_cursor (next_link bundle)
                     (set_lastFetchTime now st)))))).
Proof.
  unfold Feed.reconcile_resume, getVitals_resume, Feed.reactive.
  by rewrite update_bundle.
Qed.

(** C4 (amended).  When every entry involved has a parseable effective
    time, the collection is sorted descending by effective time (entries
    with equal times allowed) after it is initialised from a bundle and
    after a fetched batch is merged into it by [loadMore]; the sorted
    collection holds exactly the entries that went in. *)
Theorem sorted_when_dated :
  (∀ st now bundle,
     allObservations st = [] ->
     Forall dated (getVitalsEntries bundle) ->
     let st' := onMount_resume now (inr bundle) st in
     StronglySorted notOlder (allObservations st') ∧
     allObservations st' ≡ₚ getVitalsEntries bundle) ∧
  (∀ st more,
     allDated st -> Forall dated (getVitalsEntries more) ->
     let st' := loadMore_resume (inr more) st in
     StronglySorted notOlder (allObservations st') ∧
     (initialised st ->
      allObservations st' ≡ₚ allObservations st ++ getVitalsEntries more)).
Proof.
  split.
  - intros st now bundle Hnil Hd st'.
    assert (Hall : allObservations st'
                   = JS.Array_sort byDate (getVitalsEntries bundle)).
    { unfold st'. rewrite onMount_resume_ok, update_all. simpl.
      by rewrite Hnil. }
    rewrite Hall. split; [by apply sort_dated|].
    apply JSFacts.Array_sort_perm.
  - intros st more [Ha Hb] Hm st'.
    set (merged := JS.Array_sort byDate
           (allObservations st ++ JS.Array_sort byDate (getVitalsEntries more))).
    assert (Hperm : merged ≡ₚ allObservations st ++ getVitalsEntries more).
    { unfold merged.
      by rewrite JSFacts.Array_sort_perm, JSFacts.Array_sort_perm. }
    assert (Hsorted : StronglySorted notOlder merged).
    { apply sort_dated. rewrite Forall_app. split; [done|].
      by rewrite JSFacts.Array_sort_perm. }
    assert (Hall : allObservations st' =
      match merged, vitalObservations st with
      | [], Some bundle => JS.Array_sort byDate (getVitalsEntries bundle)
      | l, _ => l
      end).
    { unfold st'. rewrite loadMore_resume_ok, loadMore_finish_eq, update_all.
      simpl. fold merged. by destruct merged, (vitalObservations st). }
    rewrite Hall. split.
    + destruct merged; [|done].
      destruct (vitalObservations st) as [b|] eqn:Hv; [|constructor].
      apply sort_dated. by apply Hb.
    + intros Hinit. destruct merged eqn:Hmg; [|done].
      symmetry in Hperm. apply Permutation_nil_r in Hperm.
      apply app_eq_nil in Hperm as [Hnil Hmore].
      rewrite Hnil, Hmore. simpl.
      destruct (vitalObservations st) as [b|] eqn:Hv; [|done].
      by rewrite (Hinit Hnil b Hv).
Qed.

(** *** Optimistic create and reconciliation *)

(** The state a successful create reply leaves, before the reactive
    statement runs. *)
Lemma create_resume_ok (posted : Observation) (now : Z)
    (data : option created) (st : state) :
  let e := newEntry posted data now in
  ∃ st2,
    createTemperatureObservation_resume posted now (inr data) st =
      (reactive (set_form false false (createError (updateDisplayedObservations st2))
                   true (JS.Str "") (updateDisplayedObservations st2)), true) ∧
    allObservations st2 = e :: allObservations st ∧
    currentPage st2 = currentPage st.
Proof.
  intros e. unfold Feed.createTemperatureObservation_resume. fold e.
  destruct (vitalObservations (set_all (e :: allObservations st) st))
    as [b|] eqn:Hb; eexists; (split; [reflexivity|]); by simpl in *.
Qed.

Lemma reactive_fields (st : state) :
  allObservations st ≠ [] -> windowed st ->
  allObservations (reactive st) = allObservations st ∧
  displayedObservations (reactive st) = displayedObservations st ∧
  currentPage (reactive st) = currentPage st.
Proof.
  intros Hne Hw. destruct (reactive_self st) as [-> | ->]; [done|].
  rewrite update_displayed, (update_nonempty _ Hne).
  by rewrite (proj1 (update_others st)).
Qed.

(** C5.  A valid input makes the create request, and whatever the reply
    to it holds (a body or none, an id or none) the entry built from the
    posted observation -- with the id of the reply when it has one, else
    a temporary id made from the clock -- is put in front of the
    collection and the window is recomputed in the same segment: the
    entry is the first one displayed, its name is [Temperature Oral] and
    its value reads [<N> degC].  The reconciliation is only armed. *)
Theorem optimistic_create (st0 st : state) (nowISO : string) (now : Z)
    (data : option created) :
  validTemperature (temperatureValue st0) = true ->
  let posted := temperatureObservation (temperatureValue st0) nowISO in
  let e := newEntry posted data now in
  let r := createTemperatureObservation_resume posted now (inr data) st in
  snd (createTemperatureObservation_begin nowISO st0) =
    Some (POST (baseUrl +:+ "/Observation") (bearer accessToken)
            "application/fhir+json" posted) ∧
  allObservations (fst r) = e :: allObservations st ∧
  displayedObservations (fst r)
    = take (windowSize st) (e :: allObservations st) ∧
  head (displayedObservations (fst r)) = Some e ∧
  cardName e = "Temperature Oral" ∧
  cardValue e =
    JS.Number_toString (JS.parseFloat (JS.ToString (temperatureValue st0)))
      +:+ " degC" ∧
  (resource e ≫= id) =
    Some (JS.or_else (data ≫= created_id) ("temp-" +:+ pretty now)) ∧
  createSuccess (fst r) = true ∧
  snd r = true.
Proof.
  intros Hvalid posted e r.
  destruct (create_resume_ok posted now data st) as (st2 & Hr & Hall & Hcp).
  fold e in Hall. fold r in Hr.
  set (st3 := updateDisplayedObservations st2) in *.
  set (st4 := set_form false false (createError st3) true (JS.Str "") st3) in *.
  assert (Hall3 : allObservations st3 = e :: allObservations st).
  { unfold st3. rewrite update_nonempty; by rewrite Hall. }
  assert (Hw3 : windowed st4).
  { change (displayedObservations st3
            = take (windowSize st3) (allObservations st3)).
    apply update_windowed. }
  assert (Hcp3 : currentPage st4 = currentPage st).
  { change (currentPage st3 = currentPage st).
    unfold st3. by rewrite (proj1 (update_others st2)). }
  destruct (reactive_fields st4) as (Ha & Hd & Hc);
    [change (allObservations st3 ≠ []); by rewrite Hall3|done|].
  assert (Hdisp : displayedObservations (fst r)
                  = take (windowSize st) (e :: allObservations st)).
  { rewrite Hr. change (displayedObservations (reactive st4)
      = take (windowSize st) (e :: allObservations st)).
    rewrite Hd, Hw3. unfold windowSize. rewrite Hcp3.
    change (allObservations st4) with (allObservations st3).
    by rewrite Hall3. }
  split_and!.
  - unfold Feed.createTemperatureObservation_begin. by rewrite Hvalid.
  - rewrite Hr. change (allObservations (reactive st4)
      = e :: allObservations st). by rewrite Ha.
  - exact Hdisp.
  - rewrite Hdisp. unfold windowSize, itemsPerPage.
    by replace ((currentPage st + 1) * 20)%nat
      with (S (currentPage st * 20 + 19)) by lia.
  - reflexivity.
  - reflexivity.
  - reflexivity.
  - rewrite Hr. change (createSuccess (reactive st4) = true).
    destruct (reactive_self st4) as [-> | ->]; [done|].
    unfold Feed.updateDisplayedObservations.
    by destruct (allObservations st4), (vitalObservations st4).
  - by rewrite Hr.
Qed.

(** C6.  A successful create arms one timer with the fixed delay of
    1000 ms.  When the timer fires the list is requested again, whatever
    the cache holds.  When that request succeeds the collection becomes
    the sorted entries of the bundle it returned -- nothing of the former
    collection is kept -- and the window is back to its first page. *)
Theorem reconciliation :
  (∀ w posted now data rest,
     let r := createTemperatureObservation_resume posted now (inr data)
                (view w) in
     timers (settle (fst r) rest (snd r) w) = timers w ++ [1000]) ∧
  (∀ now st,
     getVitals_cached true now st = None ∧
     reconcile_begin now st = Some getVitals_request) ∧
  (∀ w now t,
     let w' := send (PendingRefresh now)
                 (view w, reconcile_begin now (view w))
                 {| view := view w; inflight := inflight w;
                    timers := t; sent := sent w |} in
     sent w' = sent w ++ [getVitals_request] ∧
     inflight w' = inflight w ++ [PendingRefresh now] ∧
     view w' = view w) ∧
  (∀ now bundle st,
     let st' := reconcile_resume now (inr bundle) st in
     allObservations st' = JS.Array_sort byDate (getVitalsEntries bundle) ∧
     allObservations st' ≡ₚ getVitalsEntries bundle ∧
     currentPage st' = 0%nat ∧
     windowSize st' = itemsPerPage ∧
     displayedObservations st' = take itemsPerPage (allObservations st')).
Proof.
  split_and!.
  - intros w posted now data rest r.
    destruct (create_resume_ok posted now data (view w)) as (st2 & Hr & _).
    fold r in Hr. by rewrite Hr.
  - done.
  - done.
  - intros now bundle st st'.
    set (s0 := set_currentPage 0
                 (set_all []
                    (set_bundle (Some bundle)
                       (set_cursor (next_link bundle)
                          (set_lastFetchTime now st))))).
    assert (Hst' : st' = updateDisplayedObservations
                           (updateDisplayedObservations s0))
      by apply reconcile_resume_ok.
    assert (Hcp : currentPage st' = 0%nat).
    { rewrite Hst'.
      by rewrite (proj1 (update_others _)), (proj1 (update_others _)). }
    assert (Hall : allObservations st'
                   = JS.Array_sort byDate (getVitalsEntries bundle)).
    { rewrite Hst', update_all, update_all, update_bundle.
      change (allObservations s0) with (@nil BundleEntry).
      change (vitalObservations s0) with (Some bundle).
      cbv beta iota. unfold getVitalsEntries.
      destruct (entry bundle) as [l|]; simpl; [|done].
      by destruct (JS.Array_sort byDate l) eqn:Hs; simpl; rewrite ?Hs. }
    split_and!; [done| |done| |].
    + rewrite Hall. apply JSFacts.Array_sort_perm.
    + unfold windowSize. by rewrite Hcp.
    + rewrite Hst', update_displayed. unfold windowSize.
      by rewrite (proj1 (update_others s0)).
Qed.

(** *** The window *)

Lemma consistent_update (st : state) :
  consistent (updateDisplayedObservations st).
Proof. split; [apply update_windowed|apply update_initialised]. Qed.

Lemma consistent_frame (st st' : state) :
  displayedObservations st' = displayedObservations st ->
  allObservations st' = allObservations st ->
  currentPage st' = currentPage st ->
  vitalObservations st' = vitalObservations st ->
  consistent st -> consistent st'.
Proof.
  intros Hd Ha Hc Hv [Hw Hi]. split.
  - unfold windowed, windowSize in *. by rewrite Hd, Ha, Hc.
  - unfold initialised in *. by rewrite Ha, Hv.
Qed.

Lemma consistent_reactive (st : state) :
  consistent st -> consistent (reactive st).
Proof.
  intros H. destruct (reactive_self st) as [-> | ->]; [done|].
  apply consistent_update.
Qed.

Lemma consistent_loadMore_finish (moreData : option Bundle) (st : state) :
  consistent (loadMore_finish moreData st).
Proof. rewrite loadMore_finish_eq. apply consistent_update. Qed.

Lemma consistent_loadMore_begin (st : state) :
  consistent st -> consistent (fst (loadMore_begin st)).
Proof.
  intros H. unfold Feed.loadMore_begin, fetchMoreFromServer_begin.
  repeat case_match; simplify_eq/=;
    try apply consistent_loadMore_finish.
  by apply (consistent_frame st).
Qed.

Lemma consistent_create_begin (nowISO : string) (st : state) :
  consistent st ->
  consistent (fst (createTemperatureObservation_begin nowISO st)).
Proof.
  intros H. unfold Feed.createTemperatureObservation_begin.
  case_match; by apply (consistent_frame st).
Qed.

Lemma consistent_create_resume (posted : Observation) (now : Z)
    (reply : thrown + option created) (st : state) :
  consistent st ->
  consistent (fst (createTemperatureObservation_resume posted now reply st)).
Proof.
  intros H. destruct reply as [err|data].
  - by apply (consistent_frame st).
  - destruct (create_resume_ok posted now data st) as (st2 & -> & _).
    apply consistent_reactive.
    by apply (consistent_frame (updateDisplayedObservations st2)),
      consistent_update.
Qed.

Lemma consistent_reconcile_resume (now : Z) (reply : string + Bundle)
    (st : state) :
  consistent st -> consistent (reconcile_resume now reply st).
Proof.
  intros H. destruct reply as [e|bundle]; [done|].
  rewrite reconcile_resume_ok. apply consistent_update.
Qed.

Lemma consistent_onMount_resume (now : Z) (reply : string + Bundle)
    (st : state) :
  consistent st -> consistent (onMount_resume now reply st).
Proof.
  intros H. destruct reply as [e|bundle].
  - by apply (consistent_frame st).
  - rewrite onMount_resume_ok. apply consistent_update.
Qed.

Lemma view_send (p : pending) (r : state * option request) (w : world) :
  view (send p r w) = fst r.
Proof. by destruct r as [st [req|]]. Qed.

Lemma consistent_step (w w' : world) :
  step w w' -> consistent (view w) -> consistent (view w').
Proof.
  intros Hstep H. destruct Hstep; rewrite ?view_send; cbn [view settle fst].
  - by apply consistent_onMount_resume.
  - by apply consistent_loadMore_begin.
  - unfold Feed.loadMore_resume.
    destruct (fetchMoreFromServer_resume reply (view w)).
    apply consistent_loadMore_finish.
  - by apply (consistent_frame (view w)).
  - by apply (consistent_frame (view w)).
  - by apply consistent_create_begin.
  - pose proof (consistent_create_resume posted now reply (view w) H) as Hc.
    by destruct (createTemperatureObservation_resume posted now reply (view w)).
  - done.
  - by apply consistent_reconcile_resume.
Qed.

Lemma consistent_reachable (w : world) :
  reachable w -> consistent (view w).
Proof.
  intros [now Hrtc]. revert w Hrtc. apply rtc_ind_r.
  - split; [done|]. by intros _ b.
  - intros w w' _ Hstep IH. by eapply consistent_step.
Qed.

Lemma loadMore_finish_page (moreData : option Bundle) (st : state) :
  currentPage (loadMore_finish moreData st) = S (currentPage st).
Proof.
  rewrite loadMore_finish_eq, (proj1 (update_others _)).
  by destruct moreData.
Qed.

Lemma windowSize_next (st st' : state) :
  currentPage st' = S (currentPage st) ->
  windowSize st' = (windowSize st + itemsPerPage)%nat.
Proof. unfold windowSize, itemsPerPage. intros ->. lia. Qed.

(** C7.  In every state the feed can reach, the window shows the first
    [windowSize] entries of the collection, so its length is the minimum
    of [windowSize] and the length of the collection, with [windowSize] =
    [(currentPage + 1) * itemsPerPage].  A call of [loadMore] that sends
    no request ends with [windowSize] one page larger; one that sends a
    request leaves [windowSize] as it is until the reply arrives, and the
    segment that handles the reply (success or failure) makes it one page
    larger. *)
Theorem window_invariant :
  (∀ w, reachable w ->
     displayedObservations (view w)
       = take (windowSize (view w)) (allObservations (view w)) ∧
     length (displayedObservations (view w))
       = (windowSize (view w) `min` length (allObservations (view w)))%nat) ∧
  (∀ st, windowSize st = ((currentPage st + 1) * itemsPerPage)%nat) ∧
  (∀ st,
     match loadMore_begin st with
     | (st', None) => windowSize st' = (windowSize st + itemsPerPage)%nat
     | (st', Some _) => windowSize st' = windowSize st
     end) ∧
  (∀ reply st,
     windowSize (loadMore_resume reply st)
       = (windowSize st + itemsPerPage)%nat).
Proof.
  split_and!.
  - intros w Hw. destruct (consistent_reachable w Hw) as [Hwin _].
    split; [exact Hwin|]. rewrite Hwin. apply length_take.
  - done.
  - intros st. unfold Feed.loadMore_begin, fetchMoreFromServer_begin.
    repeat case_match; simplify_eq/=; try done;
      by apply windowSize_next, loadMore_finish_page.
  - intros reply st. apply windowSize_next.
    destruct reply as [e|more].
    + by rewrite loadMore_resume_failed, loadMore_finish_page.
    + by rewrite loadMore_resume_ok, loadMore_finish_page.
Qed.

(** *** Pagination at the end of the data *)

Lemma hasMore_false (st : state) :
  hasMoreOnServer st = false ->
  (length (allObservations st) <= windowSize st)%nat ->
  hasMore st = false.
Proof.
  intros Hs Hl. unfold hasMore. rewrite Hs, orb_false_r.
  apply bool_decide_eq_false. unfold windowSize in Hl. lia.
Qed.

Lemma loadMore_at_end (st : state) :
  consistent st -> hasMoreOnServer st = false ->
  (length (allObservations st) <= windowSize st)%nat ->
  let r := loadMore_begin st in
  snd r = None ∧
  allObservations (fst r) = allObservations st ∧
  displayedObservations (fst r) = displayedObservations st ∧
  nextUrl (fst r) = nextUrl st ∧
  hasMoreOnServer (fst r) = false ∧
  currentPage (fst r) = S (currentPage st).
Proof.
  intros [Hw Hi] Hs Hl r.
  assert (Hr : r = (loadMore_finish None st, None)).
  { unfold r, Feed.loadMore_begin. by rewrite Hs, andb_false_r. }
  rewrite Hr. cbn [fst snd].
  assert (Hall : allObservations (loadMore_finish None st)
                 = allObservations st).
  { rewrite loadMore_finish_eq, update_all.
    change (allObservations (set_currentPage _ (mergeMore None st)))
      with (allObservations st).
    change (vitalObservations (set_currentPage _ (mergeMore None st)))
      with (vitalObservations st).
    destruct (allObservations st) eqn:Ha; [|done].
    destruct (vitalObservations st) as [b|] eqn:Hv; [|done].
    by rewrite (Hi Ha b Hv). }
  split_and!; [done|done| | | |].
  - rewrite loadMore_finish_eq, update_displayed.
    rewrite <- loadMore_finish_eq, Hall, Hw.
    rewrite !take_ge; [done|lia|]. unfold windowSize in *.
    change (currentPage (set_currentPage _ (mergeMore None st)))
      with (S (currentPage st)). lia.
  - rewrite loadMore_finish_eq. by rewrite (proj1 (proj2 (proj2 (update_others _)))).
  - rewrite loadMore_finish_eq.
    by rewrite (proj1 (proj2 (update_others _))).
  - apply loadMore_finish_page.
Qed.

(** C8.  In a reachable state where the server has no more pages and
    the window already covers the whole collection, any number of
    [loadMore] calls sends no request and changes neither the displayed
    entries, nor the collection, nor the server cursor; [hasMore] stays
    false; only the window size grows, by one page per call. *)
Theorem loadMore_exhausted (w : world) :
  reachable w ->
  hasMoreOnServer (view w) = false ->
  (length (allObservations (view w)) <= windowSize (view w))%nat ->
  ∀ n,
    let st' := loadMore_times n (view w) in
    hasMore st' = false ∧
    displayedObservations st' = displayedObservations (view w) ∧
    allObservations st' = allObservations (view w) ∧
    nextUrl st' = nextUrl (view w) ∧
    hasMoreOnServer st' = false ∧
    windowSize st' = (windowSize (view w) + n * itemsPerPage)%nat ∧
    snd (loadMore_begin st') = None.
Proof.
  intros Hreach. apply consistent_reachable in Hreach.
  generalize dependent (view w). clear w.
  intros st Hc Hs Hl n. revert st Hc Hs Hl.
  induction n as [|n IH]; intros st Hc Hs Hl; cbn [Feed.loadMore_times].
  - destruct (loadMore_at_end st Hc Hs Hl) as (Hnone & _).
    split_and!; [by apply hasMore_false|done..|lia|exact Hnone].
  - destruct (loadMore_at_end st Hc Hs Hl) as (_ & Ha & Hd & Hn & Hm & Hp).
    destruct (IH (fst (loadMore_begin st))) as (H1 & H2 & H3 & H4 & H5 & H6 & H7).
    + by apply consistent_loadMore_begin.
    + done.
    + rewrite Ha. unfold windowSize in *. rewrite Hp. lia.
    + split_and!; try congruence.
      rewrite H6, (windowSize_next st _ Hp). lia.
Qed.

(** *** Failures of a create *)

(** C9.  An input that is empty (falsy) or does not parse as a number is
    turned down before anything is sent: the validation error is set and every
    other variable of the component keeps its value.  When the POST
    fails, the collection, the displayed entries and the window are what
    they were, the error text is stored in [createError], the form keeps
    its visibility (an open form stays open) and no reconciliation is
    armed; nor did the segment that sent the POST touch the feed. *)
Theorem create_failures :
  (∀ st nowISO,
     JS.truthy_scalar (temperatureValue st) = false ∨
     JS.isNaN (JS.parseFloat (JS.ToString (temperatureValue st))) = true ->
     createTemperatureObservation_begin nowISO st =
       (set_form (showCreateForm st) (creating st)
          (Some "Please enter a valid temperature value")
          (createSuccess st) (temperatureValue st) st, None)) ∧
  (∀ w nowISO,
     JS.truthy_scalar (temperatureValue (view w)) = false ∨
     JS.isNaN (JS.parseFloat (JS.ToString (temperatureValue (view w)))) = true ->
     let w' := send (PendingCreate
                 (temperatureObservation (temperatureValue (view w)) nowISO))
                 (createTemperatureObservation_begin nowISO (view w)) w in
     sent w' = sent w ∧ inflight w' = inflight w ∧ timers w' = timers w ∧
     createError (view w') = Some "Please enter a valid temperature value" ∧
     allObservations (view w') = allObservations (view w) ∧
     displayedObservations (view w') = displayedObservations (view w) ∧
     currentPage (view w') = currentPage (view w) ∧
     vitalObservations (view w') = vitalObservations (view w) ∧
     nextUrl (view w') = nextUrl (view w) ∧
     hasMoreOnServer (view w') = hasMoreOnServer (view w)) ∧
  (∀ st nowISO,
     let st' := fst (createTemperatureObservation_begin nowISO st) in
     allObservations st' = allObservations st ∧
     displayedObservations st' = displayedObservations st ∧
     currentPage st' = currentPage st ∧
     showCreateForm st' = showCreateForm st) ∧
  (∀ st posted now err,
     let r := createTemperatureObservation_resume posted now (inl err) st in
     allObservations (fst r) = allObservations st ∧
     displayedObservations (fst r) = displayedObservations st ∧
     currentPage (fst r) = currentPage st ∧
     windowSize (fst r) = windowSize st ∧
     vitalObservations (fst r) = vitalObservations st ∧
     createError (fst r) = Some (createErrorText err) ∧
     showCreateForm (fst r) = showCreateForm st ∧
     creating (fst r) = false ∧
     snd r = false).
Proof.
  assert (Hinvalid : ∀ input,
    JS.truthy_scalar input = false ∨
    JS.isNaN (JS.parseFloat (JS.ToString input)) = true ->
    validTemperature input = false).
  { intros input [H | H]; unfold validTemperature; rewrite H; [done|].
    by rewrite andb_false_r. }
  split_and!.
  - intros st nowISO H. unfold Feed.createTemperatureObservation_begin.
    by rewrite (Hinvalid _ H).
  - intros w nowISO H w'. unfold w', Feed.createTemperatureObservation_begin.
    by rewrite (Hinvalid _ H).
  - intros st nowISO. unfold Feed.createTemperatureObservation_begin.
    by case_match.
  - done.
Qed.

(** *** Validation of a create *)

(** **** The value of the field through the segments *)












(** **** The validation of a create *)





End Viewer.

(** *** The properties at concrete inputs *)

(** C4, as stated, fails: a bundle whose first entry has no effective time
    and whose second entry has one initialises the collection with the
    undated entry in front of the dated one (every comparison with the
    undated entry is NaN, which the sort takes for equal); and two entries
    with the same time leave the collection not strictly descending. *)
Lemma undated_entry_not_last :
  let st := onMount_resume Sample.iso_parse 0
              (inr (Sample.bundleOf
                      [Sample.undatedEntry; Sample.newYearEntry] None))
              initial in
  let st2 := onMount_resume Sample.iso_parse 0
               (inr (Sample.bundleOf
                       [Sample.newYearEntry; Sample.newYearEntry] None))
               initial in
  allObservations st = [Sample.undatedEntry; Sample.newYearEntry] ∧
  effectiveTime Sample.iso_parse Sample.undatedEntry = None ∧
  effectiveTime Sample.iso_parse Sample.newYearEntry = Some 1704067200000 ∧
  ¬ StronglySorted (notOlder_undatedLast Sample.iso_parse)
      (allObservations st) ∧
  allObservations st2 = [Sample.newYearEntry; Sample.newYearEntry] ∧
  ¬ StronglySorted
      (λ a b, ∃ ta tb, effectiveTime Sample.iso_parse a = Some ta ∧
                       effectiveTime Sample.iso_parse b = Some tb ∧ tb < ta)
      (allObservations st2).
Proof.
  assert (H1 : effectiveTime Sample.iso_parse Sample.undatedEntry = None)
    by (by vm_compute).
  assert (H2 : effectiveTime Sample.iso_parse Sample.newYearEntry
               = Some 1704067200000) by (by vm_compute).
  assert (Ha : allObservations
      (onMount_resume Sample.iso_parse 0
         (inr (Sample.bundleOf [Sample.undatedEntry; Sample.newYearEntry] None))
         initial) = [Sample.undatedEntry; Sample.newYearEntry]).
  { by vm_compute. }
  assert (Hb : allObservations
      (onMount_resume Sample.iso_parse 0
         (inr (Sample.bundleOf [Sample.newYearEntry; Sample.newYearEntry] None))
         initial) = [Sample.newYearEntry; Sample.newYearEntry]).
  { by vm_compute. }
  cbv zeta. rewrite Ha, Hb. split_and!; try done.
  - intros Hs. apply StronglySorted_cons in Hs as [Hf _].
    apply Forall_cons in Hf as [Hf _].
    unfold notOlder_undatedLast in Hf. by rewrite H1, H2 in Hf.
  - intros Hs. apply StronglySorted_cons in Hs as [Hf _].
    apply Forall_cons in Hf as [(ta & tb & Hta & Htb & Hlt) _].
    rewrite H2 in Hta, Htb. simplify_eq. lia.
Qed.

Lemma bpDisplay_policy_witness :
  bpDisplay Sample.bloodPressureObs = "120/80 mmHg" ∧
  bpDisplay Sample.temperatureObs = "36.6 degC".
Proof.
  destruct (bpDisplay_policy Sample.bloodPressureObs) as (Hbp & _).
  destruct (bpDisplay_policy Sample.temperatureObs) as (_ & Hq & _).
  split.
  - rewrite (Hbp (Sample.quantity (JS.Fin false 120 0) "mmHg")
               (Sample.quantity (JS.Fin false 80 0) "mmHg")); [reflexivity|].
    eexists _, _, _. split_and!; [reflexivity|discriminate|reflexivity..].
  - destruct Hq as [Hq _].
    + intros s d (comps & cs & cd & Hc & _). discriminate Hc.
    + rewrite (Hq (Sample.quantity (JS.Fin false 366 (-1)) "degC"));
        reflexivity.
Defined.

Lemma sorted_when_dated_witness :
  let st := onMount_resume Sample.iso_parse 0 (inr Sample.firstPage) initial in
  let st2 := loadMore_resume Sample.iso_parse
               (inr (Sample.bundleOf [Sample.secondDayEntry] None))
               (view Sample.loaded) in
  allObservations st = [Sample.secondDayEntry; Sample.newYearEntry] ∧
  StronglySorted (notOlder Sample.iso_parse) (allObservations st) ∧
  StronglySorted (notOlder Sample.iso_parse) (allObservations st2).
Proof.
  assert (Hd : ∀ e, e = Sample.newYearEntry ∨ e = Sample.secondDayEntry ->
                    dated Sample.iso_parse e)
    by (intros e [-> | ->]; eexists; vm_compute; reflexivity).
  destruct (sorted_when_dated Sample.iso_parse) as [Hinit Hmerge].
  cbv zeta. split_and!.
  - vm_compute. reflexivity.
  - apply Hinit; [reflexivity|]. repeat constructor; apply Hd; auto.
  - apply Hmerge.
    + split.
      * change (allObservations (view Sample.loaded))
          with (JS.Array_sort (byDate Sample.iso_parse)
                  [Sample.newYearEntry; Sample.secondDayEntry]).
        rewrite JSFacts.Array_sort_perm. repeat constructor; apply Hd; auto.
      * intros b Hb. vm_compute in Hb. injection Hb as <-.
        repeat constructor; apply Hd; auto.
    + repeat constructor; apply Hd; auto.
Defined.

Lemma optimistic_create_witness :
  let st0 := typeTemperature "36.6" (view Sample.loaded) in
  let posted := temperatureObservation Sample.patientId
                  (temperatureValue st0) "2024-01-03T00:00:00.000Z" in
  let data := Some {| created_id := Some "obs-1" |} in
  let e := newEntry posted data 1704240000000 in
  let r := createTemperatureObservation_resume Sample.iso_parse posted
             1704240000000 (inr data) st0 in
  head (displayedObservations (fst r)) = Some e ∧
  cardName e = "Temperature Oral" ∧
  cardValue e = "36.6 degC" ∧
  resource e ≫= id = Some "obs-1".
Proof.
  destruct (optimistic_create Sample.accessToken Sample.patientId Sample.issuer
              Sample.iso_parse
              (typeTemperature "36.6" (view Sample.loaded))
              (typeTemperature "36.6" (view Sample.loaded))
              "2024-01-03T00:00:00.000Z" 1704240000000
              (Some {| created_id := Some "obs-1" |}))
    as (_ & _ & _ & Hhead & Hname & Hvalue & Hid & _);
    [vm_compute; reflexivity|].
  cbv zeta. split_and!; [exact Hhead|exact Hname| |exact Hid].
  rewrite Hvalue. vm_compute. reflexivity.
Defined.

Lemma reconciliation_witness :
  let st := reconcile_resume Sample.iso_parse 5 (inr Sample.firstPage)
              (view Sample.loaded) in
  currentPage st = 0%nat ∧ windowSize st = 20%nat ∧
  allObservations st ≡ₚ [Sample.newYearEntry; Sample.secondDayEntry].
Proof.
  destruct (reconciliation Sample.accessToken Sample.patientId Sample.issuer
              Sample.iso_parse) as (_ & _ & _ & H).
  destruct (H 5 Sample.firstPage (view Sample.loaded))
    as (_ & Hperm & Hpage & Hwin & _).
  cbv zeta. split_and!; [exact Hpage|exact Hwin|exact Hperm].
Defined.

Lemma loaded_reachable :
  reachable Sample.accessToken Sample.patientId Sample.issuer Sample.iso_parse
    Sample.loaded.
Proof.
  exists 0. eapply rtc_l; [|apply rtc_refl].
  apply (step_mount_reply _ _ _ _ Sample.booted 0 (inr Sample.firstPage) [] []).
  reflexivity.
Defined.

Lemma window_invariant_witness :
  length (displayedObservations (view Sample.loaded))
  = (windowSize (view Sample.loaded)
       `min` length (allObservations (view Sample.loaded)))%nat.
Proof.
  apply (proj1 (window_invariant Sample.accessToken Sample.patientId
                  Sample.issuer Sample.iso_parse)).
  exact loaded_reachable.
Defined.

Lemma loadMore_exhausted_witness :
  let st' := loadMore_times Sample.accessToken Sample.iso_parse 3
               (view Sample.loaded) in
  hasMore st' = false ∧
  displayedObservations st' = displayedObservations (view Sample.loaded) ∧
  allObservations st' = allObservations (view Sample.loaded) ∧
  windowSize st' = 80%nat.
Proof.
  destruct (loadMore_exhausted Sample.accessToken Sample.patientId
              Sample.issuer Sample.iso_parse Sample.loaded
              loaded_reachable eq_refl) with (n := 3%nat)
    as (Hmore & Hd & Ha & _ & _ & Hw & _).
  - vm_compute. lia.
  - cbv zeta. split_and!; [exact Hmore|exact Hd|exact Ha|exact Hw].
Defined.

Lemma create_failures_witness :
  createTemperatureObservation_begin Sample.accessToken Sample.patientId
    Sample.issuer "2024-01-03T00:00:00.000Z"
    (typeTemperature "" (view Sample.loaded)) =
  (set_form false false (Some "Please enter a valid temperature value")
     false JS.Null (typeTemperature "" (view Sample.loaded)), None).
Proof.
  apply (proj1 (create_failures Sample.accessToken Sample.patientId
                  Sample.issuer Sample.iso_parse)).
  left. reflexivity.
Defined.



End FeedSpec.

(** ** The launch controller: further properties *)

Module LaunchMore.
Import Launch MoreProps.

(** *** Query parameters *)

Lemma get_remove_other (name m : string) (l : list (string * string)) :
  name ≠ m ->
  searchParams_get m (remove_param name l) = searchParams_get m l.
Proof.
  intros Hne. induction l as [|[n x] l IH]; [done|].
  unfold remove_param in *. simpl.
  destruct (String.eqb_spec n name) as [->|Hn]; simpl.
  - apply String.eqb_neq in Hne. by rewrite Hne.
  - by rewrite IH.
Qed.

Lemma occurrences_remove_same (name : string) (l : list (string * string)) :
  occurrences name (remove_param name l) = 0%nat.
Proof.
  induction l as [|[n x] l IH]; [done|].
  unfold occurrences, remove_param in *. simpl.
  destruct (String.eqb n name) eqn:Hn; simpl; [done|]. by rewrite Hn.
Qed.

Lemma occurrences_remove_other (name m : string) (l : list (string * string)) :
  name ≠ m -> occurrences m (remove_param name l) = occurrences m l.
Proof.
  intros Hne. induction l as [|[n x] l IH]; [done|].
  unfold occurrences, remove_param in *. simpl.
  destruct (String.eqb_spec n name) as [->|Hn]; simpl.
  - apply String.eqb_neq in Hne. by rewrite Hne.
  - destruct (String.eqb n m); simpl; by rewrite IH.
Qed.

Lemma get_set_same (name v : string) (l : list (string * string)) :
  searchParams_get name (searchParams_set name v l) = Some v.
Proof.
  induction l as [|[n x] l IH]; simpl; [by rewrite String.eqb_refl|].
  destruct (String.eqb n name) eqn:Hn; simpl.
  - by rewrite String.eqb_refl.
  - by rewrite Hn.
Qed.

Lemma get_set_other (name m v : string) (l : list (string * string)) :
  name ≠ m ->
  searchParams_get m (searchParams_set name v l) = searchParams_get m l.
Proof.
  intros Hne. pose proof Hne as Hb. apply String.eqb_neq in Hb.
  induction l as [|[n x] l IH]; simpl; [by rewrite Hb|].
  destruct (String.eqb_spec n name) as [->|Hn]; simpl.
  - rewrite Hb. by apply get_remove_other.
  - by rewrite IH.
Qed.

Lemma occurrences_set_same (name v : string) (l : list (string * string)) :
  occurrences name (searchParams_set name v l) = 1%nat.
Proof.
  induction l as [|[n x] l IH]; simpl.
  - unfold occurrences. simpl. by rewrite String.eqb_refl.
  - destruct (String.eqb n name) eqn:Hn.
    + change (occurrences name ((name, v) :: remove_param name l) = 1%nat).
      unfold occurrences. simpl. rewrite String.eqb_refl. simpl.
      f_equal. apply occurrences_remove_same.
    + unfold occurrences in *. simpl. by rewrite Hn.
Qed.

Lemma occurrences_set_other (name m v : string) (l : list (string * string)) :
  name ≠ m ->
  occurrences m (searchParams_set name v l) = occurrences m l.
Proof.
  intros Hne. pose proof Hne as Hb. apply String.eqb_neq in Hb.
  induction l as [|[n x] l IH]; simpl.
  - unfold occurrences. simpl. by rewrite Hb.
  - destruct (String.eqb_spec n name) as [->|Hn].
    + unfold occurrences. simpl. rewrite Hb.
      by apply occurrences_remove_other.
    + unfold occurrences in *. simpl. destruct (String.eqb n m); simpl;
        by rewrite IH.
Qed.

Lemma set_param_get (name m v : string) (u : URL) :
  searchParams_get m (searchParams (set_param name v u)) =
    if decide (name = m) then Some v else searchParams_get m (searchParams u).
Proof.
  unfold set_param; simpl. case_decide as H.
  - subst. apply get_set_same.
  - by apply get_set_other.
Qed.

Lemma set_param_occurrences (name m v : string) (u : URL) :
  occurrences m (searchParams (set_param name v u)) =
    if decide (name = m) then 1%nat else occurrences m (searchParams u).
Proof.
  unfold set_param; simpl. case_decide as H.
  - subst. apply occurrences_set_same.
  - by apply occurrences_set_other.
Qed.

(** X1.  The authorization address keeps the endpoint's own address and
    carries each of the six parameters of the authorization request
    exactly once, with the value of this launch, whatever query the
    endpoint already had; every other parameter of the endpoint is kept. *)
Theorem authUrl_parameters (URL_parse : string -> option URL)
    (endpoint : option string) (launch iss : string) (url : URL) :
  URL_parse (to_text endpoint) = Some url ->
  ∃ target,
    constructAuthUrl URL_parse endpoint launch iss = Some target ∧
    location target = location url ∧
    (∀ n v, (n, v) ∈ authParams launch iss ->
       searchParams_get n (searchParams target) = Some v ∧
       occurrences n (searchParams target) = 1%nat) ∧
    (∀ m, m ∉ (authParams launch iss).*1 ->
       searchParams_get m (searchParams target)
         = searchParams_get m (searchParams url) ∧
       occurrences m (searchParams target) = occurrences m (searchParams url)).
Proof.
  intros Hurl. unfold constructAuthUrl. rewrite Hurl. simpl.
  eexists. split; [reflexivity|]. split; [reflexivity|]. split.
  - intros n v Hin. unfold authParams in Hin.
    repeat (apply elem_of_cons in Hin as [[= -> ->]|Hin]);
      [..|by apply elem_of_nil in Hin];
      rewrite !set_param_get, !set_param_occurrences;
      repeat (case_decide; try done).
  - intros m Hm. unfold authParams in Hm. simpl in Hm.
    rewrite !not_elem_of_cons in Hm.
    destruct Hm as (? & ? & ? & ? & ? & ? & _).
    rewrite !set_param_get, !set_param_occurrences.
    repeat (case_decide; [congruence|]). done.
Qed.


(** *** The store *)

Section Controller.
Variable JSON_parse : string -> option JSON.value.
Variable JSON_stringify : JSON.value -> string.
Variable URL_parse : string -> option URL.
Variable post_token : string -> list (string * string) -> string + JSON.value.
Variable get_configuration : string -> string + smartConfiguration.

Local Abbreviation establish :=
  (establish JSON_stringify URL_parse post_token get_configuration).
Local Abbreviation authorize := (authorize URL_parse get_configuration).
Local Abbreviation resolveSession :=
  (resolveSession JSON_parse JSON_stringify URL_parse post_token
     get_configuration).
Local Abbreviation onMount :=
  (onMount JSON_parse JSON_stringify URL_parse post_token get_configuration).

Lemma detect_fresh (u : launchUrl) (store : gmap string string) :
  token (detectNewLaunch u (pageLoad store)) = None ∧
  baseUrl (detectNewLaunch u (pageLoad store)) = None.
Proof. unfold detectNewLaunch. by repeat case_match. Qed.

Lemma detect_absent (u : launchUrl) (st : session) :
  JS.truthy (issParam u) = false ∨ JS.truthy (launchParam u) = false ->
  detectNewLaunch u st = st.
Proof.
  unfold detectNewLaunch.
  destruct (issParam u) as [i|], (launchParam u) as [l|]; simpl; try done.
  intros [-> | ->]; by rewrite ?andb_false_r.
Qed.

Lemma detect_token_absent (u : launchUrl) (st : session) :
  getItem "token" st = None ->
  getItem "token" (detectNewLaunch u st) = None.
Proof.
  intros H. unfold detectNewLaunch, getItem in *.
  repeat case_match; simpl; try done;
    rewrite lookup_insert_ne by done; try done.
  by rewrite !lookup_delete_ne, lookup_delete_eq by done.
Qed.

Lemma detect_frame (u : launchUrl) (st : session) (k : string) :
  k ∉ ownKeys -> getItem k (detectNewLaunch u st) = getItem k st.
Proof.
  unfold ownKeys. rewrite !not_elem_of_cons. intros (? & ? & ? & ? & _).
  unfold detectNewLaunch, getItem.
  repeat case_match; simpl; try done;
    rewrite lookup_insert_ne by done; try done.
  by rewrite !lookup_delete_ne by done.
Qed.

Lemma resolve_frame (u : launchUrl) (st : session) (k : string) :
  k ∉ ownKeys -> getItem k (fst (resolveSession u st)) = getItem k st.
Proof.
  unfold ownKeys. rewrite !not_elem_of_cons. intros (? & ? & ? & ? & _).
  unfold Launch.resolveSession, Launch.establish, Launch.authorize,
    makeTokenRequest, loadToken, loadBaseUrl, getItem.
  repeat (case_match; simplify_option_eq; try done);
    by rewrite ?lookup_insert_ne by done.
Qed.

(** X2.  A page load reads and writes four keys of the store and no
    other: every other key keeps its value, whatever the URL, the store and
    the servers' answers are. *)
Theorem onMount_other_keys (u : launchUrl) (st : session) (k : string) :
  k ∉ ownKeys -> getItem k (fst (onMount u st)) = getItem k st.
Proof.
  intros Hk. unfold Launch.onMount.
  by rewrite resolve_frame, detect_frame.
Qed.

(** Without a token in the store, a fresh page has none in memory. *)
Lemma load_without_token (st : session) :
  token st = None -> JS.truthy (getItem "token" st) = false ->
  loadToken JSON_parse (loadBaseUrl st) = Some (loadBaseUrl st) ∧
  token_truthy (loadBaseUrl st) = false.
Proof.
  intros Ht Hs.
  assert (Hl : getItem "token" (loadBaseUrl st) = getItem "token" st)
    by (unfold loadBaseUrl; by case_match).
  assert (Hm : token (loadBaseUrl st) = None)
    by (unfold loadBaseUrl; by case_match).
  split.
  - unfold loadToken. rewrite Hl.
    destruct (getItem "token" st) as [text|]; [|done].
    simpl in Hs. by rewrite Hs.
  - unfold token_truthy. by rewrite Hm.
Qed.

Lemma resolve_without_token (u : launchUrl) (st : session) :
  token st = None -> JS.truthy (getItem "token" st) = false ->
  resolveSession u st = establish u (loadBaseUrl st).
Proof.
  intros Ht Hs. unfold Launch.resolveSession.
  destruct (load_without_token st Ht Hs) as [-> ->]. done.
Qed.

(** X3.  With no token in the store, no [code] in the URL and the issuer
    or the launch parameter missing (or empty), the load stops with the
    configuration error and leaves the store as it was. *)
Theorem missing_parameters (u : launchUrl) (store : gmap string string) :
  JS.truthy (store !! "token") = false ->
  JS.truthy (code u) = false ->
  JS.truthy (issParam u) = false ∨ JS.truthy (launchParam u) = false ->
  snd (onMount u (pageLoad store)) = Threw "ISS or Launch parameter is missing." ∧
  localStorage (fst (onMount u (pageLoad store))) = store.
Proof.
  intros Ht Hc Hp. unfold Launch.onMount.
  rewrite (detect_absent u _ Hp), resolve_without_token by done.
  unfold Launch.establish. rewrite Hc.
  assert (Hs : localStorage (loadBaseUrl (pageLoad store)) = store)
    by (unfold loadBaseUrl; by case_match).
  destruct (issParam u) as [i|], (launchParam u) as [l|]; simpl in *;
    try done.
  destruct Hp as [-> | ->]; by rewrite ?andb_false_r.
Qed.

(** X4.  A [code] in the URL with no token and no token endpoint in the
    store is a configuration error: the load stops with it, nothing is
    posted and nothing is written after the new-launch step. *)
Theorem exchange_without_endpoint (u : launchUrl) (store : gmap string string) :
  let st1 := detectNewLaunch u (pageLoad store) in
  JS.truthy (getItem "token" st1) = false ->
  JS.truthy (getItem "tokenEndpoint" st1) = false ->
  JS.truthy (code u) = true ->
  onMount u (pageLoad store) =
    (loadBaseUrl st1, Threw "Token endpoint is not in local storage.") ∧
  localStorage (loadBaseUrl st1) = localStorage st1.
Proof.
  intros st1 Ht He Hc. unfold Launch.onMount. fold st1.
  rewrite resolve_without_token; [|apply detect_fresh|done].
  assert (Hs : localStorage (loadBaseUrl st1) = localStorage st1)
    by (unfold loadBaseUrl; by case_match).
  split; [|done].
  unfold Launch.establish, makeTokenRequest, getItem in *.
  rewrite Hc, Hs.
  destruct (localStorage st1 !! "tokenEndpoint") as [te|]; [|done].
  simpl in He. by rewrite He.
Qed.

(** X5.  A launch that supersedes a stored one never ends in the stored
    session and never in an exchange: the old token is gone from the store
    and from memory, and a [code] that comes with the new launch is
    refused for want of a token endpoint. *)
Theorem takeover_forces_authorization (u : launchUrl)
    (store : gmap string string) (iss launch stored : string) :
  issParam u = Some iss -> launchParam u = Some launch ->
  iss ≠ "" -> launch ≠ "" ->
  store !! "currentLaunch" = Some stored -> stored ≠ "" ->
  stored ≠ currentLaunchKey iss launch ->
  let r := onMount u (pageLoad store) in
  snd r ≠ Restored ∧ snd r ≠ Exchanged ∧
  getItem "token" (fst r) = None ∧ token (fst r) = None ∧
  (JS.truthy (code u) = true ->
   snd r = Threw "Token endpoint is not in local storage.").
Proof.
  intros Hi Hl Hin Hln Hs Hsn Hd r.
  set (st1 := detectNewLaunch u (pageLoad store)).
  assert (Hst1 : st1 = setItem "currentLaunch" (currentLaunchKey iss launch)
                         (clearAuthData (pageLoad store))).
  { unfold st1, detectNewLaunch. rewrite Hi, Hl.
    apply JSFacts.truthy_string_true in Hin, Hln, Hsn.
    apply String.eqb_neq in Hd.
    unfold getItem; simpl. by rewrite Hin, Hln, Hs, Hsn, Hd. }
  assert (Htok : getItem "token" st1 = None)
    by (rewrite Hst1; unfold getItem; simpl; by simplify_map_eq).
  assert (Hend : getItem "tokenEndpoint" st1 = None)
    by (rewrite Hst1; unfold getItem; simpl; by simplify_map_eq).
  assert (Hiss : getItem "iss" st1 = None)
    by (rewrite Hst1; unfold getItem; simpl; by simplify_map_eq).
  assert (Hb : loadBaseUrl st1 = st1)
    by (unfold loadBaseUrl; by rewrite Hiss).
  assert (Hr : r = establish u st1).
  { unfold r, Launch.onMount. fold st1.
    rewrite resolve_without_token; [by rewrite Hb|by rewrite Hst1|].
    by rewrite Htok. }
  rewrite Hr. unfold Launch.establish, makeTokenRequest.
  rewrite Hend, Hi, Hl.
  apply JSFacts.truthy_string_true in Hin, Hln. rewrite Hin, Hln. simpl.
  assert (Hmem : token st1 = None) by (by rewrite Hst1).
  destruct (JS.truthy (code u)); simpl.
  - by split_and!.
  - unfold Launch.authorize.
    destruct (get_configuration _) as [e|cfg]; simpl;
      [|destruct (constructAuthUrl _ _ _ _); simpl];
      (split_and!; try done); unfold getItem; simpl;
      rewrite ?lookup_insert_ne by done; exact Htok.
Qed.

(** *** From the launch to the restored session *)

(** The launch page of a store without a token reaches the discovery. *)
Lemma launch_page_authorizes (iss launch : string)
    (store : gmap string string) :
  iss ≠ "" -> launch ≠ "" -> store !! "token" = None ->
  let u := {| issParam := Some iss; launchParam := Some launch;
              code := None |} in
  let st1 := detectNewLaunch u (pageLoad store) in
  onMount u (pageLoad store) = authorize iss launch (loadBaseUrl st1) ∧
  localStorage (loadBaseUrl st1) = localStorage st1 ∧
  getItem "token" st1 = None.
Proof.
  intros Hin Hln Ht u st1.
  assert (Htok : getItem "token" st1 = None)
    by (by apply detect_token_absent).
  split_and!; [|unfold loadBaseUrl; by case_match|done].
  unfold Launch.onMount. fold st1.
  rewrite resolve_without_token; [|apply detect_fresh|by rewrite Htok].
  unfold Launch.establish. simpl.
  apply JSFacts.truthy_string_true in Hin, Hln. by rewrite Hin, Hln.
Qed.

(** The callback page over a store with an issuer and a token endpoint and
    without a token posts the code to that endpoint. *)
Lemma callback_page_exchanges (c iss te : string)
    (store : gmap string string) :
  c ≠ "" -> iss ≠ "" -> te ≠ "" ->
  store !! "token" = None -> store !! "iss" = Some iss ->
  store !! "tokenEndpoint" = Some te ->
  let u := {| issParam := None; launchParam := None; code := Some c |} in
  onMount u (pageLoad store) =
    match post_token te (tokenForm c) with
    | inl e => (set_baseUrl (Some iss) (pageLoad store), Threw e)
    | inr v =>
        (setItem "token" (JSON_stringify v)
           (set_token (Some v) (set_baseUrl (Some iss) (pageLoad store))),
         Exchanged)
    end.
Proof.
  intros Hc Hi He Ht Hs Hte u.
  apply JSFacts.truthy_string_true in Hc, Hi, He.
  unfold Launch.onMount. rewrite detect_absent by (by left).
  assert (Hb : loadBaseUrl (pageLoad store)
               = set_baseUrl (Some iss) (pageLoad store)).
  { unfold loadBaseUrl, getItem; simpl. rewrite Hs; simpl. by rewrite Hi. }
  rewrite resolve_without_token;
    [|done|unfold getItem; simpl; by rewrite Ht].
  rewrite Hb. unfold Launch.establish, makeTokenRequest, getItem; simpl.
  by rewrite Hc, Hte, He.
Qed.

(** X6.  The whole handshake.  The launch page stores the issuer and the
    token endpoint of the discovery document and redirects; the callback
    page posts its code to that endpoint and stores the token it gets; the
    next load of the page restores that very token and the issuer without
    writing anything, provided the JSON codec gives back what it wrote. *)
Theorem launch_round_trip (iss launch c te : string)
    (store : gmap string string) (cfg : smartConfiguration) (url : URL)
    (v : JSON.value) :
  iss ≠ "" -> launch ≠ "" -> c ≠ "" -> te ≠ "" ->
  store !! "token" = None ->
  get_configuration (iss +:+ "/.well-known/smart-configuration") = inr cfg ->
  token_endpoint cfg = Some te ->
  URL_parse (to_text (authorization_endpoint cfg)) = Some url ->
  post_token te (tokenForm c) = inr v ->
  JSON_parse (JSON_stringify v) = Some v ->
  JSON_stringify v ≠ "" -> JSON.truthy v = true ->
  let launchPage := {| issParam := Some iss; launchParam := Some launch;
                       code := None |} in
  let callbackPage := {| issParam := None; launchParam := None;
                         code := Some c |} in
  let r1 := onMount launchPage (pageLoad store) in
  let r2 := onMount callbackPage (pageLoad (localStorage (fst r1))) in
  let r3 := onMount callbackPage (pageLoad (localStorage (fst r2))) in
  (∃ target, snd r1 = Redirected target ∧
     searchParams_get "aud" (searchParams target) = Some iss ∧
     searchParams_get "launch" (searchParams target) = Some launch) ∧
  getItem "iss" (fst r1) = Some iss ∧
  getItem "tokenEndpoint" (fst r1) = Some te ∧
  snd r2 = Exchanged ∧ token (fst r2) = Some v ∧
  baseUrl (fst r2) = Some iss ∧
  getItem "token" (fst r2) = Some (JSON_stringify v) ∧
  snd r3 = Restored ∧ token (fst r3) = Some v ∧
  baseUrl (fst r3) = Some iss ∧
  localStorage (fst r3) = localStorage (fst r2).
Proof.
  intros Hin Hln Hcn Hten Ht Hcfg Hte Hurl Hpost Hcodec Hsn Htr
    launchPage callbackPage r1 r2 r3.
  destruct (launch_page_authorizes iss launch store Hin Hln Ht)
    as (Hr1 & Hls & Htok).
  fold launchPage in Hr1, Hls, Htok. fold r1 in Hr1.
  set (st1 := detectNewLaunch launchPage (pageLoad store)) in *.
  assert (Htarget : ∃ target,
            constructAuthUrl URL_parse (authorization_endpoint cfg) launch iss
              = Some target ∧
            searchParams_get "aud" (searchParams target) = Some iss ∧
            searchParams_get "launch" (searchParams target) = Some launch).
  { unfold constructAuthUrl. rewrite Hurl. simpl. eexists.
    split; [reflexivity|]. rewrite !set_param_get.
    split; repeat (case_decide; try done). }
  destruct Htarget as (target & Htarget & Haud & Hlaunch).
  assert (Hr1' : r1 = (setItem "tokenEndpoint" te
                         (setItem "iss" iss (loadBaseUrl st1)),
                       Redirected target)).
  { rewrite Hr1. unfold Launch.authorize. by rewrite Hcfg, Hte, Htarget. }
  set (store1 := localStorage (fst r1)).
  assert (Hstore1 : store1 = <["tokenEndpoint" := te]>
                      (<["iss" := iss]> (localStorage st1))).
  { unfold store1. rewrite Hr1'. simpl. by rewrite Hls. }
  assert (H1tok : store1 !! "token" = None).
  { rewrite Hstore1, !lookup_insert_ne by done. exact Htok. }
  assert (H1iss : store1 !! "iss" = Some iss).
  { rewrite Hstore1, lookup_insert_ne by done. apply lookup_insert_eq. }
  assert (H1te : store1 !! "tokenEndpoint" = Some te).
  { rewrite Hstore1. apply lookup_insert_eq. }
  pose proof (callback_page_exchanges c iss te store1 Hcn Hin Hten
                H1tok H1iss H1te) as Hr2.
  rewrite Hpost in Hr2. cbv zeta in Hr2.
  change (onMount _ (pageLoad store1)) with r2 in Hr2.
  set (store2 := localStorage (fst r2)).
  assert (Hstore2 : store2 = <["token" := JSON_stringify v]> store1).
  { unfold store2. by rewrite Hr2. }
  assert (H2iss : store2 !! "iss" = Some iss).
  { rewrite Hstore2, lookup_insert_ne by done. exact H1iss. }
  assert (H2tok : store2 !! "token" = Some (JSON_stringify v)).
  { rewrite Hstore2. apply lookup_insert_eq. }
  assert (Hr3 : r3 = (set_token (Some v)
                        (set_baseUrl (Some iss) (pageLoad store2)),
                      Restored)).
  { unfold r3, Launch.onMount. fold store2.
    clearbody store2 r2 store1 r1.
    rewrite detect_absent by (by left).
    apply JSFacts.truthy_string_true in Hin, Hsn.
    unfold Launch.resolveSession, loadBaseUrl, loadToken, getItem; simpl.
    rewrite H2iss; simpl. rewrite Hin; simpl. rewrite H2tok, Hsn, Hcodec.
    simpl. unfold token_truthy; simpl. by rewrite Htr. }
  clearbody r3 store2 r2 store1 r1.
  split_and!.
  - exists target. by rewrite Hr1'.
  - rewrite Hr1'. unfold getItem; simpl.
    rewrite lookup_insert_ne by done. apply lookup_insert_eq.
  - rewrite Hr1'. unfold getItem; simpl. apply lookup_insert_eq.
  - by rewrite Hr2.
  - by rewrite Hr2.
  - by rewrite Hr2.
  - rewrite Hr2. unfold getItem; simpl. apply lookup_insert_eq.
  - by rewrite Hr3.
  - by rewrite Hr3.
  - by rewrite Hr3.
  - by rewrite Hr3.
Qed.

(** X7.  A discovery document without a token endpoint does not stop the
    launch: the text [undefined] is stored as the endpoint, and the
    callback page then posts its code to that address instead of reporting
    the missing endpoint. *)
Theorem undefined_token_endpoint (iss launch c : string)
    (store : gmap string string) (cfg : smartConfiguration) (url : URL) :
  iss ≠ "" -> launch ≠ "" -> c ≠ "" ->
  store !! "token" = None ->
  get_configuration (iss +:+ "/.well-known/smart-configuration") = inr cfg ->
  token_endpoint cfg = None ->
  URL_parse (to_text (authorization_endpoint cfg)) = Some url ->
  let launchPage := {| issParam := Some iss; launchParam := Some launch;
                       code := None |} in
  let callbackPage := {| issParam := None; launchParam := None;
                         code := Some c |} in
  let r1 := onMount launchPage (pageLoad store) in
  let r2 := onMount callbackPage (pageLoad (localStorage (fst r1))) in
  (∃ target, snd r1 = Redirected target) ∧
  getItem "tokenEndpoint" (fst r1) = Some "undefined" ∧
  snd r2 = match post_token "undefined" (tokenForm c) with
           | inl e => Threw e
           | inr _ => Exchanged
           end.
Proof.
  intros Hin Hln Hcn Ht Hcfg Hte Hurl launchPage callbackPage r1 r2.
  destruct (launch_page_authorizes iss launch store Hin Hln Ht)
    as (Hr1 & Hls & Htok).
  fold launchPage in Hr1, Hls, Htok. fold r1 in Hr1.
  set (st1 := detectNewLaunch launchPage (pageLoad store)) in *.
  assert (Hr1' : ∃ target,
            r1 = (setItem "tokenEndpoint" "undefined"
                    (setItem "iss" iss (loadBaseUrl st1)),
                  Redirected target)).
  { rewrite Hr1. unfold Launch.authorize, constructAuthUrl.
    rewrite Hcfg, Hte, Hurl. simpl. by eexists. }
  destruct Hr1' as [target Hr1'].
  set (store1 := localStorage (fst r1)).
  assert (Hstore1 : store1 = <["tokenEndpoint" := "undefined"]>
                      (<["iss" := iss]> (localStorage st1))).
  { unfold store1. rewrite Hr1'. simpl. by rewrite Hls. }
  assert (H1tok : store1 !! "token" = None).
  { rewrite Hstore1, !lookup_insert_ne by done. exact Htok. }
  assert (H1iss : store1 !! "iss" = Some iss).
  { rewrite Hstore1, lookup_insert_ne by done. apply lookup_insert_eq. }
  assert (H1te : store1 !! "tokenEndpoint" = Some "undefined").
  { rewrite Hstore1. apply lookup_insert_eq. }
  pose proof (callback_page_exchanges c iss "undefined" store1 Hcn Hin
                ltac:(done) H1tok H1iss H1te) as Hr2.
  cbv zeta in Hr2.
  change (onMount _ (pageLoad store1)) with r2 in Hr2.
  clearbody r2 store1 r1.
  split_and!.
  - exists target. by rewrite Hr1'.
  - rewrite Hr1'. unfold getItem; simpl. apply lookup_insert_eq.
  - rewrite Hr2. by destruct (post_token _ _).
Qed.

(** X8.  When the discovery fails, or the authorization endpoint is not an
    address, the load stops with an error after the issuer is stored: the
    store then holds the new issuer, and no token. *)
Theorem authorization_failure (iss launch : string)
    (store : gmap string string) :
  iss ≠ "" -> launch ≠ "" -> store !! "token" = None ->
  let launchPage := {| issParam := Some iss; launchParam := Some launch;
                       code := None |} in
  let r := onMount launchPage (pageLoad store) in
  (∀ e, get_configuration (iss +:+ "/.well-known/smart-configuration") = inl e ->
     snd r = Threw e ∧ getItem "iss" (fst r) = Some iss ∧
     getItem "token" (fst r) = None ∧
     getItem "tokenEndpoint" (fst r)
       = getItem "tokenEndpoint" (detectNewLaunch launchPage (pageLoad store))) ∧
  (∀ cfg, get_configuration (iss +:+ "/.well-known/smart-configuration") = inr cfg ->
     URL_parse (to_text (authorization_endpoint cfg)) = None ->
     snd r = Threw "Invalid URL" ∧ getItem "iss" (fst r) = Some iss ∧
     getItem "token" (fst r) = None ∧
     getItem "tokenEndpoint" (fst r) = Some (to_text (token_endpoint cfg))).
Proof.
  intros Hin Hln Ht launchPage r.
  destruct (launch_page_authorizes iss launch store Hin Hln Ht)
    as (Hr1 & Hls & Htok).
  fold launchPage in Hr1, Hls, Htok. fold r in Hr1.
  set (st1 := detectNewLaunch launchPage (pageLoad store)) in *.
  split.
  - intros e He. rewrite Hr1. unfold Launch.authorize. rewrite He.
    unfold getItem in *; simpl. rewrite Hls.
    split_and!; [done|apply lookup_insert_eq|..];
      by rewrite lookup_insert_ne by done.
  - intros cfg Hcfg Hurl. rewrite Hr1.
    unfold Launch.authorize, constructAuthUrl. rewrite Hcfg, Hurl.
    unfold getItem in *; simpl. rewrite Hls.
    split_and!; [done| | |apply lookup_insert_eq].
    + rewrite lookup_insert_ne by done. apply lookup_insert_eq.
    + by rewrite !lookup_insert_ne by done.
Qed.

Lemma detect_idempotent (u : launchUrl) (st : session) :
  detectNewLaunch u (detectNewLaunch u st) = detectNewLaunch u st.
Proof.
  destruct (issParam u) as [iss|] eqn:Hi;
    [|unfold detectNewLaunch; by rewrite Hi].
  destruct (launchParam u) as [launch|] eqn:Hl;
    [|unfold detectNewLaunch; by rewrite Hi, Hl].
  destruct (JS.truthy_string iss && JS.truthy_string launch)%bool eqn:Hb;
    [|unfold detectNewLaunch; by rewrite Hi, Hl, Hb].
  apply (LaunchSpec.detectNewLaunch_same u _ iss launch Hi Hl).
  unfold detectNewLaunch at 1. rewrite Hi, Hl, Hb.
  unfold getItem, setItem; simpl. apply lookup_insert_eq.
Qed.

(** The new-launch step either keeps the stored token or removes it, and
    it removes it exactly for a launch whose key differs from the stored
    one. *)
Lemma detect_token (u : launchUrl) (store : gmap string string) :
  let st1 := detectNewLaunch u (pageLoad store) in
  (getItem "token" st1 = store !! "token" ∧ ¬ supersedes u store) ∨
  (getItem "token" st1 = None ∧ getItem "tokenEndpoint" st1 = None ∧
   supersedes u store).
Proof.
  unfold supersedes, detectNewLaunch, getItem. simpl.
  destruct (issParam u) as [iss|]; [|left; split; [done|]; by intros (?&?&?&?&_)].
  destruct (launchParam u) as [launch|];
    [|left; split; [done|]; by intros (?&?&?&_&?&_)].
  destruct (JS.truthy_string iss && JS.truthy_string launch)%bool eqn:Hb.
  2:{ left. split; [done|]. intros (i & l & s & [= <-] & [= <-] & Hi & Hl & _).
      apply JSFacts.truthy_string_true in Hi, Hl. by rewrite Hi, Hl in Hb. }
  apply andb_true_iff in Hb as [Hi Hl].
  apply JSFacts.truthy_string_true in Hi, Hl.
  destruct (store !! "currentLaunch") as [stored|] eqn:Hs; simpl.
  2:{ left. rewrite lookup_insert_ne by done. split; [done|].
      by intros (?&?&?&_&_&_&_&?&_). }
  destruct (JS.truthy_string stored) eqn:Ht; simpl.
  2:{ left. rewrite lookup_insert_ne by done. split; [done|].
      intros (?&?&s&_&_&_&_&[= <-]&Hne&_).
      apply JSFacts.truthy_string_true in Hne. congruence. }
  destruct (String.eqb_spec stored (currentLaunchKey iss launch)) as [He|He];
    simpl.
  - left. rewrite lookup_insert_ne by done. split; [done|].
    intros (i&l&s&[= <-]&[= <-]&_&_&[= <-]&_&Hne). done.
  - right. rewrite !lookup_insert_ne by done.
    rewrite !lookup_delete_ne, lookup_delete_eq by done.
    rewrite lookup_delete_ne, lookup_delete_eq by done.
    split_and!; [done..|].
    exists iss, launch, stored. split_and!; try done.
    by apply JSFacts.truthy_string_true.
Qed.

(** X9.  A stored token that is not JSON stops the load with the parse
    error, and the store is left as the new-launch step left it: the next
    load of the same address stops in the same way.  Only a launch with
    another key clears the token: after a load the token is gone from the
    store exactly when the launch superseded the stored one, and in every
    other case it is still there and the load has stopped with the parse
    error. *)
Theorem corrupt_token_persists (u : launchUrl) (store : gmap string string)
    (text : string) :
  text ≠ "" -> JSON_parse text = None ->
  let st1 := detectNewLaunch u (pageLoad store) in
  let r := onMount u (pageLoad store) in
  (getItem "token" st1 = Some text ->
   snd r = Threw "SyntaxError" ∧
   localStorage (fst r) = localStorage st1 ∧
   token (fst r) = None ∧
   onMount u (pageLoad (localStorage (fst r))) = r) ∧
  (store !! "token" = Some text ->
   (¬ supersedes u store ->
    getItem "token" st1 = Some text ∧
    getItem "token" (fst r) = Some text ∧
    snd r = Threw "SyntaxError") ∧
   (supersedes u store ->
    getItem "token" st1 = None ∧
    getItem "token" (fst r) = None ∧
    token (fst r) = None ∧
    snd r ≠ Restored ∧ snd r ≠ Exchanged) ∧
   (getItem "token" (fst r) = None <-> supersedes u store)).
Proof.
  intros Hne Hp st1 r.
  destruct (detect_fresh u store) as [Hmem Hbase].
  fold st1 in Hmem, Hbase.
  destruct (LaunchSpec.loadBaseUrl_store st1) as [Hls Hlt].
  assert (Hr : ∀ st, st = st1 -> getItem "token" st1 = Some text ->
                 resolveSession u st = (loadBaseUrl st1, Threw "SyntaxError")).
  { intros st -> Ht. unfold Launch.resolveSession, loadToken.
    assert (getItem "token" (loadBaseUrl st1) = Some text) as ->
      by (unfold getItem in *; by rewrite Hls).
    apply JSFacts.truthy_string_true in Hne. by rewrite Hne, Hp. }
  assert (Hkept : getItem "token" st1 = Some text ->
    snd r = Threw "SyntaxError" ∧
    localStorage (fst r) = localStorage st1 ∧
    token (fst r) = None ∧
    onMount u (pageLoad (localStorage (fst r))) = r).
  { intros Ht.
    assert (Hr1 : r = (loadBaseUrl st1, Threw "SyntaxError"))
      by (by apply Hr).
    rewrite Hr1. simpl. split_and!; [done|done|congruence|].
    unfold Launch.onMount. rewrite Hls.
    assert (Hst1 : pageLoad (localStorage st1) = st1).
    { apply LaunchSpec.session_eq; by rewrite ?Hmem, ?Hbase. }
    rewrite Hst1. unfold st1 at 1. rewrite detect_idempotent.
    by apply Hr. }
  split; [exact Hkept|]. intros Hstore.
  assert (Hno : ¬ supersedes u store ->
    getItem "token" st1 = Some text ∧
    getItem "token" (fst r) = Some text ∧
    snd r = Threw "SyntaxError").
  { intros Hn. destruct (detect_token u store) as [[Ht _]|(_ & _ & Hs)];
      [|done]. fold st1 in Ht. rewrite Hstore in Ht.
    destruct (Hkept Ht) as (Hout & Hsame & _).
    split_and!; [done| |done]. unfold getItem in *. by rewrite Hsame. }
  assert (Hyes : supersedes u store ->
    getItem "token" st1 = None ∧
    getItem "token" (fst r) = None ∧
    token (fst r) = None ∧
    snd r ≠ Restored ∧ snd r ≠ Exchanged).
  { intros Hs. destruct (detect_token u store) as [[_ Hn]|(Ht & He & _)];
      [done|]. fold st1 in Ht, He. split; [done|].
    assert (Hres : r = establish u (loadBaseUrl st1)).
    { unfold r, Launch.onMount. fold st1.
      apply resolve_without_token; [done|by rewrite Ht]. }
    assert (Htl : getItem "token" (loadBaseUrl st1) = None)
      by (unfold getItem in *; by rewrite Hls).
    assert (Hel : getItem "tokenEndpoint" (loadBaseUrl st1) = None)
      by (unfold getItem in *; by rewrite Hls).
    assert (Hml : token (loadBaseUrl st1) = None) by congruence.
    rewrite Hres. unfold Launch.establish, makeTokenRequest, Launch.authorize.
    rewrite Hel. unfold getItem in *.
    repeat case_match; simpl; rewrite ?lookup_insert_ne by done; done. }
  split_and!; [done|done|]. split.
  - intros Hnone. destruct (detect_token u store) as [[_ Hn]|(_ & _ & Hs)];
      [|done]. destruct (Hno Hn) as (_ & Hk & _). congruence.
  - intros Hs. by destruct (Hyes Hs) as (_ & ? & _).
Qed.

End Controller.

End LaunchMore.

(** ** The observation feed: further properties *)

Module FeedMore.
Import Feed FeedProps MoreProps.

#[local] Arguments Feed.updateDisplayedObservations : simpl never.

Lemma moreInFlight_app (l1 l2 : list pending) :
  moreInFlight (l1 ++ l2) = (moreInFlight l1 + moreInFlight l2)%nat.
Proof. unfold moreInFlight. by rewrite List.filter_app, length_app. Qed.

Lemma moreInFlight_cons (p : pending) (l : list pending) :
  moreInFlight (p :: l) =
    ((match p with PendingMore => 1 | _ => 0 end) + moreInFlight l)%nat.
Proof. unfold moreInFlight. by destruct p. Qed.

Lemma next_link_nonempty (bundle : Bundle) (next : string) :
  next_link bundle = Some next -> next ≠ "".
Proof.
  unfold next_link. intros H.
  repeat (case_match; simplify_eq/=; try done).
  match goal with
  | Ht : JS.truthy _ = true |- _ => rewrite H in Ht; simpl in Ht
  end.
  by apply JSFacts.truthy_string_true.
Qed.

Section Viewer.
Variables accessToken patientId baseUrl : string.
Variable Date_parse : string -> option Z.

Local Abbreviation updateDisplayedObservations :=
  (updateDisplayedObservations Date_parse).
Local Abbreviation reactive := (reactive Date_parse).
Local Abbreviation loadMore_finish := (loadMore_finish Date_parse).
Local Abbreviation loadMore_begin := (loadMore_begin accessToken Date_parse).
Local Abbreviation loadMore_resume := (loadMore_resume Date_parse).
Local Abbreviation createTemperatureObservation_begin :=
  (createTemperatureObservation_begin accessToken patientId baseUrl).
Local Abbreviation createTemperatureObservation_resume :=
  (createTemperatureObservation_resume Date_parse).
Local Abbreviation reconcile_begin :=
  (reconcile_begin accessToken patientId baseUrl).
Local Abbreviation reconcile_resume := (reconcile_resume Date_parse).
Local Abbreviation onMount_resume := (onMount_resume Date_parse).
Local Abbreviation boot := (boot accessToken patientId baseUrl Date_parse).
Local Abbreviation step := (step accessToken patientId baseUrl Date_parse).
Local Abbreviation reachable :=
  (reachable accessToken patientId baseUrl Date_parse).

(** The variables of the pagination that a segment leaves alone. *)
Lemma update_cursor (st : state) :
  isLoadingMore (updateDisplayedObservations st) = isLoadingMore st ∧
  nextUrl (updateDisplayedObservations st) = nextUrl st ∧
  hasMoreOnServer (updateDisplayedObservations st) = hasMoreOnServer st.
Proof.
  destruct (FeedSpec.update_others Date_parse st) as (_ & H1 & H2 & H3 & _).
  done.
Qed.

Lemma reactive_cursor (st : state) :
  isLoadingMore (reactive st) = isLoadingMore st ∧
  nextUrl (reactive st) = nextUrl st ∧
  hasMoreOnServer (reactive st) = hasMoreOnServer st.
Proof.
  destruct (FeedSpec.reactive_self Date_parse st) as [-> | ->]; [done|].
  apply update_cursor.
Qed.

Lemma loadMore_finish_cursor (moreData : option Bundle) (st : state) :
  isLoadingMore (loadMore_finish moreData st) = isLoadingMore st ∧
  nextUrl (loadMore_finish moreData st) = nextUrl st ∧
  hasMoreOnServer (loadMore_finish moreData st) = hasMoreOnServer st.
Proof.
  rewrite FeedSpec.loadMore_finish_eq.
  destruct (update_cursor
              (set_currentPage (S (currentPage st))
                 (mergeMore Date_parse moreData st))) as (-> & -> & ->).
  by destruct moreData.
Qed.

Lemma create_resume_cursor (posted : Observation) (now : Z)
    (reply : thrown + option created) (st : state) :
  let st' := fst (createTemperatureObservation_resume posted now reply st) in
  isLoadingMore st' = isLoadingMore st ∧ nextUrl st' = nextUrl st ∧
  hasMoreOnServer st' = hasMoreOnServer st.
Proof.
  destruct reply as [err|data]; [done|].
  unfold Feed.createTemperatureObservation_resume. cbn [fst].
  match goal with
  | |- context [reactive ?s] =>
      destruct (reactive_cursor s) as (-> & -> & ->)
  end.
  cbn [isLoadingMore nextUrl hasMoreOnServer set_form].
  match goal with
  | |- context [updateDisplayedObservations ?s] =>
      destruct (update_cursor s) as (-> & -> & ->)
  end.
  by destruct (vitalObservations _).
Qed.

Lemma reconcile_resume_cursor (now : Z) (reply : string + Bundle)
    (st : state) :
  let st' := reconcile_resume now reply st in
  isLoadingMore st' = isLoadingMore st ∧
  match reply with
  | inr bundle =>
      nextUrl st' = next_link bundle ∧
      hasMoreOnServer st' = bool_decide (is_Some (next_link bundle))
  | inl _ => nextUrl st' = nextUrl st ∧
             hasMoreOnServer st' = hasMoreOnServer st
  end.
Proof.
  destruct reply as [e|bundle]; [done|]. cbv zeta.
  rewrite FeedSpec.reconcile_resume_ok.
  match goal with
  | |- context [updateDisplayedObservations (updateDisplayedObservations ?s)] =>
      destruct (update_cursor (updateDisplayedObservations s))
        as (-> & -> & ->);
      destruct (update_cursor s) as (-> & -> & ->)
  end.
  done.
Qed.

Lemma onMount_resume_cursor (now : Z) (reply : string + Bundle)
    (st : state) :
  let st' := onMount_resume now reply st in
  isLoadingMore st' = isLoadingMore st ∧
  match reply with
  | inr bundle =>
      nextUrl st' = next_link bundle ∧
      hasMoreOnServer st' = bool_decide (is_Some (next_link bundle))
  | inl _ => nextUrl st' = nextUrl st ∧
             hasMoreOnServer st' = hasMoreOnServer st
  end.
Proof.
  destruct reply as [e|bundle]; [done|]. cbv zeta.
  rewrite FeedSpec.onMount_resume_ok.
  match goal with
  | |- context [updateDisplayedObservations ?s] =>
      destruct (update_cursor s) as (-> & -> & ->)
  end.
  done.
Qed.

Lemma loadMore_resume_cursor (reply : string + Bundle) (st : state) :
  let st' := loadMore_resume reply st in
  isLoadingMore st' = false ∧
  match reply with
  | inr bundle =>
      nextUrl st' = next_link bundle ∧
      hasMoreOnServer st' = bool_decide (is_Some (next_link bundle))
  | inl _ => nextUrl st' = nextUrl st ∧
             hasMoreOnServer st' = hasMoreOnServer st
  end.
Proof.
  destruct reply as [e|bundle]; cbv zeta.
  - rewrite FeedSpec.loadMore_resume_failed.
    by destruct (loadMore_finish_cursor None (set_isLoadingMore false st))
      as (-> & -> & ->).
  - rewrite FeedSpec.loadMore_resume_ok.
    by destruct (loadMore_finish_cursor (Some bundle)
                   (set_isLoadingMore false
                      (set_cursor (next_link bundle) st)))
      as (-> & -> & ->).
Qed.

(** What [loadMore] does up to its [await], by cases. *)
Lemma loadMore_begin_cases (st : state) :
  (∃ next, loadMore_begin st
           = (set_isLoadingMore true st, Some (GET next (bearer accessToken)))
           ∧ nextUrl st = Some next ∧ isLoadingMore st = false) ∨
  loadMore_begin st = (loadMore_finish None st, None).
Proof.
  unfold Feed.loadMore_begin, fetchMoreFromServer_begin.
  destruct (_ && _ && negb (isLoadingMore st))%bool eqn:Hc; [|by right].
  apply andb_true_iff in Hc as [_ Hl]. apply negb_true_iff in Hl.
  destruct (nextUrl st) as [next|]; [|by right].
  rewrite Hl, orb_false_r. destruct (JS.truthy_string next); simpl;
    [left; by eexists|by right].
Qed.

Lemma reachable_ind (P : world -> Prop) :
  (∀ now, P (boot now)) ->
  (∀ w w', step w w' -> P w -> P w') ->
  ∀ w, reachable w -> P w.
Proof.
  intros Hboot Hstep w [now Hrtc]. revert w Hrtc. apply rtc_ind_r.
  - apply Hboot.
  - intros w w' _ Hs IH. by apply (Hstep w w').
Qed.

(** X10.  At most one fetch of a further page is in flight at any time,
    and [isLoadingMore] is set exactly while there is one: a [loadMore]
    that comes during a fetch sends nothing. *)
Theorem one_page_fetch_in_flight (w : world) :
  reachable w ->
  moreInFlight (inflight w) = (if isLoadingMore (view w) then 1 else 0)%nat ∧
  (isLoadingMore (view w) = true -> snd (loadMore_begin (view w)) = None).
Proof.
  intros Hw. split.
  - revert w Hw. apply reachable_ind; [done|].
    intros w w' Hstep IH. destruct Hstep as
      [w now reply l1 l2 Hin| w | w reply l1 l2 Hin | w s | w | w nowISO
      | w posted now reply l1 l2 Hin | w now t1 d t2 Ht
      | w now reply l1 l2 Hin].
    + cbn [view inflight settle]. rewrite Hin in IH.
      rewrite moreInFlight_app, moreInFlight_cons in IH.
      rewrite moreInFlight_app.
      by rewrite (proj1 (onMount_resume_cursor now reply (view w))).
    + destruct (loadMore_begin_cases (view w))
        as [(next & -> & _ & Hl)| ->]; cbn [send view inflight].
      * rewrite moreInFlight_app, IH, Hl. done.
      * by rewrite (proj1 (loadMore_finish_cursor None (view w))).
    + cbn [view inflight settle]. rewrite Hin in IH.
      rewrite moreInFlight_app, moreInFlight_cons in IH.
      rewrite moreInFlight_app.
      rewrite (proj1 (loadMore_resume_cursor reply (view w))).
      destruct (isLoadingMore (view w)); lia.
    + done.
    + done.
    + unfold Feed.createTemperatureObservation_begin.
      destruct (validTemperature _); cbn [send view inflight]; [|done].
      rewrite moreInFlight_app. cbn. lia.
    + pose proof (create_resume_cursor posted now reply (view w)) as Hc.
      destruct (createTemperatureObservation_resume posted now reply (view w))
        as [st armed]. cbn [view inflight settle fst] in *.
      rewrite Hin in IH.
      rewrite moreInFlight_app, moreInFlight_cons in IH.
      rewrite moreInFlight_app, (proj1 Hc). exact IH.
    + cbn [send view inflight reconcile_begin Feed.reconcile_begin
           getVitals_cached].
      rewrite moreInFlight_app. cbn. lia.
    + cbn [view inflight settle]. rewrite Hin in IH.
      rewrite moreInFlight_app, moreInFlight_cons in IH.
      rewrite moreInFlight_app.
      by rewrite (proj1 (reconcile_resume_cursor now reply (view w))).
  - intros Hl. unfold Feed.loadMore_begin. by rewrite Hl, andb_false_r.
Qed.

Lemma cursorSound_reachable (w : world) :
  reachable w -> cursorSound (view w).
Proof.
  assert (Hset : ∀ bundle st,
    nextUrl st = next_link bundle ->
    hasMoreOnServer st = bool_decide (is_Some (next_link bundle)) ->
    cursorSound st).
  { intros bundle st Hn Hh. split.
    - intros next Hnext. rewrite Hn in Hnext.
      by apply (next_link_nonempty bundle).
    - rewrite Hh, Hn. intros Hb. apply bool_decide_eq_false in Hb.
      destruct (next_link bundle); [|done]. destruct Hb. by eexists. }
  assert (Hkeep : ∀ st st',
    nextUrl st' = nextUrl st -> hasMoreOnServer st' = hasMoreOnServer st ->
    cursorSound st -> cursorSound st').
  { intros st st' Hn Hh [H1 H2]. split; rewrite ?Hn, ?Hh; auto. }
  revert w. apply reachable_ind; [done|].
  intros w w' Hstep IH. destruct Hstep as
    [w now reply l1 l2 Hin| w | w reply l1 l2 Hin | w s | w | w nowISO
    | w posted now reply l1 l2 Hin | w now t1 d t2 Ht
    | w now reply l1 l2 Hin].
  - cbn [view settle].
    destruct (onMount_resume_cursor now reply (view w)) as [_ H].
    destruct reply as [e|bundle]; destruct H as [Hn Hh].
    + by apply (Hkeep (view w)).
    + by apply (Hset bundle).
  - rewrite FeedSpec.view_send.
    destruct (loadMore_begin_cases (view w)) as [(next & -> & _)| ->].
    + by apply (Hkeep (view w)).
    + destruct (loadMore_finish_cursor None (view w)) as (_ & Hn & Hh).
      by apply (Hkeep (view w)).
  - cbn [view settle].
    destruct (loadMore_resume_cursor reply (view w)) as [_ H].
    destruct reply as [e|bundle]; destruct H as [Hn Hh].
    + by apply (Hkeep (view w)).
    + by apply (Hset bundle).
  - by apply (Hkeep (view w)).
  - by apply (Hkeep (view w)).
  - rewrite FeedSpec.view_send.
    unfold Feed.createTemperatureObservation_begin.
    destruct (validTemperature _); by apply (Hkeep (view w)).
  - pose proof (create_resume_cursor posted now reply (view w)) as Hc.
    destruct (createTemperatureObservation_resume posted now reply (view w))
      as [st armed]. cbn [view settle fst] in *.
    destruct Hc as (_ & Hn & Hh). by apply (Hkeep (view w)).
  - by rewrite FeedSpec.view_send.
  - cbn [view settle].
    destruct (reconcile_resume_cursor now reply (view w)) as [_ H].
    destruct reply as [e|bundle]; destruct H as [Hn Hh].
    + by apply (Hkeep (view w)).
    + by apply (Hset bundle).
Qed.

(** X11.  In every reachable state the cursor is absent or a non-empty
    address, and it is absent whenever [hasMoreOnServer] is false; so a
    [loadMore] sends a request only to an address the server gave. *)
Theorem cursor_sound (w : world) :
  reachable w ->
  (∀ next, nextUrl (view w) = Some next -> next ≠ "") ∧
  (hasMoreOnServer (view w) = false -> nextUrl (view w) = None) ∧
  (∀ req, snd (loadMore_begin (view w)) = Some req ->
     ∃ next, nextUrl (view w) = Some next ∧
             req = GET next (bearer accessToken)).
Proof.
  intros Hw. destruct (cursorSound_reachable w Hw) as [H1 H2].
  split_and!; [done..|].
  intros req Hreq.
  destruct (loadMore_begin_cases (view w)) as [(next & Hb & Hn & _)| Hb];
    rewrite Hb in Hreq; simplify_eq/=.
  by exists next.
Qed.

(** X12.  Every request the viewer sends carries the bearer token; a
    create is posted to the Observation endpoint as FHIR JSON, and the
    value it carries is never NaN. *)
Theorem requests_well_formed (w : world) :
  reachable w -> Forall (wellFormed accessToken baseUrl) (sent w).
Proof.
  revert w. apply reachable_ind.
  - intros now. repeat constructor.
  - intros w w' Hstep IH. destruct Hstep as
      [w now reply l1 l2 Hin| w | w reply l1 l2 Hin | w s | w | w nowISO
      | w posted now reply l1 l2 Hin | w now t1 d t2 Ht
      | w now reply l1 l2 Hin]; try exact IH.
    + destruct (loadMore_begin_cases (view w)) as [(next & -> & _)| ->];
        cbn [send sent]; [|done].
      apply Forall_app. split; [done|]. by repeat constructor.
    + unfold Feed.createTemperatureObservation_begin.
      destruct (validTemperature (temperatureValue (view w))) eqn:Hv;
        cbn [send sent]; [|done].
      apply Forall_app. split; [done|]. repeat constructor.
      eexists. split; [reflexivity|].
      unfold validTemperature in Hv. apply andb_true_iff in Hv as [_ Hv].
      by apply negb_true_iff in Hv.
    + by destruct (createTemperatureObservation_resume posted now reply (view w)).
    + cbn [send sent reconcile_begin Feed.reconcile_begin getVitals_cached].
      apply Forall_app. split; [done|]. by repeat constructor.
Qed.

Lemma loadMore_finish_none_all (st : state) :
  initialised st ->
  allObservations (loadMore_finish None st) = allObservations st.
Proof.
  intros Hi. rewrite FeedSpec.loadMore_finish_eq, FeedSpec.update_all.
  change (allObservations (set_currentPage _ (mergeMore Date_parse None st)))
    with (allObservations st).
  change (vitalObservations (set_currentPage _ (mergeMore Date_parse None st)))
    with (vitalObservations st).
  destruct (allObservations st) eqn:Ha; [|done].
  destruct (vitalObservations st) as [b|] eqn:Hv; [|done].
  by rewrite (Hi Ha b Hv).
Qed.

Lemma loadMore_finish_displayed (moreData : option Bundle) (st : state) :
  displayedObservations (loadMore_finish moreData st) =
    take (windowSize st + itemsPerPage)
      (allObservations (loadMore_finish moreData st)).
Proof.
  rewrite FeedSpec.loadMore_finish_eq, FeedSpec.update_displayed.
  f_equal. unfold windowSize, itemsPerPage.
  cbn [currentPage set_currentPage]. lia.
Qed.

(** X13.  A failed fetch of a further page loses nothing and keeps the
    cursor, so the fetch can be tried again; the in-flight flag is reset;
    the window is one page larger all the same. *)
Theorem loadMore_failure (e : string) (st : state) :
  initialised st ->
  let st' := loadMore_resume (inl e) st in
  allObservations st' = allObservations st ∧
  nextUrl st' = nextUrl st ∧
  hasMoreOnServer st' = hasMoreOnServer st ∧
  isLoadingMore st' = false ∧
  currentPage st' = S (currentPage st) ∧
  displayedObservations st'
    = take (windowSize st + itemsPerPage) (allObservations st).
Proof.
  intros Hi st'.
  destruct (loadMore_resume_cursor (inl e) st) as (Hl & Hn & Hh).
  assert (Ha : allObservations st' = allObservations st).
  { unfold st'. rewrite FeedSpec.loadMore_resume_failed.
    by rewrite loadMore_finish_none_all. }
  split_and!; try done.
  - unfold st'. rewrite FeedSpec.loadMore_resume_failed.
    by rewrite FeedSpec.loadMore_finish_page.
  - rewrite <- Ha. unfold st'. rewrite FeedSpec.loadMore_resume_failed.
    by rewrite (loadMore_finish_displayed None).
Qed.

(** X14.  A fetched page is merged without loss and without removal of
    duplicates: the collection after the merge is a rearrangement of the
    old collection followed by the entries of the page, whether the
    entries have dates or not; the cursor becomes the page's next link. *)
Theorem loadMore_merge_keeps_entries (more : Bundle) (st : state) :
  initialised st ->
  let st' := loadMore_resume (inr more) st in
  allObservations st' ≡ₚ allObservations st ++ getVitalsEntries more ∧
  length (allObservations st')
    = (length (allObservations st) + length (getVitalsEntries more))%nat ∧
  nextUrl st' = next_link more ∧
  displayedObservations st'
    = take (windowSize st + itemsPerPage) (allObservations st').
Proof.
  intros Hi st'.
  set (merged := JS.Array_sort (byDate Date_parse)
         (allObservations st
          ++ JS.Array_sort (byDate Date_parse) (getVitalsEntries more))).
  assert (Hperm : merged ≡ₚ allObservations st ++ getVitalsEntries more).
  { unfold merged.
    by rewrite JSFacts.Array_sort_perm, JSFacts.Array_sort_perm. }
  assert (Hall : allObservations st' =
    match merged, vitalObservations st with
    | [], Some bundle =>
        JS.Array_sort (byDate Date_parse) (getVitalsEntries bundle)
    | l, _ => l
    end).
  { unfold st'.
    rewrite FeedSpec.loadMore_resume_ok, FeedSpec.loadMore_finish_eq,
      FeedSpec.update_all.
    simpl. fold merged. by destruct merged, (vitalObservations st). }
  assert (Hp : allObservations st'
               ≡ₚ allObservations st ++ getVitalsEntries more).
  { rewrite Hall. destruct merged eqn:Hm; [|done].
    symmetry in Hperm. apply Permutation_nil_r in Hperm.
    apply app_eq_nil in Hperm as [Hnil Hmore]. rewrite Hnil, Hmore. simpl.
    destruct (vitalObservations st) as [b|] eqn:Hv; [|done].
    by rewrite (Hi Hnil b Hv). }
  split_and!; [done|by rewrite Hp, length_app| |].
  - by destruct (loadMore_resume_cursor (inr more) st) as (_ & Hn & _).
  - unfold st'. rewrite FeedSpec.loadMore_resume_ok.
    by rewrite (loadMore_finish_displayed (Some more)).
Qed.

(** X15.  In a reachable state where [hasMore] is false, every entry
    that was loaded is displayed and there is no cursor left. *)
Theorem nothing_hidden_without_more (w : world) :
  reachable w -> hasMore (view w) = false ->
  displayedObservations (view w) = allObservations (view w) ∧
  nextUrl (view w) = None ∧ hasMoreOnServer (view w) = false.
Proof.
  intros Hw Hm.
  destruct (FeedSpec.consistent_reachable _ _ _ _ w Hw) as [Hwin _].
  destruct (cursorSound_reachable w Hw) as [_ Hc].
  unfold hasMore in Hm. apply orb_false_elim in Hm as [Hlen Hs].
  apply bool_decide_eq_false in Hlen.
  split_and!; [|by apply Hc|done].
  rewrite Hwin. apply take_ge. unfold windowSize. lia.
Qed.

(** X16.  A [loadMore] that sends no request only lengthens the window:
    the collection is unchanged and what was displayed stays displayed, in
    place, with the next entries after it. *)
Theorem loadMore_extends_window (w : world) :
  reachable w ->
  snd (loadMore_begin (view w)) = None ->
  let st' := fst (loadMore_begin (view w)) in
  allObservations st' = allObservations (view w) ∧
  displayedObservations st' =
    displayedObservations (view w)
    ++ take itemsPerPage
         (drop (windowSize (view w)) (allObservations (view w))).
Proof.
  intros Hw Hnone st'.
  destruct (FeedSpec.consistent_reachable _ _ _ _ w Hw) as [Hwin Hi].
  assert (Hst' : st' = loadMore_finish None (view w)).
  { unfold st'. destruct (loadMore_begin_cases (view w))
      as [(next & Hb & _)| ->]; [|done].
    rewrite Hb in Hnone. done. }
  assert (Ha : allObservations st' = allObservations (view w))
    by (rewrite Hst'; by apply loadMore_finish_none_all).
  split; [done|].
  rewrite Hst', loadMore_finish_displayed, <- Hst', Ha, Hwin.
  by rewrite take_take_drop.
Qed.

Lemma sort_insert_sorted_head (x : BundleEntry) (l : list BundleEntry) :
  Forall (notOlder Date_parse x) l ->
  JS.sort_insert (byDate Date_parse) x l = x :: l.
Proof.
  destruct l as [|y l]; [done|]. intros Hf.
  apply Forall_cons in Hf as [(tx & ty & Hx & Hy & Hle) _]. simpl.
  unfold JS.SortCompare, byDate. rewrite Hx, Hy.
  destruct (Z.leb_spec (ty - tx) 0); [done|lia].
Qed.

Lemma sort_sorted_id (l : list BundleEntry) :
  StronglySorted (notOlder Date_parse) l ->
  JS.Array_sort (byDate Date_parse) l = l.
Proof.
  induction 1 as [|x l Hs IH Hf]; [done|]. simpl. rewrite IH.
  by apply sort_insert_sorted_head.
Qed.

(** X17.  An empty further page does not disturb a collection that is in
    order: when the collection is descending by time, the merge of a page
    without entries leaves it exactly as it is. *)
Theorem empty_page_keeps_order (more : Bundle) (st : state) :
  StronglySorted (notOlder Date_parse) (allObservations st) ->
  initialised st ->
  getVitalsEntries more = [] ->
  allObservations (loadMore_resume (inr more) st) = allObservations st.
Proof.
  intros Hs Hi Hm.
  rewrite FeedSpec.loadMore_resume_ok, FeedSpec.loadMore_finish_eq,
    FeedSpec.update_all.
  simpl. rewrite Hm. simpl. rewrite app_nil_r, (sort_sorted_id _ Hs).
  destruct (allObservations st) eqn:Ha; [|done].
  destruct (vitalObservations st) as [b|] eqn:Hv; [|done].
  by rewrite (Hi Ha b Hv).
Qed.

(** X18.  When the first fetch fails the viewer stores the error text,
    stops loading and touches nothing else; in particular [hasMore] is
    still true on a fresh viewer, although a [loadMore] then finds no
    cursor and sends nothing. *)
Theorem mount_failure (now : Z) (e : string) (st : state) :
  let st' := onMount_resume now (inl e) st in
  error st' = Some ("Failed to fetch vital signs: " +:+ e) ∧
  loading st' = false ∧
  vitalObservations st' = vitalObservations st ∧
  allObservations st' = allObservations st ∧
  displayedObservations st' = displayedObservations st ∧
  nextUrl st' = nextUrl st ∧ hasMore st' = hasMore st ∧
  (nextUrl st = None -> snd (loadMore_begin st') = None) ∧
  hasMore (onMount_resume now (inl e) initial) = true.
Proof.
  split_and!; try done.
  intros Hn. destruct (loadMore_begin_cases (onMount_resume now (inl e) st))
    as [(next & _ & Hnext & _)| ->]; [|done].
  change (nextUrl st = Some next) in Hnext. congruence.
Qed.

End Viewer.

End FeedMore.

(** ** The patient banner *)

Module BannerSpec.
Import Banner.

(** X19.  The patient cache gives back what was fetched, for five minutes:
    a call within 300000 ms of the fetch returns the fetched patient and
    sends nothing; from then on the cached patient is ignored and the
    request is sent again. *)
Theorem patient_cache_round_trip (accessToken baseUrl patient : string)
    (now later : Z) (data : Patient) (st : state) :
  let st' := onMount_resume baseUrl patient now (inr data) st in
  patientResource st' = Some data ∧ loading st' = false ∧
  (later - now < CACHE_DURATION ->
     getPatientData_cached baseUrl patient later st' = Some data ∧
     onMount_begin accessToken baseUrl patient later st'
       = (shown (Some data) st', None)) ∧
  (CACHE_DURATION <= later - now ->
     getPatientData_cached baseUrl patient later st' = None ∧
     onMount_begin accessToken baseUrl patient later st'
       = (st', Some (getPatientData_request accessToken baseUrl patient))).
Proof.
  intros st'.
  assert (Hc : patientCache st' !! cacheKey baseUrl patient = Some (data, now))
    by apply lookup_insert_eq.
  split_and!; [done|done| |].
  - intros Hlt. unfold onMount_begin, getPatientData_cached. rewrite Hc.
    destruct (Z.ltb_spec (later - now) CACHE_DURATION); [done|lia].
  - intros Hge. unfold onMount_begin, getPatientData_cached. rewrite Hc.
    destruct (Z.ltb_spec (later - now) CACHE_DURATION); [lia|done].
Qed.

(** X20.  The cache tells patients apart by the text [baseUrl-patient]
    alone.  A fetch for one server and patient answers, while it is fresh,
    a call for any other server and patient that give the same text; a
    call for a pair that gives another text does not see it. *)
Theorem patient_cache_key (baseUrl1 patient1 baseUrl2 patient2 : string)
    (now later : Z) (data : Patient) (st : state) :
  let st' := onMount_resume baseUrl1 patient1 now (inr data) st in
  (cacheKey baseUrl1 patient1 = cacheKey baseUrl2 patient2 ->
     later - now < CACHE_DURATION ->
     getPatientData_cached baseUrl2 patient2 later st' = Some data) ∧
  (cacheKey baseUrl1 patient1 ≠ cacheKey baseUrl2 patient2 ->
     getPatientData_cached baseUrl2 patient2 later st'
       = getPatientData_cached baseUrl2 patient2 later st).
Proof.
  intros st'. split.
  - intros Hk Hlt. unfold getPatientData_cached. rewrite <- Hk.
    unfold st', onMount_resume, shown, getPatientData_resume; simpl.
    rewrite lookup_insert_eq.
    destruct (Z.ltb_spec (later - now) CACHE_DURATION); [done|lia].
  - intros Hk. unfold getPatientData_cached.
    unfold st', onMount_resume, shown, getPatientData_resume; simpl.
    by rewrite lookup_insert_ne.
Qed.

End BannerSpec.

(** ** The viewer without pagination *)

Module LegacySpec.
Import Feed Legacy.

(** X21.  In the viewer without pagination a create whose POST succeeds
    but whose following fetch fails ends with both marks set: the success
    flag is up, the form is closed and the input cleared, and the fetch
    error is stored as the create error; the list is the old one. *)
Theorem refresh_failure_after_create (accessToken patientId baseUrl : string)
    (data : option created) (e : string) (st : state) :
  let r := createTemperatureObservation_posted accessToken patientId baseUrl
             (inr data) st in
  let st' := createTemperatureObservation_refreshed (inl e) (fst r) in
  snd r = Some (getVitals_request accessToken patientId baseUrl) ∧
  createSuccess st' = true ∧
  createError st' = Some ("Failed to fetch vital signs: " +:+ e) ∧
  showCreateForm st' = false ∧ temperatureValue st' = JS.Str "" ∧
  creating st' = false ∧
  vitalObservations st' = vitalObservations st.
Proof. by split_and!. Qed.

(** X22.  In the viewer without pagination a created reading is never
    shown before the server lists it: the reply to the POST leaves the
    bundle as it was, and after the fetch that follows the cards are the
    entries of the fetched bundle, rearranged by the sort. *)
Theorem create_shows_server_list (accessToken patientId baseUrl : string)
    (Date_parse : string -> option Z)
    (data : option created) (bundle : Bundle) (st : state) :
  let r := createTemperatureObservation_posted accessToken patientId baseUrl
             (inr data) st in
  let st' := createTemperatureObservation_refreshed (inr bundle) (fst r) in
  vitalObservations (fst r) = vitalObservations st ∧
  vitalObservations st' = Some bundle ∧
  cards Date_parse st' ≡ₚ getVitalsEntries bundle ∧
  createSuccess st' = true ∧ createError st' = createError st ∧
  creating st' = false.
Proof.
  split_and!; try done.
  unfold cards; simpl. apply JSFacts.Array_sort_perm.
Qed.

End LegacySpec.

(** ** The further properties at concrete inputs *)

Module MoreWitness.
Import MoreProps.

Lemma authUrl_parameters_witness :
  ∃ target,
    Launch.constructAuthUrl Sample.url_parse
      (Some "https://auth.example/authorize") "launch-A" Sample.issuer
      = Some target ∧
    searchParams_get "aud" (Launch.searchParams target) = Some Sample.issuer ∧
    occurrences "aud" (Launch.searchParams target) = 1%nat.
Proof.
  destruct (LaunchMore.authUrl_parameters Sample.url_parse
              (Some "https://auth.example/authorize") "launch-A" Sample.issuer
              {| Launch.location := "https://auth.example/authorize";
                 Launch.searchParams := [] |} eq_refl)
    as (target & Ht & _ & Hset & _).
  exists target. split; [exact Ht|].
  apply Hset. unfold authParams. rewrite !elem_of_cons.
  do 4 right. left. reflexivity.
Defined.

Lemma onMount_other_keys_witness :
  Launch.getItem "theme"
    (fst (Launch.onMount Sample.parse Sample.stringify Sample.url_parse
            Sample.token_server Sample.discovery
            Sample.launchB (Launch.pageLoad MoreSample.corruptStore)))
  = Some "dark".
Proof.
  rewrite (LaunchMore.onMount_other_keys Sample.parse Sample.stringify
             Sample.url_parse Sample.token_server Sample.discovery
             Sample.launchB (Launch.pageLoad MoreSample.corruptStore) "theme").
  - vm_compute. reflexivity.
  - unfold ownKeys. rewrite !not_elem_of_cons.
    split_and!; [discriminate..|apply not_elem_of_nil].
Defined.

Lemma missing_parameters_witness :
  snd (Launch.onMount Sample.parse Sample.stringify Sample.url_parse
         Sample.token_server Sample.discovery
         MoreSample.plainPage (Launch.pageLoad ∅))
  = Launch.Threw "ISS or Launch parameter is missing.".
Proof.
  apply (LaunchMore.missing_parameters Sample.parse Sample.stringify
           Sample.url_parse Sample.token_server Sample.discovery
           MoreSample.plainPage ∅); [reflexivity|reflexivity|].
  left. reflexivity.
Defined.

Lemma exchange_without_endpoint_witness :
  snd (Launch.onMount Sample.parse Sample.stringify Sample.url_parse
         Sample.token_server Sample.discovery
         Sample.callback (Launch.pageLoad ∅))
  = Launch.Threw "Token endpoint is not in local storage.".
Proof.
  destruct (LaunchMore.exchange_without_endpoint Sample.parse Sample.stringify
              Sample.url_parse Sample.token_server Sample.discovery
              Sample.callback ∅) as [H _];
    [reflexivity|reflexivity|reflexivity|].
  rewrite H. reflexivity.
Defined.

Lemma takeover_forces_authorization_witness :
  snd (Launch.onMount Sample.parse Sample.stringify Sample.url_parse
         Sample.token_server Sample.discovery
         Sample.launchB (Launch.pageLoad Sample.storeA)) ≠ Launch.Restored.
Proof.
  apply (LaunchMore.takeover_forces_authorization Sample.parse
           Sample.stringify Sample.url_parse Sample.token_server
           Sample.discovery Sample.launchB Sample.storeA
           Sample.issuer "launch-B"
           (Launch.currentLaunchKey Sample.issuer "launch-A"));
    [reflexivity|reflexivity|discriminate|discriminate
    |vm_compute; reflexivity|discriminate|discriminate].
Defined.

Lemma launch_round_trip_witness :
  let launchPage := Sample.launchA in
  let r1 := Launch.onMount Sample.parse Sample.stringify Sample.url_parse
              Sample.token_server Sample.discovery launchPage
              (Launch.pageLoad ∅) in
  let r2 := Launch.onMount Sample.parse Sample.stringify Sample.url_parse
              Sample.token_server Sample.discovery Sample.callback
              (Launch.pageLoad (Launch.localStorage (fst r1))) in
  let r3 := Launch.onMount Sample.parse Sample.stringify Sample.url_parse
              Sample.token_server Sample.discovery Sample.callback
              (Launch.pageLoad (Launch.localStorage (fst r2))) in
  snd r2 = Launch.Exchanged ∧ snd r3 = Launch.Restored ∧
  Launch.token (fst r3) = Some Sample.tokenPayload.
Proof.
  pose proof (LaunchMore.launch_round_trip Sample.parse Sample.stringify
                Sample.url_parse Sample.token_server Sample.discovery
                Sample.issuer "launch-A" "auth-code-1"
                "https://auth.example/token" ∅ MoreSample.configuration
                {| Launch.location := "https://auth.example/authorize";
                   Launch.searchParams := [] |}
                Sample.tokenPayload
                ltac:(discriminate) ltac:(discriminate) ltac:(discriminate)
                ltac:(discriminate) eq_refl eq_refl eq_refl eq_refl eq_refl
                ltac:(vm_compute; reflexivity) ltac:(discriminate) eq_refl)
    as H.
  cbv zeta in H.
  destruct H as (_ & _ & _ & H2 & _ & _ & _ & H3 & H3t & _).
  split_and!; [exact H2|exact H3|exact H3t].
Defined.

Lemma undefined_token_endpoint_witness :
  Launch.getItem "tokenEndpoint"
    (fst (Launch.onMount Sample.parse Sample.stringify Sample.url_parse
            Sample.token_server MoreSample.discovery_partial
            Sample.launchA (Launch.pageLoad ∅)))
  = Some "undefined".
Proof.
  pose proof (LaunchMore.undefined_token_endpoint Sample.parse Sample.stringify
                Sample.url_parse Sample.token_server
                MoreSample.discovery_partial
                Sample.issuer "launch-A" "auth-code-1" ∅
                {| Launch.authorization_endpoint :=
                     Some "https://auth.example/authorize";
                   Launch.token_endpoint := None |}
                {| Launch.location := "https://auth.example/authorize";
                   Launch.searchParams := [] |}
                ltac:(discriminate) ltac:(discriminate) ltac:(discriminate)
                eq_refl eq_refl eq_refl eq_refl) as H.
  cbv zeta in H. destruct H as (_ & H & _). exact H.
Defined.

Lemma authorization_failure_witness :
  let r := Launch.onMount Sample.parse Sample.stringify Sample.url_parse
             Sample.token_server MoreSample.discovery_failing
             Sample.launchA (Launch.pageLoad ∅) in
  snd r = Launch.Threw "Network Error" ∧
  Launch.getItem "iss" (fst r) = Some Sample.issuer.
Proof.
  pose proof (LaunchMore.authorization_failure Sample.parse Sample.stringify
                Sample.url_parse Sample.token_server
                MoreSample.discovery_failing
                Sample.issuer "launch-A" ∅
                ltac:(discriminate) ltac:(discriminate) eq_refl) as H.
  cbv zeta in H. destruct H as [H _].
  destruct (H "Network Error" eq_refl) as (H1 & H2 & _).
  split; [exact H1|exact H2].
Defined.

Lemma corrupt_token_persists_witness :
  snd (Launch.onMount Sample.parse Sample.stringify Sample.url_parse
         Sample.token_server Sample.discovery
         MoreSample.plainPage (Launch.pageLoad MoreSample.corruptStore))
  = Launch.Threw "SyntaxError" ∧
  Launch.getItem "token"
    (fst (Launch.onMount Sample.parse Sample.stringify Sample.url_parse
            Sample.token_server Sample.discovery
            Sample.launchB (Launch.pageLoad MoreSample.corruptLaunchStore)))
  = None.
Proof.
  split.
  - pose proof (LaunchMore.corrupt_token_persists Sample.parse
                  Sample.stringify Sample.url_parse Sample.token_server
                  Sample.discovery MoreSample.plainPage
                  MoreSample.corruptStore "not-json"
                  ltac:(discriminate) eq_refl) as H.
    cbv zeta in H. destruct H as [H _].
    destruct H as (H & _); [vm_compute; reflexivity|exact H].
  - pose proof (LaunchMore.corrupt_token_persists Sample.parse
                  Sample.stringify Sample.url_parse Sample.token_server
                  Sample.discovery Sample.launchB
                  MoreSample.corruptLaunchStore "not-json"
                  ltac:(discriminate) eq_refl) as H.
    cbv zeta in H. destruct H as [_ H].
    destruct H as (_ & H & _); [vm_compute; reflexivity|].
    destruct H as (_ & H & _); [|exact H].
    exists Sample.issuer, "launch-B",
      (Launch.currentLaunchKey Sample.issuer "launch-A").
    split_and!; [reflexivity|reflexivity|discriminate|discriminate
                |vm_compute; reflexivity|discriminate|discriminate].
Defined.

Lemma one_page_fetch_in_flight_witness :
  moreInFlight (Feed.inflight Sample.loaded) = 0%nat.
Proof.
  apply (proj1 (FeedMore.one_page_fetch_in_flight Sample.accessToken
                  Sample.patientId Sample.issuer Sample.iso_parse
                  Sample.loaded FeedSpec.loaded_reachable)).
Defined.

Lemma cursor_sound_witness :
  Feed.nextUrl (Feed.view Sample.loaded) = None.
Proof.
  destruct (FeedMore.cursor_sound Sample.accessToken Sample.patientId
              Sample.issuer Sample.iso_parse Sample.loaded
              FeedSpec.loaded_reachable) as (_ & H & _).
  apply H. reflexivity.
Defined.

Lemma requests_well_formed_witness :
  Forall (wellFormed Sample.accessToken Sample.issuer)
    (Feed.sent Sample.loaded).
Proof.
  apply (FeedMore.requests_well_formed Sample.accessToken Sample.patientId
           Sample.issuer Sample.iso_parse Sample.loaded
           FeedSpec.loaded_reachable).
Defined.

Lemma loaded_initialised : FeedProps.initialised (Feed.view Sample.loaded).
Proof. intros H. vm_compute in H. discriminate H. Defined.

Lemma loadMore_failure_witness :
  let st' := Feed.loadMore_resume Sample.iso_parse (inl "Network Error")
               (Feed.view Sample.loaded) in
  Feed.allObservations st' = Feed.allObservations (Feed.view Sample.loaded) ∧
  Feed.currentPage st' = 1%nat.
Proof.
  destruct (FeedMore.loadMore_failure Sample.iso_parse "Network Error"
              (Feed.view Sample.loaded) loaded_initialised)
    as (Ha & _ & _ & _ & Hp & _).
  split; [exact Ha|exact Hp].
Defined.

Lemma loadMore_merge_keeps_entries_witness :
  length (Feed.allObservations
            (Feed.loadMore_resume Sample.iso_parse (inr Sample.firstPage)
               (Feed.view Sample.loaded))) = 4%nat.
Proof.
  destruct (FeedMore.loadMore_merge_keeps_entries Sample.iso_parse
              Sample.firstPage (Feed.view Sample.loaded) loaded_initialised)
    as (_ & Hl & _).
  exact Hl.
Defined.

Lemma nothing_hidden_without_more_witness :
  Feed.displayedObservations (Feed.view Sample.loaded)
  = Feed.allObservations (Feed.view Sample.loaded).
Proof.
  apply (FeedMore.nothing_hidden_without_more Sample.accessToken
           Sample.patientId Sample.issuer Sample.iso_parse Sample.loaded
           FeedSpec.loaded_reachable).
  vm_compute. reflexivity.
Defined.

Lemma loadMore_extends_window_witness :
  Feed.allObservations
    (fst (Feed.loadMore_begin Sample.accessToken Sample.iso_parse
            (Feed.view Sample.loaded)))
  = Feed.allObservations (Feed.view Sample.loaded).
Proof.
  apply (FeedMore.loadMore_extends_window Sample.accessToken
           Sample.patientId Sample.issuer Sample.iso_parse Sample.loaded
           FeedSpec.loaded_reachable).
  vm_compute. reflexivity.
Defined.

Lemma empty_page_keeps_order_witness :
  Feed.allObservations
    (Feed.loadMore_resume Sample.iso_parse (inr MoreSample.emptyPage)
       (Feed.view Sample.loaded))
  = [Sample.secondDayEntry; Sample.newYearEntry].
Proof.
  rewrite (FeedMore.empty_page_keeps_order Sample.iso_parse
             MoreSample.emptyPage (Feed.view Sample.loaded)).
  - vm_compute. reflexivity.
  - change (Feed.allObservations (Feed.view Sample.loaded))
      with [Sample.secondDayEntry; Sample.newYearEntry].
    repeat constructor.
    exists 1704153600000, 1704067200000.
    split_and!; [vm_compute; reflexivity..|lia].
  - exact loaded_initialised.
  - reflexivity.
Defined.

Lemma patient_cache_round_trip_witness :
  let st' := Banner.onMount_resume Sample.issuer Sample.patientId 1000
               (inr MoreSample.patient) Banner.initial in
  Banner.getPatientData_cached Sample.issuer Sample.patientId 300999 st'
    = Some MoreSample.patient ∧
  Banner.getPatientData_cached Sample.issuer Sample.patientId 301000 st'
    = None.
Proof.
  destruct (BannerSpec.patient_cache_round_trip Sample.accessToken
              Sample.issuer Sample.patientId 1000 300999 MoreSample.patient
              Banner.initial) as (_ & _ & Hfresh & _).
  destruct (BannerSpec.patient_cache_round_trip Sample.accessToken
              Sample.issuer Sample.patientId 1000 301000 MoreSample.patient
              Banner.initial) as (_ & _ & _ & Hstale).
  split.
  - apply Hfresh. reflexivity.
  - apply Hstale. discriminate.
Defined.

Lemma patient_cache_key_witness :
  Banner.getPatientData_cached "a" "b-c" 2000
    (Banner.onMount_resume "a-b" "c" 1000 (inr MoreSample.patient)
       Banner.initial)
  = Some MoreSample.patient.
Proof.
  apply (BannerSpec.patient_cache_key "a-b" "c" "a" "b-c" 1000 2000
           MoreSample.patient Banner.initial); reflexivity.
Defined.

End MoreWitness.
